(** * SnapbackSM: the replica-set state machine of a content node

    A shallow embedding of [creator-node/src/snapbackSM/snapbackSM.js].
    Asynchronous methods become state-passing functions over a [World]
    (the mutable fields of the [SnapbackSM] instance together with the two
    Bull sync queues, the registry and the log sink); a rejected promise or a
    thrown exception becomes the [Throws] outcome.  External collaborators
    (discovery, health probes, HTTP, the database, the libs client, the queue
    broker) are the fields of a [Collaborators] record.

    An [await] is a point at which other callbacks run.  [enqueueSync] is
    therefore given in two halves, up to its [await queue.add] and from
    there on, so that callers which start several calls before any of them
    resumes ([Promise.all] over [map]) can be written as they execute. *)

From stdpp Require Import gmap strings list fin_maps.
From Stdlib Require Import ZArith Lia.
From Equations Require Import Equations.

Local Open Scope Z_scope.
Local Open Scope string_scope.
Local Open Scope list_scope.

(** ** JavaScript values used by the module *)

(** An endpoint slot of a replica set: a URL, or [None] for [undefined]
    (an incomplete replica set). *)
Abbreviation Endpoint := (option string) (only parsing).

(** [Boolean(e)]: [undefined] and the empty string are falsy. *)
Definition truthy (e : Endpoint) : bool :=
  match e with
  | Some s => negb (String.eqb s "")
  | None => false
  end.

(** Property-key coercion of [obj[e]]: [undefined] becomes the key
    ["undefined"]. *)
Definition prop_key (e : Endpoint) : string := default "undefined" e.

(** A clock read out of a JS object: a number, or [None] for [undefined]. *)
Abbreviation ClockVal := (option Z) (only parsing).

(** [!c] on a clock value: [undefined] and [0] are falsy. *)
Definition js_not (c : ClockVal) : bool :=
  match c with
  | Some z => Z.eqb z 0
  | None => true
  end.

(** [a > b]: any comparison with [undefined] is [false]. *)
Definition js_gt (a b : ClockVal) : bool :=
  match a, b with
  | Some x, Some y => Z.ltb y x
  | _, _ => false
  end.

(** [a >= b]. *)
Definition js_ge (a b : ClockVal) : bool :=
  match a, b with
  | Some x, Some y => Z.leb y x
  | _, _ => false
  end.

(** [a < b]. *)
Definition js_lt (a b : ClockVal) : bool :=
  match a, b with
  | Some x, Some y => Z.ltb x y
  | _, _ => false
  end.

(** ** Constants *)

Definition MaxSyncMonitoringDurationInMs : Z := 360000.
Definition SyncMonitoringRetryDelayMs : Z := 15000.
Definition ModuloBase : Z := 24.

Inductive SyncType := Recurring | Manual.

#[global] Instance SyncType_eq_dec : EqDecision SyncType.
Proof. solve_decision. Defined.

#[global] Instance SyncType_countable : Countable SyncType.
Proof.
  refine (inj_countable' (λ t, match t with Recurring => false | Manual => true end)
                         (λ b : bool, if b then Manual else Recurring) _).
  by intros [].
Defined.

Inductive Phase :=
| NO_PHASE
| AUTOSELECT_CREATOR_NODES
| ENQUEUE_SYNCS
| FETCH_CLOCK_VALUES
| UPDATE_URSM_REPLICA_SET.

(** ** Data model *)

Record NodeUser := {
  user_id : Z;
  wallet : string;
  primary : Endpoint;
  secondary1 : Endpoint;
  secondary2 : Endpoint
}.

(** [{ ...nodeUser, endpoint: secondary }] *)
Record PotentialSyncRequest := {
  psr_user : NodeUser;
  psr_endpoint : Endpoint
}.

(** [{ ...nodeUser, unhealthyReplicas }] *)
Record UpdateReplicaSetOp := {
  op_user : NodeUser;
  op_unhealthyReplicas : list Endpoint
}.

(** The [data] of the axios request of a sync. *)
Record SyncRequestData := {
  srd_wallet : list string;
  creator_node_endpoint : Endpoint;
  sync_type : SyncType;
  srd_immediate : bool
}.

Record SyncRequestParameters := {
  baseURL : Endpoint;
  url : string;
  method : string;
  data : SyncRequestData
}.

Record JobProps := {
  syncRequestParameters : SyncRequestParameters;
  startTime : Z
}.

(** A Bull job: the handle that [queue.add] resolves to. *)
Record Job := {
  job_id : Z;
  job_data : JobProps
}.

(** A Bull queue: its id counter, the waiting jobs (FIFO, oldest first) and
    the jobs being processed.  Completed and failed jobs are not kept
    ([removeOnComplete], [removeOnFail]). *)
Record BullQueue := {
  counter : Z;
  waiting : list Job;
  active : list Job
}.

Definition emptyQueue : BullQueue := {| counter := 0; waiting := []; active := [] |}.

(** The de-duplication key (syncType, userWallet, secondaryEndpoint). *)
Abbreviation Fingerprint := (SyncType * string * option string)%type (only parsing).

(** A call of [UserReplicaSetManagerClient.updateReplicaSet] that went
    through. *)
Record ReplicaSetUpdate := {
  upd_userId : Z;
  upd_primary : option Z;
  upd_secondaries : list (option Z)
}.

Record RandomReplicaSet := {
  rrs_primary : Endpoint;
  rrs_secondaries : list Endpoint
}.

Record ClockResponse := {
  cr_endpoint : string;
  cr_clockValue : Z
}.

(** One entry of the per-iteration decision tree: the stage label and the
    values the later stages and the properties below read back. *)
Inductive Stage :=
| StageBegin (slice : Z)
| StageOk (label : string) (vals : list Z)
| StageError (label : string) (message : string)
| StageSyncError (required issued : option Z) (numErrors : option Z)
| StageEnd (slice nextSlice : Z) (issued numOps : Z).

Inductive LogEntry :=
| LogDuplicateSync (t : SyncType) (w : string) (secondary : Endpoint)
| LogIssueUpdateReplicaSetOp (userId : Z) (w : string) (unhealthy : list Endpoint)
| LogNewReplicaSet (userId : Z) (w : string) (old new : list Endpoint)
| LogSecondaryClock (w : string) (secondary : Endpoint) (clock : Z)
| LogMaxExportExceeded (w : string) (secondary : Endpoint) (clock : Z)
| LogSyncCompleted (w : string) (secondary : Endpoint) (clock : Z) (elapsed : Z)
| LogMonitorError (w : string) (secondary : Endpoint) (message : string)
| LogProcessSync (w : string) (secondary : Endpoint) (p : option Z) (t : SyncType) (id : Z)
| LogEndProcessSync (id : Z)
| LogQueueError (t : SyncType) (message : string)
| LogDecisionTree (tree : list Stage).

(** The state the module reads and writes. *)
Record World := {
  currentModuloSlice : Z;
  manualSyncQueue : BullQueue;
  recurringSyncQueue : BullQueue;
  syncDeDuplicator : gmap (SyncType * string * option string) Job;
  ursm : list ReplicaSetUpdate;
  logs : list LogEntry;
  dateNow : Z
}.

(** ** Outcomes of asynchronous calls *)

Inductive Outcome (A : Type) :=
| Returns (a : A)
| Throws (message : string).
Arguments Returns {A} a.
Arguments Throws {A} message.

(** The collaborators the module calls but does not own. *)
Record Collaborators := {
  (** [this.endpoint] *)
  endpoint : string;
  (** [this.endpointToSPIdMap] *)
  endpointToSPIdMap : gmap string Z;
  (** [nodeConfig.get('maxExportClockValueRange')] *)
  maxExportClockValueRange : Z;
  (** [peerSetManager.getNodeUsers()] *)
  getNodeUsers : Outcome (list NodeUser);
  (** [peerSetManager.getUnhealthyPeers(nodeUsers)] *)
  getUnhealthyPeers : list NodeUser → Outcome (gset string);
  (** [POST secondary/users/batch_clock_status]: the [users] array of the
      response *)
  batchClockStatus : string → list string → Outcome (list (string * Z));
  (** [models.CNodeUser.findAll] on a list of wallets: the rows found *)
  findCNodeUsers : list string → Outcome (list (string * Z));
  (** [audiusLibs.ServiceProvider.autoSelectCreatorNodes({ blacklist })] *)
  autoSelectCreatorNodes : list Endpoint → Outcome RandomReplicaSet;
  (** [audiusLibs.creatorNode.getClockValuesFromReplicaSet()] *)
  getClockValuesFromReplicaSet : Outcome (list ClockResponse);
  (** [UserReplicaSetManagerClient.updateReplicaSet(userId, primary,
      secondaries)] *)
  updateReplicaSet : Z → option Z → list (option Z) → Outcome unit;
  (** whether the queue broker accepts [queue.add(jobProps)] *)
  brokerAccepts : SyncType → JobProps → bool;
  (** [axios(syncRequestParameters)]: the POST of the sync itself *)
  postSync : SyncRequestParameters → Outcome unit;
  (** the [n]-th [GET secondary/users/clock_status/wallet] of a monitoring
      run: the [clockValue] of the response, or the transport error *)
  clockStatus : Endpoint → string → nat → Outcome Z;
  (** milliseconds the [n]-th clock request of a monitoring run takes *)
  latency : nat → N;
  (** milliseconds by which the [n]-th retry timer fires late *)
  timerLag : nat → N
}.

(** ** A state and exception monad *)

Definition Async (St A : Type) : Type := St → Outcome A * St.

#[global] Instance Async_ret {St} : MRet (Async St) :=
  λ A (a : A) s, (Returns a, s).

#[global] Instance Async_bind {St} : MBind (Async St) :=
  λ A B (k : A → Async St B) (m : Async St A) s,
    match m s with
    | (Returns a, s') => k a s'
    | (Throws e, s') => (Throws e, s')
    end.

Definition throw {St A} (message : string) : Async St A := λ s, (Throws message, s).

(** [try { m } catch (e) { handler e }]: the state reached when the
    exception was thrown is kept. *)
Definition tryCatch {St A} (m : Async St A) (handler : string → Async St A) : Async St A :=
  λ s, match m s with
       | (Returns a, s') => (Returns a, s')
       | (Throws e, s') => handler e s'
       end.

(** [await] of a collaborator's promise. *)
Definition await {St A} (o : Outcome A) : Async St A := λ s, (o, s).

Definition modify {St} (f : St → St) : Async St unit := λ s, (Returns tt, f s).

Definition gets {St A} (f : St → A) : Async St A := λ s, (Returns (f s), s).

(** ** World updates *)

Definition set_slice (z : Z) (w : World) : World :=
  {| currentModuloSlice := z;
     manualSyncQueue := manualSyncQueue w;
     recurringSyncQueue := recurringSyncQueue w;
     syncDeDuplicator := syncDeDuplicator w;
     ursm := ursm w; logs := logs w; dateNow := dateNow w |}.

Definition set_manual (q : BullQueue) (w : World) : World :=
  {| currentModuloSlice := currentModuloSlice w;
     manualSyncQueue := q;
     recurringSyncQueue := recurringSyncQueue w;
     syncDeDuplicator := syncDeDuplicator w;
     ursm := ursm w; logs := logs w; dateNow := dateNow w |}.

Definition set_recurring (q : BullQueue) (w : World) : World :=
  {| currentModuloSlice := currentModuloSlice w;
     manualSyncQueue := manualSyncQueue w;
     recurringSyncQueue := q;
     syncDeDuplicator := syncDeDuplicator w;
     ursm := ursm w; logs := logs w; dateNow := dateNow w |}.

Definition set_dedup (d : gmap (SyncType * string * option string) Job) (w : World) : World :=
  {| currentModuloSlice := currentModuloSlice w;
     manualSyncQueue := manualSyncQueue w;
     recurringSyncQueue := recurringSyncQueue w;
     syncDeDuplicator := d;
     ursm := ursm w; logs := logs w; dateNow := dateNow w |}.

Definition set_ursm (u : list ReplicaSetUpdate) (w : World) : World :=
  {| currentModuloSlice := currentModuloSlice w;
     manualSyncQueue := manualSyncQueue w;
     recurringSyncQueue := recurringSyncQueue w;
     syncDeDuplicator := syncDeDuplicator w;
     ursm := u; logs := logs w; dateNow := dateNow w |}.

Definition set_logs (l : list LogEntry) (w : World) : World :=
  {| currentModuloSlice := currentModuloSlice w;
     manualSyncQueue := manualSyncQueue w;
     recurringSyncQueue := recurringSyncQueue w;
     syncDeDuplicator := syncDeDuplicator w;
     ursm := ursm w; logs := l; dateNow := dateNow w |}.

Definition set_dateNow (t : Z) (w : World) : World :=
  {| currentModuloSlice := currentModuloSlice w;
     manualSyncQueue := manualSyncQueue w;
     recurringSyncQueue := recurringSyncQueue w;
     syncDeDuplicator := syncDeDuplicator w;
     ursm := ursm w; logs := logs w; dateNow := t |}.

(** [this.log(msg)] *)
Definition log (e : LogEntry) : Async World unit :=
  modify (λ w, set_logs (logs w ++ [e]) w).

(** The queue a sync type is dispatched on. *)
Definition queueOf (t : SyncType) (w : World) : BullQueue :=
  match t with
  | Manual => manualSyncQueue w
  | Recurring => recurringSyncQueue w
  end.

Definition set_queueOf (t : SyncType) (q : BullQueue) (w : World) : World :=
  match t with
  | Manual => set_manual q w
  | Recurring => set_recurring q w
  end.

(** ** SyncDeDuplicator *)

Module SyncDeDuplicator.

(** Modelled from the spec: [snapbackDeDuplicator.js] is not part of the
    sources; section 4.2 describes a mapping from fingerprint to pending
    job handle with three operations.  [getDuplicateSyncJobInfo] is
    [lookup]: the existing handle or nothing. *)
Definition getDuplicateSyncJobInfo (t : SyncType) (userWallet : string)
    (secondaryEndpoint : Endpoint)
    (d : gmap (SyncType * string * option string) Job) : option Job :=
  d !! (t, userWallet, secondaryEndpoint).

(** Modelled from the spec: [recordSync] is [try_record], which inserts
    if absent. *)
Definition recordSync (t : SyncType) (userWallet : string)
    (secondaryEndpoint : Endpoint) (jobInfo : Job)
    (d : gmap (SyncType * string * option string) Job)
  : gmap (SyncType * string * option string) Job :=
  match d !! (t, userWallet, secondaryEndpoint) with
  | Some _ => d
  | None => <[(t, userWallet, secondaryEndpoint) := jobInfo]> d
  end.

(** Modelled from the spec: [removeSync] is [remove], which erases the
    fingerprint. *)
Definition removeSync (t : SyncType) (userWallet : string)
    (secondaryEndpoint : Endpoint)
    (d : gmap (SyncType * string * option string) Job)
  : gmap (SyncType * string * option string) Job :=
  delete (t, userWallet, secondaryEndpoint) d.

End SyncDeDuplicator.

(** ** enqueueSync *)

Record EnqueueSyncArgs := {
  userWallet : string;
  primaryEndpoint : Endpoint;
  secondaryEndpoint : Endpoint;
  syncType : SyncType;
  immediate : bool
}.

(** An [enqueueSync] call at its suspension point: either it has already
    returned the duplicate, or it is suspended at [await queue.add(jobProps)]
    with the broker's answer on its way. *)
Inductive EnqueueAwait :=
| Settled (info : Job)
| AwaitAdd (a : EnqueueSyncArgs) (r : Outcome Job).

(** [queue.add(jobProps)] as the broker serves it: the job gets the next id
    of its queue and joins the waiting list. *)
Definition queueAdd (c : Collaborators) (t : SyncType) (props : JobProps)
    (w : World) : Outcome Job * World :=
  if brokerAccepts c t props then
    let q := queueOf t w in
    let job := {| job_id := counter q + 1; job_data := props |} in
    (Returns job,
     set_queueOf t {| counter := counter q + 1;
                      waiting := waiting q ++ [job];
                      active := active q |} w)
  else (Throws "queue.add rejected", w).

(** The synchronous prefix of [enqueueSync]: the duplicate check, the
    request parameters and the call of [queue.add]. *)
Definition enqueueSync_start (c : Collaborators) (a : EnqueueSyncArgs)
    (w : World) : EnqueueAwait * World :=
  match SyncDeDuplicator.getDuplicateSyncJobInfo
          (syncType a) (userWallet a) (secondaryEndpoint a) (syncDeDuplicator w) with
  | Some duplicateSyncJobInfo =>
      (Settled duplicateSyncJobInfo,
       set_logs (logs w ++ [LogDuplicateSync (syncType a) (userWallet a) (secondaryEndpoint a)]) w)
  | None =>
      let syncRequestParameters :=
        {| baseURL := secondaryEndpoint a;
           url := "/sync";
           method := "post";
           data := {| srd_wallet := [userWallet a];
                      creator_node_endpoint := primaryEndpoint a;
                      sync_type := syncType a;
                      srd_immediate := immediate a |} |} in
      let jobProps :=
        {| syncRequestParameters := syncRequestParameters;
           startTime := dateNow w |} in
      let '(r, w') := queueAdd c (syncType a) jobProps w in
      (AwaitAdd a r, w')
  end.

(** The continuation of [enqueueSync] once [queue.add] has settled: record
    the sync in the de-duplicator and return the job info. *)
Definition enqueueSync_resume (s : EnqueueAwait) : Async World Job :=
  match s with
  | Settled info => mret info
  | AwaitAdd a r =>
      jobInfo ← await r;
      modify (λ w, set_dedup
                (SyncDeDuplicator.recordSync (syncType a) (userWallet a)
                   (secondaryEndpoint a) jobInfo (syncDeDuplicator w)) w);;
      mret jobInfo
  end.

(** [await this.enqueueSync(...)] with nothing else running in between. *)
Definition enqueueSync (c : Collaborators) (a : EnqueueSyncArgs) : Async World Job :=
  λ w, let '(s, w') := enqueueSync_start c a w in enqueueSync_resume s w'.

(** ** issueUpdateReplicaSetOp *)

(** Run a computation on the world next to a local variable. *)
Definition liftW {L A} (m : Async World A) : Async (World * L) A :=
  λ s, let '(r, w') := m (fst s) in (r, (w', snd s)).

(** A block with its own local variable, initialised to [l0]. *)
Definition withLocal {L A} (l0 : L) (m : Async (World * L) A) : Async World A :=
  λ w, let '(r, (w', _)) := m (w, l0) in (r, w').

(** Assignment to the local variable. *)
Definition assign {L} (l : L) : Async (World * L) unit :=
  modify (λ s, (fst s, l)).

(** [this.endpointToSPIdMap[e]] *)
Definition spIdOf (c : Collaborators) (e : Endpoint) : option Z :=
  endpointToSPIdMap c !! prop_key e.

(** [clockResponses.forEach(r => { endpointToClockMap[r.endpoint] = r.clockValue })] *)
Definition buildEndpointToClockMap (clockResponses : list ClockResponse) : gmap string Z :=
  foldl (λ m r, <[cr_endpoint r := cr_clockValue r]> m) ∅ clockResponses.

Definition manualImmediate (w : string) (source target : Endpoint) : EnqueueSyncArgs :=
  {| userWallet := w; primaryEndpoint := source; secondaryEndpoint := target;
     syncType := Manual; immediate := true |}.

(** The body of the [try] block; the local variable is [phase]. *)
Definition issueUpdateReplicaSetOp_try (c : Collaborators) (userId : Z) (w : string)
    (p s1 s2 : Endpoint) (unhealthyReplicas : list Endpoint)
  : Async (World * Phase) unit :=
  let currentReplicaSet := [p; s1; s2] in
  assign AUTOSELECT_CREATOR_NODES;;
  randomReplicaSet ← await (autoSelectCreatorNodes c currentReplicaSet);
  let healthyReplicas := filter (λ replica, replica ∉ unhealthyReplicas) currentReplicaSet in
  let r0 := rrs_primary randomReplicaSet in
  let r1 := mjoin (rrs_secondaries randomReplicaSet !! 0%nat) in
  let r2 := mjoin (rrs_secondaries randomReplicaSet !! 1%nat) in
  newReplicaSetSPIds ←
    match healthyReplicas with
    | [] =>
        let ids := [spIdOf c r0; spIdOf c r1; spIdOf c r2] in
        assign ENQUEUE_SYNCS;;
        liftW (enqueueSync c (manualImmediate w p r0));;
        liftW (enqueueSync c (manualImmediate w p r1));;
        liftW (enqueueSync c (manualImmediate w p r2));;
        liftW (log (LogNewReplicaSet userId w currentReplicaSet [r0; r1; r2]));;
        mret (Some ids)
    | [_] =>
        let ids := [spIdOf c p; spIdOf c r0; spIdOf c r1] in
        assign ENQUEUE_SYNCS;;
        liftW (enqueueSync c (manualImmediate w p r0));;
        liftW (enqueueSync c (manualImmediate w p r1));;
        liftW (log (LogNewReplicaSet userId w currentReplicaSet [p; r0; r1]));;
        mret (Some ids)
    | [h0; h1] =>
        assign FETCH_CLOCK_VALUES;;
        clockResponses ← await (getClockValuesFromReplicaSet c);
        let endpointToClockMap := buildEndpointToClockMap clockResponses in
        let '(newPrimary, newSecondary) :=
          if js_ge (endpointToClockMap !! prop_key h0) (endpointToClockMap !! prop_key h1)
          then (h0, h1) else (h1, h0) in
        let ids := [spIdOf c newPrimary; spIdOf c newSecondary; spIdOf c r0] in
        assign ENQUEUE_SYNCS;;
        liftW (enqueueSync c (manualImmediate w newPrimary newSecondary));;
        liftW (enqueueSync c (manualImmediate w newPrimary r0));;
        liftW (log (LogNewReplicaSet userId w currentReplicaSet [newPrimary; newSecondary; r0]));;
        mret (Some ids)
    | _ => mret None
    end;
  assign UPDATE_URSM_REPLICA_SET;;
  match newReplicaSetSPIds with
  | None => throw "TypeError: Cannot read property '0' of undefined"
  | Some ids =>
      let newPrimaryId := mjoin (ids !! 0%nat) in
      let newSecondaryIds := drop 1 ids in
      await (updateReplicaSet c userId newPrimaryId newSecondaryIds);;
      liftW (modify (λ w, set_ursm (ursm w ++ [{| upd_userId := userId;
                                                upd_primary := newPrimaryId;
                                                upd_secondaries := newSecondaryIds |}]) w))
  end.

(** The whole method: the entry log line, the [try] block, and the empty
    [catch (e) { }]. *)
Definition issueUpdateReplicaSetOp (c : Collaborators) (userId : Z) (w : string)
    (p s1 s2 : Endpoint) (unhealthyReplicas : list Endpoint) : Async World unit :=
  log (LogIssueUpdateReplicaSetOp userId w unhealthyReplicas);;
  withLocal NO_PHASE
    (tryCatch (issueUpdateReplicaSetOp_try c userId w p s1 s2 unhealthyReplicas)
              (λ _, mret tt)).

(** ** Clock maps *)

(** [getUserPrimaryClockValues(wallets)]: the rows of the database as a map
    wallet => clock. *)
Definition getUserPrimaryClockValues (c : Collaborators) (wallets : list string)
  : Outcome (gmap string Z) :=
  match findCNodeUsers c wallets with
  | Throws e => Throws e
  | Returns cnodeUsers =>
      Returns (foldl (λ o k, <[fst k := snd k]> o) ∅ cnodeUsers)
  end.

(** [buildSecondaryNodesToUserWalletsMap(potentialSyncRequests)] *)
Definition buildSecondaryNodesToUserWalletsMap (potentialSyncRequests : list PotentialSyncRequest)
  : gmap string (list string) :=
  foldl (λ (m : gmap string (list string)) userInfo,
           let secondary := prop_key (psr_endpoint userInfo) in
           <[secondary := (default [] (m !! secondary) ++ [wallet (psr_user userInfo)])%list]> m)
        ∅ potentialSyncRequests.

(** One request per secondary; the first failing request rejects the
    [Promise.all].  The requests are taken in the order in which the map
    enumerates its keys. *)
Fixpoint retrieveClockStatuses (c : Collaborators) (nodes : list (string * list string))
    (acc : gmap string (gmap string Z)) : Outcome (gmap string (gmap string Z)) :=
  match nodes with
  | [] => Returns acc
  | (secondaryNode, secondaryNodeUserWallets) :: rest =>
      match batchClockStatus c secondaryNode secondaryNodeUserWallets with
      | Throws e => Throws e
      | Returns userClockValuesResp =>
          retrieveClockStatuses c rest
            (<[secondaryNode := foldl (λ m r, <[fst r := snd r]> m) ∅ userClockValuesResp]> acc)
      end
  end.

(** [retrieveClockStatusesForSecondaryUsersFromNodes(secondaryNodesToUserWalletsMap)] *)
Definition retrieveClockStatusesForSecondaryUsersFromNodes (c : Collaborators)
    (secondaryNodesToUserWalletsMap : gmap string (list string))
  : Outcome (gmap string (gmap string Z)) :=
  retrieveClockStatuses c (map_to_list secondaryNodesToUserWalletsMap) ∅.

(** ** issueSyncRequests *)

Record SyncRequestsResp := {
  numSyncRequestsRequired : Z;
  numSyncRequestsIssued : Z;
  syncRequestErrors : list (PotentialSyncRequest * string)
}.

(** [!userSecondaryClockVal || (userPrimaryClockVal > userSecondaryClockVal)] *)
Definition syncRequired (userPrimaryClockVal userSecondaryClockVal : ClockVal) : bool :=
  js_not userSecondaryClockVal || js_gt userPrimaryClockVal userSecondaryClockVal.

Definition recurringSync (c : Collaborators) (w : string) (secondary : Endpoint)
  : EnqueueSyncArgs :=
  {| userWallet := w; primaryEndpoint := Some (endpoint c); secondaryEndpoint := secondary;
     syncType := Recurring; immediate := false |}.

(** The callbacks of [userReplicaSets.map(async (user) => ...)] all run up
    to their first suspension before any of them resumes: each reads the
    clocks, counts the sync as required and calls [enqueueSync], which stops
    at [await queue.add].  The state is the world, the three counters, and
    the callbacks that are suspended. *)
Definition issueSyncRequest_start (c : Collaborators)
    (userPrimaryClockValues : gmap string Z)
    (secondaryNodesToUserClockStatusesMap : gmap string (gmap string Z))
    (st : World * SyncRequestsResp * list (PotentialSyncRequest * EnqueueAwait))
    (user : PotentialSyncRequest)
  : World * SyncRequestsResp * list (PotentialSyncRequest * EnqueueAwait) :=
  let '(w, resp, suspended) := st in
  let userWallet := wallet (psr_user user) in
  let secondary := psr_endpoint user in
  match secondaryNodesToUserClockStatusesMap !! prop_key secondary with
  | None =>
      (w,
       {| numSyncRequestsRequired := numSyncRequestsRequired resp;
          numSyncRequestsIssued := numSyncRequestsIssued resp;
          syncRequestErrors := syncRequestErrors resp
            ++ [(user, "Cannot read property of undefined")] |},
       suspended)
  | Some clocks =>
      if syncRequired (userPrimaryClockValues !! userWallet) (clocks !! userWallet) then
        let '(s, w') := enqueueSync_start c (recurringSync c userWallet secondary) w in
        (w',
         {| numSyncRequestsRequired := numSyncRequestsRequired resp + 1;
            numSyncRequestsIssued := numSyncRequestsIssued resp;
            syncRequestErrors := syncRequestErrors resp |},
         suspended ++ [(user, s)])
      else st
  end.

(** A suspended callback resumes: [enqueueSync] finishes, and the sync is
    counted as issued, or its error is collected. *)
Definition issueSyncRequest_resume (st : World * SyncRequestsResp)
    (s : PotentialSyncRequest * EnqueueAwait) : World * SyncRequestsResp :=
  let '(w, resp) := st in
  match enqueueSync_resume (snd s) w with
  | (Returns _, w') =>
      (w', {| numSyncRequestsRequired := numSyncRequestsRequired resp;
              numSyncRequestsIssued := numSyncRequestsIssued resp + 1;
              syncRequestErrors := syncRequestErrors resp |})
  | (Throws e, w') =>
      (w', {| numSyncRequestsRequired := numSyncRequestsRequired resp;
              numSyncRequestsIssued := numSyncRequestsIssued resp;
              syncRequestErrors := syncRequestErrors resp ++ [(fst s, e)] |})
  end.

(** [await Promise.all(userReplicaSets.map(async (user) => { ... }))] *)
Definition issueSyncRequests_all (c : Collaborators)
    (userPrimaryClockValues : gmap string Z)
    (secondaryNodesToUserClockStatusesMap : gmap string (gmap string Z))
    (userReplicaSets : list PotentialSyncRequest) : Async World SyncRequestsResp :=
  λ w,
    let resp0 := {| numSyncRequestsRequired := 0; numSyncRequestsIssued := 0;
                    syncRequestErrors := [] |} in
    let '(w1, resp1, suspended) :=
      foldl (issueSyncRequest_start c userPrimaryClockValues secondaryNodesToUserClockStatusesMap)
            (w, resp0, []) userReplicaSets in
    let '(w2, resp2) := foldl issueSyncRequest_resume (w1, resp1) suspended in
    (Returns resp2, w2).

Definition issueSyncRequests (c : Collaborators) (userReplicaSets : list PotentialSyncRequest)
    (secondaryNodesToUserClockStatusesMap : gmap string (gmap string Z))
  : Async World SyncRequestsResp :=
  let userWallets := (λ user, wallet (psr_user user)) <$> userReplicaSets in
  userPrimaryClockValues ← await (getUserPrimaryClockValues c userWallets);
  issueSyncRequests_all c userPrimaryClockValues secondaryNodesToUserClockStatusesMap
    userReplicaSets.

(** ** processStateMachineOperation *)

(** The variables declared with [let] in the method and read back by its
    handlers: the decision tree and the response of [issueSyncRequests]. *)
Record Locals := {
  decisionTree : list Stage;
  syncResp : option SyncRequestsResp
}.

(** [decisionTree.push(stage)] *)
Definition push (s : Stage) : Async (World * Locals) unit :=
  modify (λ st, (fst st, {| decisionTree := decisionTree (snd st) ++ [s];
                            syncResp := syncResp (snd st) |})).

Definition setSyncResp (r : SyncRequestsResp) : Async (World * Locals) unit :=
  modify (λ st, (fst st, {| decisionTree := decisionTree (snd st);
                            syncResp := Some r |})).

(** [for (const x of l) { await f(x) }] *)
Fixpoint forEach {St A} (l : list A) (f : A → Async St unit) : Async St unit :=
  match l with
  | [] => mret tt
  | x :: rest => f x;; forEach rest f
  end.

(** [sliceUsers(nodeUsers)]: [user_id % ModuloBase === currentModuloSlice]. *)
Definition sliceUsers (slice : Z) (nodeUsers : list NodeUser) : list NodeUser :=
  filter (λ nodeUser, Z.rem (user_id nodeUser) ModuloBase = slice) nodeUsers.

(** [unhealthyPeers.has(replica)] *)
Definition unhealthyPeersHas (unhealthyPeers : gset string) (replica : Endpoint) : bool :=
  match replica with
  | Some s => bool_decide (s ∈ unhealthyPeers)
  | None => false
  end.

(** One round of the planning loop over [nodeUsers]. *)
Definition planNodeUser (c : Collaborators) (unhealthyPeers : gset string)
    (acc : list UpdateReplicaSetOp * list PotentialSyncRequest) (nodeUser : NodeUser)
  : list UpdateReplicaSetOp * list PotentialSyncRequest :=
  let '(requiredUpdateReplicaSetOps, potentialSyncRequests) := acc in
  if decide (primary nodeUser = Some (endpoint c)) then
    let secondaries := filter truthy [secondary1 nodeUser; secondary2 nodeUser] in
    let '(unhealthyReplicas, potentialSyncRequests') :=
      foldl (λ '(unhealthyReplicas, potential) secondary,
               if unhealthyPeersHas unhealthyPeers secondary
               then (unhealthyReplicas ++ [secondary], potential)
               else (unhealthyReplicas,
                     potential ++ [{| psr_user := nodeUser; psr_endpoint := secondary |}]))
            ([], potentialSyncRequests) secondaries in
    (requiredUpdateReplicaSetOps
       ++ [{| op_user := nodeUser; op_unhealthyReplicas := unhealthyReplicas |}],
     potentialSyncRequests')
  else
    let replicas := filter truthy [primary nodeUser; secondary1 nodeUser; secondary2 nodeUser] in
    let replicas := filter (λ replica, replica ≠ Some (endpoint c)) replicas in
    let unhealthyReplicas := filter (unhealthyPeersHas unhealthyPeers) replicas in
    (requiredUpdateReplicaSetOps
       ++ [{| op_user := nodeUser; op_unhealthyReplicas := unhealthyReplicas |}],
     potentialSyncRequests).

Definition len {A} (l : list A) : Z := Z.of_nat (length l).

(** The five inner [try]/[catch] blocks of the method, one per stage of
    the decision tree.  Each handler records the stage and rethrows. *)

Definition getNodeUsersStage (c : Collaborators) : Async (World * Locals) (list NodeUser) :=
  tryCatch
    (nodeUsers ← await (getNodeUsers c);
     slice ← gets (λ st, currentModuloSlice (fst st));
     let nodeUsers := sliceUsers slice nodeUsers in
     push (StageOk "getNodeUsers() and sliceUsers() Success" [len nodeUsers]);;
     mret nodeUsers)
    (λ e,
       push (StageError "getNodeUsers() or sliceUsers() Error" e);;
       throw ("processStateMachineOperation():getNodeUsers()/sliceUsers() Error: Error: " +:+ e)).

Definition getUnhealthyPeersStage (c : Collaborators) (nodeUsers : list NodeUser)
  : Async (World * Locals) (gset string) :=
  tryCatch
    (unhealthyPeers ← await (getUnhealthyPeers c nodeUsers);
     push (StageOk "getUnhealthyPeers() Success" [Z.of_nat (size unhealthyPeers)]);;
     mret unhealthyPeers)
    (λ e,
       push (StageError "processStateMachineOperation():getUnhealthyPeers() Error" e);;
       throw ("processStateMachineOperation():getUnhealthyPeers() Error: Error: " +:+ e)).

Definition retrieveClockStatusesStage (c : Collaborators)
    (secondaryNodesToUserWalletsMap : gmap string (list string))
  : Async (World * Locals) (gmap string (gmap string Z)) :=
  tryCatch
    (m ← await (retrieveClockStatusesForSecondaryUsersFromNodes c
                  secondaryNodesToUserWalletsMap);
     push (StageOk "retrieveClockStatusesForSecondaryUsersFromNodes() Success" []);;
     mret m)
    (λ e,
       push (StageError "retrieveClockStatusesForSecondaryUsersFromNodes() Error" e);;
       throw "processStateMachineOperation():retrieveClockStatusesForSecondaryUsersFromNodes() Error").

Definition issueSyncRequestsStage (c : Collaborators)
    (potentialSyncRequests : list PotentialSyncRequest)
    (secondaryNodesToUserClockStatusesMap : gmap string (gmap string Z))
  : Async (World * Locals) SyncRequestsResp :=
  tryCatch
    (resp ← liftW (issueSyncRequests c potentialSyncRequests
                     secondaryNodesToUserClockStatusesMap);
     setSyncResp resp;;
     (if bool_decide (len (syncRequestErrors resp) > numSyncRequestsIssued resp)
      then throw ""
      else mret tt);;
     push (StageOk "issueSyncRequests() Success"
             [numSyncRequestsRequired resp; numSyncRequestsIssued resp;
              len (syncRequestErrors resp)]);;
     mret resp)
    (λ e,
       r ← gets (λ st, syncResp (snd st));
       push (StageSyncError (numSyncRequestsRequired <$> r) (numSyncRequestsIssued <$> r)
               ((λ r, len (syncRequestErrors r)) <$> r));;
       throw "processStateMachineOperation():issueSyncRequests() Error").

Definition issueUpdateReplicaSetOpStage (c : Collaborators)
    (requiredUpdateReplicaSetOps : list UpdateReplicaSetOp) : Async (World * Locals) Z :=
  tryCatch
    (forEach requiredUpdateReplicaSetOps
       (λ userInfo,
          let u := op_user userInfo in
          liftW (issueUpdateReplicaSetOp c (user_id u) (wallet u) (primary u)
                   (secondary1 u) (secondary2 u) (op_unhealthyReplicas userInfo)));;
     let numUpdateReplicaOpsIssued := len requiredUpdateReplicaSetOps in
     push (StageOk "issueUpdateReplicaSetOp() Success" [numUpdateReplicaOpsIssued]);;
     mret numUpdateReplicaOpsIssued)
    (λ e,
       push (StageError "issueUpdateReplicaSetOp() Error" e);;
       throw "processStateMachineOperation():issueUpdateReplicaSetOp() Error").

(** The planning loop and the two stages that only build a value. *)
Definition planStage (c : Collaborators) (nodeUsers : list NodeUser)
    (unhealthyPeers : gset string)
  : Async (World * Locals) (list UpdateReplicaSetOp * list PotentialSyncRequest
                            * gmap string (list string)) :=
  let '(requiredUpdateReplicaSetOps, potentialSyncRequests) :=
    foldl (planNodeUser c unhealthyPeers) ([], []) nodeUsers in
  push (StageOk "Build requiredUpdateReplicaSetOps and potentialSyncRequests arrays"
          [len requiredUpdateReplicaSetOps; len potentialSyncRequests]);;
  let secondaryNodesToUserWalletsMap :=
    buildSecondaryNodesToUserWalletsMap potentialSyncRequests in
  push (StageOk "buildSecondaryNodesToUserWalletsMap() Success"
          [Z.of_nat (size secondaryNodesToUserWalletsMap)]);;
  mret (requiredUpdateReplicaSetOps, potentialSyncRequests, secondaryNodesToUserWalletsMap).

(** The end of the [try] block: increment the slice and reduce it modulo
    [ModuloBase]. *)
Definition advanceSlice (numSyncRequestsIssued numUpdateReplicaOpsIssued : Z)
  : Async (World * Locals) unit :=
  previousModuloSlice ← gets (λ st, currentModuloSlice (fst st));
  liftW (modify (λ w, set_slice (currentModuloSlice w + 1) w));;
  liftW (modify (λ w, set_slice (Z.rem (currentModuloSlice w) ModuloBase) w));;
  nextModuloSlice ← gets (λ st, currentModuloSlice (fst st));
  push (StageEnd previousModuloSlice nextModuloSlice
          numSyncRequestsIssued numUpdateReplicaOpsIssued).

(** The body of the outer [try] block. *)
Definition processStateMachineOperation_try (c : Collaborators) : Async (World * Locals) unit :=
  nodeUsers ← getNodeUsersStage c;
  unhealthyPeers ← getUnhealthyPeersStage c nodeUsers;
  plan ← planStage c nodeUsers unhealthyPeers;
  let '(requiredUpdateReplicaSetOps, potentialSyncRequests, secondaryNodesToUserWalletsMap) :=
    plan in
  secondaryNodesToUserClockStatusesMap ←
    retrieveClockStatusesStage c secondaryNodesToUserWalletsMap;
  resp ← issueSyncRequestsStage c potentialSyncRequests secondaryNodesToUserClockStatusesMap;
  numUpdateReplicaOpsIssued ← issueUpdateReplicaSetOpStage c requiredUpdateReplicaSetOps;
  advanceSlice (numSyncRequestsIssued resp) numUpdateReplicaOpsIssued.

(** The method: the tree is opened with the BEGIN stage, an exception of the
    body is recorded in it and not rethrown, and the [finally] block logs
    the tree. *)
Definition processStateMachineOperation (c : Collaborators) : Async World unit :=
  slice ← gets currentModuloSlice;
  withLocal {| decisionTree := [StageBegin slice]; syncResp := None |}
    (tryCatch (processStateMachineOperation_try c)
              (λ e, push (StageError "processStateMachineOperation Error" e));;
     tree ← gets (λ st, decisionTree (snd st));
     liftW (log (LogDecisionTree tree))).

(** ** additionalSyncIsRequired *)

(** One round of the monitoring loop, between the test of the deadline and
    the retry delay: the clock request, its log line and the decision.
    [Some b] is a [break] with [additionalSyncRequired = b]; [None] goes on
    to the delay.  [now] is [Date.now()] when the response has arrived. *)
Definition monitorRound (c : Collaborators) (userWallet : string)
    (primaryClockValue : ClockVal) (secondaryUrl : Endpoint)
    (startTimeMs now : Z) (n : nat) : option bool * list LogEntry :=
  match clockStatus c secondaryUrl userWallet n with
  | Returns secondaryClockValue =>
      let seen := LogSecondaryClock userWallet secondaryUrl secondaryClockValue in
      if js_lt (Some (secondaryClockValue + maxExportClockValueRange c)) primaryClockValue then
        (Some true,
         [seen; LogMaxExportExceeded userWallet secondaryUrl secondaryClockValue])
      else if js_ge (Some secondaryClockValue) primaryClockValue then
        (Some false,
         [seen; LogSyncCompleted userWallet secondaryUrl secondaryClockValue
                  (now - startTimeMs)])
      else (None, [seen])
  | Throws e => (None, [LogMonitorError userWallet secondaryUrl e])
  end.

(** [while (Date.now() < endTimeMs) { ... }], entered at time [now] for its
    round number [n], with the lines logged so far.  Returns
    [additionalSyncRequired], the log lines and the time of exit. *)
Equations? monitorLoop (c : Collaborators) (userWallet : string)
    (primaryClockValue : ClockVal) (secondaryUrl : Endpoint)
    (startTimeMs endTimeMs now : Z) (n : nat) (logged : list LogEntry)
  : bool * list LogEntry * Z by wf (Z.to_nat (endTimeMs - now)) lt :=
  monitorLoop c userWallet primaryClockValue secondaryUrl startTimeMs endTimeMs now n logged
    with decide (now < endTimeMs) => {
    | right _ => (true, logged, now)
    | left _
        with monitorRound c userWallet primaryClockValue secondaryUrl startTimeMs
               (now + Z.of_N (latency c n)) n => {
        | (Some b, lines) => (b, logged ++ lines, now + Z.of_N (latency c n))
        | (None, lines) =>
            monitorLoop c userWallet primaryClockValue secondaryUrl startTimeMs endTimeMs
              (now + Z.of_N (latency c n) + SyncMonitoringRetryDelayMs + Z.of_N (timerLag c n))
              (S n) (logged ++ lines) } }.
Proof. unfold SyncMonitoringRetryDelayMs. lia. Qed.

(** The method, called at time [startTimeMs]. *)
Definition additionalSyncIsRequired (c : Collaborators) (userWallet : string)
    (primaryClockValue : ClockVal) (secondaryUrl : Endpoint) (syncType : SyncType)
    (startTimeMs : Z) : bool * list LogEntry * Z :=
  let endTimeMs := startTimeMs + MaxSyncMonitoringDurationInMs in
  monitorLoop c userWallet primaryClockValue secondaryUrl startTimeMs endTimeMs
    startTimeMs 0 [].

(** ** processSyncOperation *)

(** [processSyncOperation(job, syncType)].  The four [in] tests on
    [syncRequestParameters] hold of every value of the record type, so the
    early return on invalid job data has no counterpart here. *)
Definition processSyncOperation (c : Collaborators) (job : Job) (t : SyncType)
  : Async World unit :=
  let id := job_id job in
  let syncRequestParameters := syncRequestParameters (job_data job) in
  let userWallet := default "undefined" (head (srd_wallet (data syncRequestParameters))) in
  let secondaryEndpoint := baseURL syncRequestParameters in
  modify (λ w, set_dedup
            (SyncDeDuplicator.removeSync t userWallet secondaryEndpoint (syncDeDuplicator w)) w);;
  clocks ← await (getUserPrimaryClockValues c [userWallet]);
  let primaryClockValue := clocks !! userWallet in
  log (LogProcessSync userWallet secondaryEndpoint primaryClockValue t id);;
  await (postSync c syncRequestParameters);;
  startTimeMs ← gets dateNow;
  let '(additionalSyncRequired, lines, finished) :=
    additionalSyncIsRequired c userWallet primaryClockValue secondaryEndpoint t startTimeMs in
  modify (λ w, set_dateNow finished (set_logs (logs w ++ lines) w));;
  (if additionalSyncRequired
   then enqueueSync c {| userWallet := userWallet;
                         primaryEndpoint := Some (endpoint c);
                         secondaryEndpoint := secondaryEndpoint;
                         syncType := t;
                         immediate := false |};; mret tt
   else mret tt);;
  log (LogEndProcessSync id).

(** A worker of the queue of type [t] takes the oldest waiting job: Bull
    moves it to the active list, the processor runs [processSyncOperation]
    inside its [try]/[catch], and [done()] retires the job. *)
Definition processNextJob (c : Collaborators) (t : SyncType) : Async World unit :=
  q ← gets (queueOf t);
  match waiting q with
  | [] => mret tt
  | job :: rest =>
      modify (set_queueOf t {| counter := counter q; waiting := rest;
                               active := active q ++ [job] |});;
      tryCatch (processSyncOperation c job t) (λ e, log (LogQueueError t e));;
      modify (λ w, let q := queueOf t w in
                   set_queueOf t {| counter := counter q; waiting := waiting q;
                                    active := filter (λ j, job_id j ≠ job_id job) (active q) |} w)
  end.

(** ** Observations on a world *)

Abbreviation sliceOf := (λ st : World * Locals, currentModuloSlice st.1).

(** The locals of [processStateMachineOperation] on entry. *)
Definition entryLocals (w : World) : Locals :=
  {| decisionTree := [StageBegin (currentModuloSlice w)]; syncResp := None |}.

(** The fingerprint under which the worker of the queue of type [t] erases
    a job from the de-duplicator. *)
Definition jobFingerprint (t : SyncType) (job : Job) : SyncType * string * option string :=
  let params := syncRequestParameters (job_data job) in
  (t, default "undefined" (head (srd_wallet (data params))), baseURL params).

(** Number of pending (waiting) jobs with a given fingerprint, over both
    queues. *)
Definition pendingCount (fp : SyncType * string * option string) (w : World) : nat :=
  length (filter (λ job, jobFingerprint Manual job = fp) (waiting (manualSyncQueue w)))
  + length (filter (λ job, jobFingerprint Recurring job = fp) (waiting (recurringSyncQueue w))).

(** The job that [enqueueSync] builds for its arguments, with a given id
    and start time. *)
Definition syncJob (id : Z) (a : EnqueueSyncArgs) (now : Z) : Job :=
  {| job_id := id;
     job_data := {| syncRequestParameters :=
                      {| baseURL := secondaryEndpoint a;
                         url := "/sync";
                         method := "post";
                         data := {| srd_wallet := [userWallet a];
                                    creator_node_endpoint := primaryEndpoint a;
                                    sync_type := syncType a;
                                    srd_immediate := immediate a |} |};
                    startTime := now |} |}.

(** What the sync subsystem reads and writes: both queues, the
    de-duplicator and the clock. *)
Definition syncState (w : World) :=
  (manualSyncQueue w, recurringSyncQueue w, syncDeDuplicator w, dateNow w).

(** The registry write for the replica set [new1, new2, new3]. *)
Definition replicaSetUpdate (c : Collaborators) (userId : Z) (new1 new2 new3 : option string)
  : ReplicaSetUpdate :=
  {| upd_userId := userId; upd_primary := spIdOf c new1;
     upd_secondaries := [spIdOf c new2; spIdOf c new3] |}.

(** The time at which round [n] of a monitoring run called at
    [startTimeMs] tests the deadline, when every earlier round went on to
    its retry delay: each of them took the latency of its request, the
    delay, and the lag of the timer. *)
Fixpoint roundStart (c : Collaborators) (startTimeMs : Z) (n : nat) : Z :=
  match n with
  | O => startTimeMs
  | S m => roundStart c startTimeMs m + Z.of_N (latency c m)
           + SyncMonitoringRetryDelayMs + Z.of_N (timerLag c m)
  end.

(** Poll [n] is made: its round starts before the deadline, and every
    earlier poll failed or reported a clock that neither exceeded the
    export range nor had caught up with [P]. *)
Definition polled (c : Collaborators) (userWallet : string) (P : Z)
    (secondaryUrl : Endpoint) (startTimeMs : Z) (n : nat) : Prop :=
  (roundStart c startTimeMs n < startTimeMs + MaxSyncMonitoringDurationInMs)%Z
  ∧ ∀ m k, (m < n)%nat → clockStatus c secondaryUrl userWallet m = Returns k →
           (P - maxExportClockValueRange c ≤ k < P)%Z.

(** What a monitoring run does from round [n] on, entered on schedule:
    its answer, its log and its time of exit in terms of the polls made. *)
Definition fromRound (c : Collaborators) (wl : string) (P : Z) (sec : Endpoint)
    (startTimeMs : Z) (n : nat) (result : bool * list LogEntry * Z) : Prop :=
  (result.1.1 = false
   ↔ ∃ j k, (n ≤ j)%nat ∧ polled c wl P sec startTimeMs j
            ∧ clockStatus c sec wl j = Returns k ∧ (P ≤ k)%Z)
  ∧ (∀ j k, (n ≤ j)%nat → polled c wl P sec startTimeMs j →
            clockStatus c sec wl j = Returns k →
            (k + maxExportClockValueRange c < P)%Z →
            result.1.1 = true
            ∧ result.2 = (roundStart c startTimeMs j + Z.of_N (latency c j))%Z
            ∧ ∃ before, result.1.2 = before ++ [LogSecondaryClock wl sec k;
                                                LogMaxExportExceeded wl sec k])
  ∧ ((∀ j k, (n ≤ j)%nat → polled c wl P sec startTimeMs j →
             clockStatus c sec wl j = Returns k →
             (P - maxExportClockValueRange c ≤ k < P)%Z) →
     result.1.1 = true ∧ (startTimeMs + MaxSyncMonitoringDurationInMs ≤ result.2)%Z)
  ∧ (∀ j, (n ≤ j)%nat → polled c wl P sec startTimeMs j →
          match clockStatus c sec wl j with
          | Returns k => LogSecondaryClock wl sec k ∈ result.1.2
          | Throws e => LogMonitorError wl sec e ∈ result.1.2
          end).

(** ** Frame and invariant predicates on computations *)

(** The computation leaves the component [f] of the state as it found it,
    whether it returns or throws. *)
Definition preserves {St A B} (f : St → B) (m : Async St A) : Prop :=
  ∀ s, f (m s).2 = f s.

(** The computation keeps the invariant [I], whether it returns or throws. *)
Definition maintains {St A} (I : St → Prop) (m : Async St A) : Prop :=
  ∀ s, I s → I (m s).2.

(** Every pending job is indexed in the de-duplicator under its own
    fingerprint, and no two pending jobs of a queue share a fingerprint. *)
Definition indexed (w : World) : Prop :=
  ∀ t, NoDup (jobFingerprint t <$> waiting (queueOf t w))
       ∧ ∀ job, job ∈ waiting (queueOf t w) →
                syncDeDuplicator w !! jobFingerprint t job = Some job.

(** The worlds reached from an initialised instance by calls that run one
    after the other, none overlapping another. *)
Inductive sequentially (c : Collaborators) : World → Prop :=
| after_init w :
    waiting (manualSyncQueue w) = [] →
    waiting (recurringSyncQueue w) = [] →
    sequentially c w
| after_enqueueSync a w :
    sequentially c w → sequentially c (enqueueSync c a w).2
| after_processNextJob t w :
    sequentially c w → sequentially c (processNextJob c t w).2
| after_issueUpdateReplicaSetOp userId wl p s1 s2 unhealthy w :
    sequentially c w →
    sequentially c (issueUpdateReplicaSetOp c userId wl p s1 s2 unhealthy w).2.

(** ** Concrete nodes and worlds *)

Module Scenario.

Definition self : string := "https://cn1.audius.co".
Definition cn2 : string := "https://cn2.audius.co".
Definition cn3 : string := "https://cn3.audius.co".
Definition cn4 : string := "https://cn4.audius.co".
Definition cn5 : string := "https://cn5.audius.co".
Definition cn6 : string := "https://cn6.audius.co".

(** A world with nothing queued, at slice 5. *)
Definition idle : World :=
  {| currentModuloSlice := 5;
     manualSyncQueue := emptyQueue;
     recurringSyncQueue := emptyQueue;
     syncDeDuplicator := ∅;
     ursm := [];
     logs := [];
     dateNow := 1600000000000 |}.

(** A user whose primary is this node, with both secondaries set. *)
Definition user (id : Z) (w : string) : NodeUser :=
  {| user_id := id; wallet := w; primary := Some self;
     secondary1 := Some cn2; secondary2 := Some cn3 |}.

Definition freshNodes : RandomReplicaSet :=
  {| rrs_primary := Some cn4; rrs_secondaries := [Some cn5; Some cn6] |}.

(** A node given the answer of discovery, the peers that fail the health
    check, the clocks in the local database, the clocks every secondary
    reports, the answer of the selection, the clocks of the replica set,
    whether the broker is up, and the samples a monitoring run sees. *)
Definition node (users : Outcome (list NodeUser)) (sick : list string)
    (localClocks remoteClocks : list (string * Z))
    (selection : Outcome RandomReplicaSet) (replicaClocks : Outcome (list ClockResponse))
    (brokerUp : bool) (range : Z) (samples : nat → Outcome Z) : Collaborators :=
  {| endpoint := self;
     endpointToSPIdMap :=
       list_to_map [(self, 1); (cn2, 2); (cn3, 3); (cn4, 4); (cn5, 5); (cn6, 6)];
     maxExportClockValueRange := range;
     getNodeUsers := users;
     getUnhealthyPeers := λ _, Returns (list_to_set sick);
     batchClockStatus := λ _ wallets,
       Returns (filter (λ r, r.1 ∈ wallets) remoteClocks);
     findCNodeUsers := λ wallets,
       Returns (filter (λ r, r.1 ∈ wallets) localClocks);
     autoSelectCreatorNodes := λ _, selection;
     getClockValuesFromReplicaSet := replicaClocks;
     updateReplicaSet := λ _ _ _, Returns tt;
     brokerAccepts := λ _ _, brokerUp;
     postSync := λ _, Returns tt;
     clockStatus := λ _ _, samples;
     latency := λ _, 40%N;
     timerLag := λ _, 2%N |}.

(** Discovery is down. *)
Definition blind : Collaborators :=
  node (Throws "ECONNREFUSED") [] [] [] (Returns freshNodes) (Returns []) true 10000
       (λ _, Returns 0).

(** One user of slice 5 whose clock is [p] here and [s] on both
    secondaries; everything healthy. *)
Definition steady (p s : Z) : Collaborators :=
  node (Returns [user 5 "0xabc"]) [] [("0xabc", p)] [("0xabc", s)]
       (Returns freshNodes) (Returns []) true 10000 (λ _, Returns s).

(** The selection collaborator finds no candidate. *)
Definition stranded : Collaborators :=
  node (Returns [user 5 "0xabc"]) [cn2] [("0xabc", 10)] [("0xabc", 10)]
       (Throws "Not enough healthy content nodes") (Returns []) true 10000
       (λ _, Returns 10).

(** The queue broker is down. *)
Definition brokerDown : Collaborators :=
  node (Returns [user 5 "0xabc"]) [] [("0xabc", 10)] [("0xabc", 5)]
       (Returns freshNodes) (Returns []) false 10000 (λ _, Returns 5).

(** The sync request of the user above towards [cn2]. *)
Definition toCn2 : PotentialSyncRequest :=
  {| psr_user := user 5 "0xabc"; psr_endpoint := Some cn2 |}.

(** A user for whom this node is the first secondary. *)
Definition guest : NodeUser :=
  {| user_id := 5; wallet := "0xdef"; primary := Some cn2;
     secondary1 := Some self; secondary2 := Some cn3 |}.

(** The guest's primary [cn2] and other secondary [cn3] are both down. *)
Definition lonely : Collaborators :=
  node (Returns [guest]) [cn2; cn3] [("0xdef", 7)] [] (Returns freshNodes) (Returns [])
       true 10000 (λ _, Returns 7).

(** The clocks of the guest's replica set, as the libs client reports
    them. *)
Definition guestClocks : list ClockResponse :=
  [ {| cr_endpoint := cn2; cr_clockValue := 12 |};
    {| cr_endpoint := self; cr_clockValue := 7 |};
    {| cr_endpoint := cn3; cr_clockValue := 9 |} ].

(** The guest's primary [cn2] is down; this node has clock 7 and the
    other secondary [cn3] clock 9. *)
Definition orphaned : Collaborators :=
  node (Returns [guest]) [cn2] [("0xdef", 7)] [] (Returns freshNodes)
       (Returns guestClocks) true 10000 (λ _, Returns 7).

(** The clock map in which [cn2] reports clock [k] for the user. *)
Definition cn2Reports (k : Z) : gmap string (gmap string Z) :=
  {[cn2 := {["0xabc" := k]}]}.

(** A user whose two secondaries are the same node, behind by 5. *)
Definition doubled : Collaborators :=
  node (Returns [{| user_id := 5; wallet := "0xabc"; primary := Some self;
                    secondary1 := Some cn2; secondary2 := Some cn2 |}])
       [] [("0xabc", 10)] [("0xabc", 5)] (Returns freshNodes) (Returns []) true 10000
       (λ _, Returns 5).

(** A monitoring run: two transport errors, then clock 9, then clock 10. *)
Definition catchingUp : Collaborators :=
  node (Returns [user 5 "0xabc"]) [] [("0xabc", 10)] [("0xabc", 5)]
       (Returns freshNodes) (Returns []) true 10000
       (λ n, match n with
             | 0%nat | 1%nat => Throws "ETIMEDOUT"
             | 2%nat => Returns 9
             | _ => Returns 10
             end).

(** The clock map in which [cn2] has reported no clock at all. *)
Definition cn2Silent : gmap string (gmap string Z) := {[cn2 := ∅]}.

End Scenario.

(** ** Further observations *)

(** A line that stands for one clock request of a monitoring run: the
    clock it returned, or its transport error. *)
Definition isClockRequest (line : LogEntry) : bool :=
  match line with
  | LogSecondaryClock _ _ _ | LogMonitorError _ _ _ => true
  | _ => false
  end.

(** Number of clock requests a monitoring run has logged. *)
Definition clockRequests (lines : list LogEntry) : nat :=
  length (filter isClockRequest lines).

(** The planning loop of an iteration over the users of the slice: the
    reconfiguration checks and the potential sync requests it builds. *)
Definition planNodeUsers (c : Collaborators) (unhealthyPeers : gset string)
    (nodeUsers : list NodeUser) : list UpdateReplicaSetOp * list PotentialSyncRequest :=
  foldl (planNodeUser c unhealthyPeers) ([], []) nodeUsers.

(** The test a callback of [issueSyncRequests] makes before it enqueues:
    the secondary has an entry in the clock map, and [syncRequired] holds
    of the two clocks of the user. *)
Definition needsSync (userPrimaryClockValues : gmap string Z)
    (secondaryNodesToUserClockStatusesMap : gmap string (gmap string Z))
    (user : PotentialSyncRequest) : bool :=
  match secondaryNodesToUserClockStatusesMap !! prop_key (psr_endpoint user) with
  | Some clocks =>
      syncRequired (userPrimaryClockValues !! wallet (psr_user user))
        (clocks !! wallet (psr_user user))
  | None => false
  end.

(** The potential sync requests whose secondary has no entry in the
    clock map. *)
Abbreviation missingClocks m users :=
  (filter (λ u : PotentialSyncRequest,
             (m : gmap string (gmap string Z)) !! prop_key (psr_endpoint u) = None) users).

(** A suspended call that will not throw when it resumes. *)
Definition settles (s : EnqueueAwait) : Prop :=
  match s with
  | Settled _ => True
  | AwaitAdd _ r => ∃ job, r = Returns job
  end.

(** The manual queue and the registry have only grown from [pending] and
    [written], and the recurring queue is still [rq]. *)
Definition grows (pending : list Job) (written : list ReplicaSetUpdate) (rq : BullQueue)
    (w : World) : Prop :=
  pending `prefix_of` waiting (manualSyncQueue w)
  ∧ written `prefix_of` ursm w
  ∧ recurringSyncQueue w = rq.

(** The stages that record a failure. *)
Definition isErrorStage (s : Stage) : bool :=
  match s with
  | StageError _ _ | StageSyncError _ _ _ => true
  | _ => false
  end.

(** The decision tree has only grown from [tree]. *)
Definition extends (tree : list Stage) (st : World * Locals) : Prop :=
  tree `prefix_of` decisionTree st.2.

(** The decision tree has grown from [tree] and its last entry records a
    failure. *)
Definition endsInError (tree : list Stage) (st : World * Locals) : Prop :=
  ∃ stages inner, decisionTree st.2 = tree ++ stages ++ [inner] ∧ isErrorStage inner = true.

(** ** Further nodes *)

(** A node like [Scenario.lonely] whose registry client rejects every
    write. *)
Definition registryDown : Collaborators :=
  {| endpoint := endpoint Scenario.lonely;
     endpointToSPIdMap := endpointToSPIdMap Scenario.lonely;
     maxExportClockValueRange := maxExportClockValueRange Scenario.lonely;
     getNodeUsers := getNodeUsers Scenario.lonely;
     getUnhealthyPeers := getUnhealthyPeers Scenario.lonely;
     batchClockStatus := batchClockStatus Scenario.lonely;
     findCNodeUsers := findCNodeUsers Scenario.lonely;
     autoSelectCreatorNodes := autoSelectCreatorNodes Scenario.lonely;
     getClockValuesFromReplicaSet := getClockValuesFromReplicaSet Scenario.lonely;
     updateReplicaSet := λ _ _ _, Throws "transaction reverted";
     brokerAccepts := brokerAccepts Scenario.lonely;
     postSync := postSync Scenario.lonely;
     clockStatus := clockStatus Scenario.lonely;
     latency := latency Scenario.lonely;
     timerLag := timerLag Scenario.lonely |}.

(** A node like [Scenario.steady 10 5] whose secondaries refuse the sync
    request itself. *)
Definition secondaryDown : Collaborators :=
  {| endpoint := endpoint (Scenario.steady 10 5);
     endpointToSPIdMap := endpointToSPIdMap (Scenario.steady 10 5);
     maxExportClockValueRange := maxExportClockValueRange (Scenario.steady 10 5);
     getNodeUsers := getNodeUsers (Scenario.steady 10 5);
     getUnhealthyPeers := getUnhealthyPeers (Scenario.steady 10 5);
     batchClockStatus := batchClockStatus (Scenario.steady 10 5);
     findCNodeUsers := findCNodeUsers (Scenario.steady 10 5);
     autoSelectCreatorNodes := autoSelectCreatorNodes (Scenario.steady 10 5);
     getClockValuesFromReplicaSet := getClockValuesFromReplicaSet (Scenario.steady 10 5);
     updateReplicaSet := updateReplicaSet (Scenario.steady 10 5);
     brokerAccepts := brokerAccepts (Scenario.steady 10 5);
     postSync := λ _, Throws "ECONNREFUSED";
     clockStatus := clockStatus (Scenario.steady 10 5);
     latency := latency (Scenario.steady 10 5);
     timerLag := timerLag (Scenario.steady 10 5) |}.

(** A user of slice 5 whose replica set is incomplete: this node is the
    primary, [cn2] the first secondary, and the second slot is not set. *)
Definition halfSet : NodeUser :=
  {| user_id := 5; wallet := "0xabc"; primary := Some Scenario.self;
     secondary1 := Some Scenario.cn2; secondary2 := None |}.

(** The clocks of the two nodes of that replica set, as the libs client
    reports them. *)
Definition halfSetClocks : list ClockResponse :=
  [ {| cr_endpoint := Scenario.self; cr_clockValue := 12 |};
    {| cr_endpoint := Scenario.cn2; cr_clockValue := 9 |} ].

(** The only secondary of that user, [cn2], is down. *)
Definition incomplete : Collaborators :=
  Scenario.node (Returns [halfSet]) [Scenario.cn2] [("0xabc", 12)] []
    (Returns Scenario.freshNodes) (Returns halfSetClocks) true 10000 (λ _, Returns 12).

(** The guest's primary [cn2] is down, and of the two survivors only this
    node's clock is reported. *)
Definition halfReported : Collaborators :=
  Scenario.node (Returns [Scenario.guest]) [Scenario.cn2] [("0xdef", 7)] []
    (Returns Scenario.freshNodes)
    (Returns [ {| cr_endpoint := Scenario.self; cr_clockValue := 7 |} ])
    true 10000 (λ _, Returns 7).

(** * Properties *)

(** ** Computations that leave a component of the state alone *)

Section Preserves.
Context {St B : Type} (f : St → B).

Lemma preserves_ret {A} (a : A) : preserves f (mret a).
Proof. by intros s. Qed.

Lemma preserves_throw {A} e : preserves f (throw (A := A) e).
Proof. by intros s. Qed.

Lemma preserves_await {A} (o : Outcome A) : preserves f (await o).
Proof. by intros s. Qed.

Lemma preserves_gets {A} (g : St → A) : preserves f (gets g).
Proof. by intros s. Qed.

Lemma preserves_modify (g : St → St) : (∀ s, f (g s) = f s) → preserves f (modify g).
Proof. intros H s. apply H. Qed.

Lemma preserves_bind {A C} (m : Async St A) (k : A → Async St C) :
  preserves f m → (∀ a, preserves f (k a)) → preserves f (m ≫= k).
Proof.
  intros Hm Hk s. unfold mbind, Async_bind.
  specialize (Hm s). destruct (m s) as [[a|e] s']; simpl in *; [|done].
  by rewrite Hk.
Qed.

Lemma preserves_tryCatch {A} (m : Async St A) (h : string → Async St A) :
  preserves f m → (∀ e, preserves f (h e)) → preserves f (tryCatch m h).
Proof.
  intros Hm Hh s. unfold tryCatch.
  specialize (Hm s). destruct (m s) as [[a|e] s']; simpl in *; [done|].
  by rewrite Hh.
Qed.

Lemma preserves_forEach {A} (l : list A) (g : A → Async St unit) :
  (∀ a, preserves f (g a)) → preserves f (forEach l g).
Proof.
  intros Hg. induction l as [|x l IH]; simpl.
  - apply preserves_ret.
  - apply preserves_bind; auto.
Qed.

Lemma preserves_if {A} (b : bool) (m1 m2 : Async St A) :
  preserves f m1 → preserves f m2 → preserves f (if b then m1 else m2).
Proof. by destruct b. Qed.
End Preserves.

Section PreservesWorld.
Context {B : Type} (f : World → B).

Lemma preserves_liftW {L A} (m : Async World A) :
  preserves f m → preserves (λ st : World * L, f st.1) (liftW m).
Proof.
  intros Hm [w l]. unfold liftW. simpl. specialize (Hm w).
  by destruct (m w) as [r w'].
Qed.

Lemma preserves_withLocal {L A} (l0 : L) (m : Async (World * L) A) :
  preserves (λ st : World * L, f st.1) m → preserves f (withLocal l0 m).
Proof.
  intros Hm w. unfold withLocal. specialize (Hm (w, l0)).
  by destruct (m (w, l0)) as [r [w' l']].
Qed.

Lemma preserves_assign {L} (l : L) : preserves (λ st : World * L, f st.1) (assign l).
Proof. by intros [w l']. Qed.

Lemma preserves_push (s : Stage) : preserves (λ st : World * Locals, f st.1) (push s).
Proof. by intros [w l']. Qed.

Lemma preserves_setSyncResp r : preserves (λ st : World * Locals, f st.1) (setSyncResp r).
Proof. by intros [w l']. Qed.
End PreservesWorld.

Create HintDb preserves.

#[global] Hint Resolve preserves_ret preserves_throw preserves_await preserves_gets
  preserves_bind preserves_tryCatch preserves_forEach preserves_if preserves_liftW
  preserves_withLocal preserves_assign preserves_push preserves_setSyncResp : preserves.

(** ** The slice is only written at the end of an iteration *)

Lemma slice_set_queueOf t q w : currentModuloSlice (set_queueOf t q w) = currentModuloSlice w.
Proof. by destruct t. Qed.

Lemma slice_log e : preserves currentModuloSlice (log e).
Proof. by intros w. Qed.

Lemma slice_queueAdd c t props w :
  currentModuloSlice (queueAdd c t props w).2 = currentModuloSlice w.
Proof.
  unfold queueAdd. destruct (brokerAccepts c t props); simpl; [|done].
  apply slice_set_queueOf.
Qed.

Lemma slice_enqueueSync_start c a w :
  currentModuloSlice (enqueueSync_start c a w).2 = currentModuloSlice w.
Proof.
  unfold enqueueSync_start.
  destruct (SyncDeDuplicator.getDuplicateSyncJobInfo _ _ _ _); simpl; [done|].
  match goal with |- context [queueAdd ?c ?t ?p ?w] =>
    pose proof (slice_queueAdd c t p w) as H; destruct (queueAdd c t p w) end.
  done.
Qed.

Lemma slice_enqueueSync_resume s : preserves currentModuloSlice (enqueueSync_resume s).
Proof.
  intros w. destruct s as [info|a [job|e]]; done.
Qed.

Lemma slice_enqueueSync c a : preserves currentModuloSlice (enqueueSync c a).
Proof.
  intros w. unfold enqueueSync.
  pose proof (slice_enqueueSync_start c a w) as H.
  destruct (enqueueSync_start c a w) as [s w']. simpl in H.
  by rewrite slice_enqueueSync_resume.
Qed.

#[global] Hint Resolve slice_log slice_enqueueSync : preserves.

Lemma slice_issueUpdateReplicaSetOp c userId wl p s1 s2 unhealthy :
  preserves currentModuloSlice (issueUpdateReplicaSetOp c userId wl p s1 s2 unhealthy).
Proof.
  unfold issueUpdateReplicaSetOp.
  apply preserves_bind; [apply slice_log|intros _].
  apply preserves_withLocal, preserves_tryCatch; [|auto with preserves].
  unfold issueUpdateReplicaSetOp_try.
  apply preserves_bind; [apply (preserves_assign currentModuloSlice)|intros _].
  apply preserves_bind; [apply preserves_await|intros r].
  apply preserves_bind.
  - destruct (filter _ _) as [|h0 [|h1 [|h2 l]]].
    + repeat (apply preserves_bind; [auto with preserves|intros ?]). auto with preserves.
    + repeat (apply preserves_bind; [auto with preserves|intros ?]). auto with preserves.
    + apply preserves_bind; [auto with preserves|intros _].
      apply preserves_bind; [auto with preserves|intros clocks].
      destruct (js_ge _ _);
        repeat (apply preserves_bind; [auto with preserves|intros ?]); auto with preserves.
    + auto with preserves.
  - intros [ids|]; (apply preserves_bind; [auto with preserves|intros _]);
      [|auto with preserves].
    apply preserves_bind; [auto with preserves|intros _].
    apply (preserves_liftW currentModuloSlice). by intros w.
Qed.

Lemma slice_issueSyncRequest_start c clocks m st user :
  currentModuloSlice (issueSyncRequest_start c clocks m st user).1.1
  = currentModuloSlice st.1.1.
Proof.
  destruct st as [[w resp] suspended]. unfold issueSyncRequest_start.
  destruct (m !! _); [|done].
  destruct (syncRequired _ _); [|done].
  match goal with |- context [enqueueSync_start ?c ?a ?w] =>
    pose proof (slice_enqueueSync_start c a w) as H; destruct (enqueueSync_start c a w) end.
  done.
Qed.

Lemma slice_issueSyncRequest_resume st s :
  currentModuloSlice (issueSyncRequest_resume st s).1 = currentModuloSlice st.1.
Proof.
  destruct st as [w resp]. unfold issueSyncRequest_resume.
  pose proof (slice_enqueueSync_resume s.2 w) as H.
  by destruct (enqueueSync_resume s.2 w) as [[j|e] w'].
Qed.

Lemma slice_foldl_start c clocks m users st :
  currentModuloSlice (foldl (issueSyncRequest_start c clocks m) st users).1.1
  = currentModuloSlice st.1.1.
Proof.
  revert st. induction users as [|u users IH]; intros st; simpl; [done|].
  by rewrite IH, slice_issueSyncRequest_start.
Qed.

Lemma slice_foldl_resume suspended st :
  currentModuloSlice (foldl issueSyncRequest_resume st suspended).1
  = currentModuloSlice st.1.
Proof.
  revert st. induction suspended as [|x l IH]; intros st; simpl; [done|].
  by rewrite IH, slice_issueSyncRequest_resume.
Qed.

Lemma slice_issueSyncRequests c users m :
  preserves currentModuloSlice (issueSyncRequests c users m).
Proof.
  unfold issueSyncRequests.
  apply preserves_bind; [apply preserves_await|intros clocks].
  intros w. unfold issueSyncRequests_all.
  match goal with |- context [foldl (issueSyncRequest_start c clocks m) ?st0 users] =>
    pose proof (slice_foldl_start c clocks m users st0) as H1;
    destruct (foldl (issueSyncRequest_start c clocks m) st0 users)
      as [[w1 resp1] suspended] end.
  pose proof (slice_foldl_resume suspended (w1, resp1)) as H2.
  destruct (foldl issueSyncRequest_resume (w1, resp1) suspended) as [w2 resp2].
  simpl in *. congruence.
Qed.

#[global] Hint Resolve slice_issueUpdateReplicaSetOp slice_issueSyncRequests : preserves.

Lemma slice_getNodeUsersStage c : preserves sliceOf (getNodeUsersStage c).
Proof. unfold getNodeUsersStage. auto 10 with preserves. Qed.

Lemma slice_getUnhealthyPeersStage c users : preserves sliceOf (getUnhealthyPeersStage c users).
Proof. unfold getUnhealthyPeersStage. auto 10 with preserves. Qed.

Lemma slice_planStage c users unhealthy : preserves sliceOf (planStage c users unhealthy).
Proof. unfold planStage. destruct (foldl _ _ _). auto 10 with preserves. Qed.

Lemma slice_retrieveClockStatusesStage c m : preserves sliceOf (retrieveClockStatusesStage c m).
Proof. unfold retrieveClockStatusesStage. auto 10 with preserves. Qed.

Lemma slice_issueSyncRequestsStage c users m :
  preserves sliceOf (issueSyncRequestsStage c users m).
Proof. unfold issueSyncRequestsStage. auto 12 with preserves. Qed.

Lemma slice_issueUpdateReplicaSetOpStage c ops :
  preserves sliceOf (issueUpdateReplicaSetOpStage c ops).
Proof. unfold issueUpdateReplicaSetOpStage. auto 10 with preserves. Qed.

(** The body of the iteration either runs to its end, and then the slice
    has advanced, or throws, and then the slice is as it was. *)
Lemma slice_processStateMachineOperation_try c st :
  match processStateMachineOperation_try c st with
  | (Returns _, st') => sliceOf st' = Z.rem (sliceOf st + 1) ModuloBase
  | (Throws _, st') => sliceOf st' = sliceOf st
  end.
Proof.
  unfold processStateMachineOperation_try, mbind, Async_bind.
  pose proof (slice_getNodeUsersStage c st) as H1.
  destruct (getNodeUsersStage c st) as [[users|e] st1]; simpl in H1; [|done].
  pose proof (slice_getUnhealthyPeersStage c users st1) as H2.
  destruct (getUnhealthyPeersStage c users st1) as [[sick|e] st2]; simpl in H2;
    [|congruence].
  pose proof (slice_planStage c users sick st2) as H3.
  destruct (planStage c users sick st2) as [[[[ops potential] wallets]|e] st3];
    simpl in H3; [|congruence].
  pose proof (slice_retrieveClockStatusesStage c wallets st3) as H4.
  destruct (retrieveClockStatusesStage c wallets st3) as [[clocks|e] st4];
    simpl in H4; [|congruence].
  pose proof (slice_issueSyncRequestsStage c potential clocks st4) as H5.
  destruct (issueSyncRequestsStage c potential clocks st4) as [[resp|e] st5];
    simpl in H5; [|congruence].
  pose proof (slice_issueUpdateReplicaSetOpStage c ops st5) as H6.
  destruct (issueUpdateReplicaSetOpStage c ops st5) as [[n|e] st6];
    simpl in H6; [|congruence].
  destruct st6 as [w6 l6]. simpl in *. congruence.
Qed.

Lemma slice_processStateMachineOperation c w :
  currentModuloSlice (processStateMachineOperation c w).2 =
    match (processStateMachineOperation_try c (w, entryLocals w)).1 with
    | Returns _ => Z.rem (currentModuloSlice w + 1) ModuloBase
    | Throws _ => currentModuloSlice w
    end.
Proof.
  unfold processStateMachineOperation, mbind, Async_bind, gets, withLocal, tryCatch.
  fold (entryLocals w).
  pose proof (slice_processStateMachineOperation_try c (w, entryLocals w)) as H.
  destruct (processStateMachineOperation_try c (w, entryLocals w)) as [[[]|e] [w' l']];
    simpl in *; exact H.
Qed.

(** C2, as amended.  An iteration whose body runs to its end advances the
    shard selector by exactly one modulo 24; an iteration that aborts with
    an error, whatever the stage that raised it, leaves the selector where
    it was. *)
Theorem slice_advances_iff_iteration_completes (c : Collaborators) (w : World) :
  (0 ≤ currentModuloSlice w)%Z →
  currentModuloSlice (processStateMachineOperation c w).2 =
    match (processStateMachineOperation_try c (w, entryLocals w)).1 with
    | Returns _ => (currentModuloSlice w + 1) `mod` 24
    | Throws _ => currentModuloSlice w
    end.
Proof.
  intros Hs. rewrite slice_processStateMachineOperation.
  destruct (processStateMachineOperation_try c (w, entryLocals w)).1; [|done].
  unfold ModuloBase. apply Z.rem_mod_nonneg; lia.
Qed.

Lemma slice_advances_iff_iteration_completes_witness :
  currentModuloSlice
    (processStateMachineOperation (Scenario.steady 10 10) Scenario.idle).2 = 6.
Proof.
  exact (slice_advances_iff_iteration_completes (Scenario.steady 10 10) Scenario.idle
           ltac:(vm_compute; discriminate)).
Defined.

(** C2 as stated fails: when discovery cannot list the users the iteration
    aborts and the selector stays at 5 instead of moving to 6. *)
Lemma slice_stays_when_iteration_aborts :
  (processStateMachineOperation_try Scenario.blind
     (Scenario.idle, entryLocals Scenario.idle)).1
  = Throws "processStateMachineOperation():getNodeUsers()/sliceUsers() Error: Error: ECONNREFUSED"
  ∧ currentModuloSlice (processStateMachineOperation Scenario.blind Scenario.idle).2
    ≠ (currentModuloSlice Scenario.idle + 1) `mod` 24.
Proof. split; [reflexivity | vm_compute; discriminate]. Qed.

(** ** The sync-issuance stage *)

Lemma issueSyncRequestsStage_outcome c potential clocks w l resp w' :
  issueSyncRequests c potential clocks w = (Returns resp, w') →
  (issueSyncRequestsStage c potential clocks (w, l)).1 =
    if bool_decide (len (syncRequestErrors resp) > numSyncRequestsIssued resp)%Z
    then Throws "processStateMachineOperation():issueSyncRequests() Error"
    else Returns resp.
Proof.
  intros H. unfold issueSyncRequestsStage, tryCatch, mbind, Async_bind, liftW. simpl.
  rewrite H. simpl. by case_bool_decide.
Qed.

(** C9.  Once [issueSyncRequests] has returned its three results, the stage
    throws exactly when there are strictly more errors than issued syncs;
    with as many errors as issued syncs, both zero included, it succeeds
    with the response. *)
Theorem sync_stage_fails_iff_errors_exceed_issued (c : Collaborators)
    (potential : list PotentialSyncRequest) (clocks : gmap string (gmap string Z))
    (w : World) (l : Locals) (resp : SyncRequestsResp) :
  (issueSyncRequests c potential clocks w).1 = Returns resp →
  ((∃ e, (issueSyncRequestsStage c potential clocks (w, l)).1 = Throws e)
   ↔ (len (syncRequestErrors resp) > numSyncRequestsIssued resp)%Z)
  ∧ (len (syncRequestErrors resp) = numSyncRequestsIssued resp →
     (issueSyncRequestsStage c potential clocks (w, l)).1 = Returns resp).
Proof.
  intros H.
  destruct (issueSyncRequests c potential clocks w) as [r w'] eqn:E. simpl in H. subst r.
  rewrite (issueSyncRequestsStage_outcome _ _ _ _ l _ _ E).
  case_bool_decide; split.
  - split; [done | eauto].
  - lia.
  - split; [by intros [e ?] | done].
  - done.
Qed.

Lemma sync_stage_fails_iff_errors_exceed_issued_witness :
  ((∃ e, (issueSyncRequestsStage Scenario.brokerDown [Scenario.toCn2]
            Scenario.cn2Silent (Scenario.idle, entryLocals Scenario.idle)).1 = Throws e)
   ↔ (len [(Scenario.toCn2, "queue.add rejected")] > 0)%Z)
  ∧ (len [(Scenario.toCn2, "queue.add rejected")] = 0 →
     (issueSyncRequestsStage Scenario.brokerDown [Scenario.toCn2]
        Scenario.cn2Silent (Scenario.idle, entryLocals Scenario.idle)).1
     = Returns {| numSyncRequestsRequired := 1; numSyncRequestsIssued := 0;
                  syncRequestErrors := [(Scenario.toCn2, "queue.add rejected")] |}).
Proof.
  exact (sync_stage_fails_iff_errors_exceed_issued Scenario.brokerDown [Scenario.toCn2]
           Scenario.cn2Silent Scenario.idle (entryLocals Scenario.idle)
           {| numSyncRequestsRequired := 1; numSyncRequestsIssued := 0;
              syncRequestErrors := [(Scenario.toCn2, "queue.add rejected")] |}
           ltac:(vm_compute; reflexivity)).
Defined.

(** ** Reconfiguration: the method always returns *)

Lemma issueUpdateReplicaSetOp_returns c userId wl p s1 s2 unhealthy w :
  (issueUpdateReplicaSetOp c userId wl p s1 s2 unhealthy w).1 = Returns tt.
Proof.
  unfold issueUpdateReplicaSetOp, mbind, Async_bind, log, modify, withLocal, tryCatch.
  simpl.
  match goal with |- context [issueUpdateReplicaSetOp_try ?c ?u ?wl ?p ?s1 ?s2 ?un ?st] =>
    destruct (issueUpdateReplicaSetOp_try c u wl p s1 s2 un st) as [[[]|e] [w' l']] end;
    done.
Qed.

(** The reconfiguration loop of the iteration therefore goes through all
    its users. *)
Lemma issueUpdateReplicaSetOpStage_returns c ops st :
  (issueUpdateReplicaSetOpStage c ops st).1 = Returns (len ops).
Proof.
  unfold issueUpdateReplicaSetOpStage, tryCatch, mbind, Async_bind.
  assert (H : ∀ l st, (forEach l (λ userInfo : UpdateReplicaSetOp,
              liftW (L := Locals)
                (issueUpdateReplicaSetOp c (user_id (op_user userInfo))
                   (wallet (op_user userInfo)) (primary (op_user userInfo))
                   (secondary1 (op_user userInfo)) (secondary2 (op_user userInfo))
                   (op_unhealthyReplicas userInfo))) st).1 = Returns tt).
  { induction l as [|x l IH]; intros [w lo]; simpl; [done|].
    unfold mbind, Async_bind, liftW. simpl.
    pose proof (issueUpdateReplicaSetOp_returns c (user_id (op_user x))
                  (wallet (op_user x)) (primary (op_user x)) (secondary1 (op_user x))
                  (secondary2 (op_user x)) (op_unhealthyReplicas x) w) as Hr.
    destruct (issueUpdateReplicaSetOp _ _ _ _ _ _ _ w) as [r w']. simpl in Hr. subst r.
    apply IH. }
  specialize (H ops st).
  destruct (forEach ops _ st) as [r st']. simpl in H. subst r. done.
Qed.

(** ** Reconfiguration with all three replicas healthy *)

Lemma issueUpdateReplicaSetOp_all_healthy c userId wl p s1 s2 unhealthy w :
  Forall (λ replica, replica ∉ unhealthy) [p; s1; s2] →
  issueUpdateReplicaSetOp c userId wl p s1 s2 unhealthy w
  = (Returns tt, set_logs (logs w ++ [LogIssueUpdateReplicaSetOp userId wl unhealthy]) w).
Proof.
  intros H.
  apply Forall_cons in H as [Hp H]. apply Forall_cons in H as [H1 H].
  apply Forall_cons in H as [H2 _].
  unfold issueUpdateReplicaSetOp, issueUpdateReplicaSetOp_try.
  rewrite !filter_cons_True by done. simpl.
  unfold mbind, Async_bind, log, modify, withLocal, tryCatch, assign, await, throw. simpl.
  by destruct (autoSelectCreatorNodes c [p; s1; s2]).
Qed.

(** C10.  When no member of the current replica set is unhealthy (in
    particular with an empty list of unhealthy replicas), so that all three
    slots count as healthy, no branch of the classification applies: the
    call returns normally, both queues, the de-duplicator and the registry
    are as before, and only the entry line is logged. *)
Theorem all_healthy_reconfiguration_is_a_no_op (c : Collaborators) (userId : Z)
    (wl : string) (p s1 s2 : option string) (unhealthy : list (option string))
    (w : World) :
  Forall (λ replica, replica ∉ unhealthy) [p; s1; s2] →
  let result := issueUpdateReplicaSetOp c userId wl p s1 s2 unhealthy w in
  result.1 = Returns tt
  ∧ manualSyncQueue result.2 = manualSyncQueue w
  ∧ recurringSyncQueue result.2 = recurringSyncQueue w
  ∧ syncDeDuplicator result.2 = syncDeDuplicator w
  ∧ ursm result.2 = ursm w
  ∧ logs result.2 = logs w ++ [LogIssueUpdateReplicaSetOp userId wl unhealthy].
Proof.
  intros H result. subst result.
  by rewrite issueUpdateReplicaSetOp_all_healthy.
Qed.

Lemma all_healthy_reconfiguration_is_a_no_op_witness :
  let result :=
    issueUpdateReplicaSetOp (Scenario.steady 10 10) 5 "0xabc" (Some Scenario.self)
      (Some Scenario.cn2) (Some Scenario.cn3) [] Scenario.idle in
  result.1 = Returns tt
  ∧ manualSyncQueue result.2 = manualSyncQueue Scenario.idle
  ∧ recurringSyncQueue result.2 = recurringSyncQueue Scenario.idle
  ∧ syncDeDuplicator result.2 = syncDeDuplicator Scenario.idle
  ∧ ursm result.2 = ursm Scenario.idle
  ∧ logs result.2 = logs Scenario.idle ++ [LogIssueUpdateReplicaSetOp 5 "0xabc" []].
Proof.
  apply (all_healthy_reconfiguration_is_a_no_op (Scenario.steady 10 10) 5 "0xabc"
           (Some Scenario.self) (Some Scenario.cn2) (Some Scenario.cn3) [] Scenario.idle).
  repeat constructor; apply not_elem_of_nil.
Defined.

(** ** Reconfiguration: errors are swallowed *)

Lemma issueUpdateReplicaSetOp_selection_error c userId wl p s1 s2 unhealthy w e :
  autoSelectCreatorNodes c [p; s1; s2] = Throws e →
  issueUpdateReplicaSetOp c userId wl p s1 s2 unhealthy w
  = (Returns tt, set_logs (logs w ++ [LogIssueUpdateReplicaSetOp userId wl unhealthy]) w).
Proof.
  intros H. unfold issueUpdateReplicaSetOp, issueUpdateReplicaSetOp_try.
  unfold mbind, Async_bind, log, modify, withLocal, tryCatch, assign, await. simpl.
  by rewrite H.
Qed.

(** C8, at the failing input.  The user has an unhealthy secondary and the
    selection of candidate nodes throws: the method returns normally, but
    the only line it has logged is its entry line; the error and the phase
    it was raised in are recorded nowhere. *)
Theorem reconfiguration_error_is_not_logged :
  issueUpdateReplicaSetOp Scenario.stranded 5 "0xabc" (Some Scenario.self)
    (Some Scenario.cn2) (Some Scenario.cn3) [Some Scenario.cn2] Scenario.idle
  = (Returns tt,
     set_logs [LogIssueUpdateReplicaSetOp 5 "0xabc" [Some Scenario.cn2]] Scenario.idle).
Proof.
  by apply issueUpdateReplicaSetOp_selection_error
    with (e := "Not enough healthy content nodes").
Qed.

(** ** What one call of enqueueSync does *)

Lemma enqueueSync_duplicate c a w info :
  syncDeDuplicator w !! (syncType a, userWallet a, secondaryEndpoint a) = Some info →
  enqueueSync c a w
  = (Returns info,
     set_logs (logs w ++ [LogDuplicateSync (syncType a) (userWallet a) (secondaryEndpoint a)]) w).
Proof.
  intros H. unfold enqueueSync, enqueueSync_start, SyncDeDuplicator.getDuplicateSyncJobInfo.
  by rewrite H.
Qed.

Lemma dedup_set_queueOf t q w : syncDeDuplicator (set_queueOf t q w) = syncDeDuplicator w.
Proof. by destruct t. Qed.

Lemma enqueueSync_fresh c a w :
  syncDeDuplicator w !! (syncType a, userWallet a, secondaryEndpoint a) = None →
  brokerAccepts c (syncType a) (job_data (syncJob 0 a (dateNow w))) = true →
  let q := queueOf (syncType a) w in
  let job := syncJob (counter q + 1) a (dateNow w) in
  enqueueSync c a w
  = (Returns job,
     set_dedup (<[(syncType a, userWallet a, secondaryEndpoint a) := job]> (syncDeDuplicator w))
       (set_queueOf (syncType a)
          {| counter := counter q + 1; waiting := waiting q ++ [job]; active := active q |} w)).
Proof.
  intros H Hb q job.
  unfold enqueueSync, enqueueSync_start, SyncDeDuplicator.getDuplicateSyncJobInfo, queueAdd.
  rewrite H. simpl in Hb. rewrite Hb. simpl.
  unfold mbind, Async_bind, await, modify, SyncDeDuplicator.recordSync. simpl.
  rewrite dedup_set_queueOf, H. done.
Qed.

Lemma enqueueSync_rejected c a w :
  syncDeDuplicator w !! (syncType a, userWallet a, secondaryEndpoint a) = None →
  brokerAccepts c (syncType a) (job_data (syncJob 0 a (dateNow w))) = false →
  enqueueSync c a w = (Throws "queue.add rejected", w).
Proof.
  intros H Hb.
  unfold enqueueSync, enqueueSync_start, SyncDeDuplicator.getDuplicateSyncJobInfo, queueAdd.
  rewrite H. simpl in Hb. rewrite Hb. done.
Qed.

Lemma enqueueSync_returns c a w :
  (∀ t props, brokerAccepts c t props = true) →
  ∃ job, (enqueueSync c a w).1 = Returns job.
Proof.
  intros Hb.
  destruct (syncDeDuplicator w !! (syncType a, userWallet a, secondaryEndpoint a))
    as [info|] eqn:E.
  - rewrite (enqueueSync_duplicate _ _ _ _ E). eauto.
  - rewrite (enqueueSync_fresh _ _ _ E (Hb _ _)). eauto.
Qed.

(** [enqueueSync] writes neither the registry nor the slice; it appends
    to the log at most. *)
Lemma ursm_set_queueOf t q w : ursm (set_queueOf t q w) = ursm w.
Proof. by destruct t. Qed.

Lemma ursm_enqueueSync c a : preserves ursm (enqueueSync c a).
Proof.
  intros w.
  destruct (syncDeDuplicator w !! (syncType a, userWallet a, secondaryEndpoint a))
    as [info|] eqn:E.
  - by rewrite (enqueueSync_duplicate _ _ _ _ E).
  - destruct (brokerAccepts c (syncType a) (job_data (syncJob 0 a (dateNow w)))) eqn:Hb.
    + rewrite (enqueueSync_fresh _ _ _ E Hb). simpl. apply ursm_set_queueOf.
    + by rewrite (enqueueSync_rejected _ _ _ E Hb).
Qed.

(** The sync queues and the de-duplicator after [enqueueSync] depend on
    nothing but their state before. *)
Lemma enqueueSync_syncState c a w w' :
  syncState w = syncState w' →
  (enqueueSync c a w).1 = (enqueueSync c a w').1
  ∧ syncState (enqueueSync c a w).2 = syncState (enqueueSync c a w').2.
Proof.
  destruct w, w'. unfold syncState. simpl. intros [= -> -> -> ->].
  unfold enqueueSync, enqueueSync_start, SyncDeDuplicator.getDuplicateSyncJobInfo, queueAdd.
  simpl. destruct (_ !! _); [done|]. simpl.
  destruct (brokerAccepts _ _ _); [|done].
  by destruct (syncType a).
Qed.

Lemma syncState_set_logs l w : syncState (set_logs l w) = syncState w.
Proof. done. Qed.

Lemma syncState_set_ursm u w : syncState (set_ursm u w) = syncState w.
Proof. done. Qed.

(** Two seed syncs in a row, for fingerprints that are not pending. *)
Lemma enqueueSync_twice_fresh c wl src src' t1 t2 w :
  (∀ t props, brokerAccepts c t props = true) →
  syncDeDuplicator w !! (Manual, wl, t1) = None →
  syncDeDuplicator w !! (Manual, wl, t2) = None →
  t1 ≠ t2 →
  let w2 := (enqueueSync c (manualImmediate wl src' t2)
               (enqueueSync c (manualImmediate wl src t1) w).2).2 in
  manualSyncQueue w2
  = {| counter := counter (manualSyncQueue w) + 2;
       waiting := waiting (manualSyncQueue w)
                  ++ [syncJob (counter (manualSyncQueue w) + 1)
                        (manualImmediate wl src t1) (dateNow w);
                      syncJob (counter (manualSyncQueue w) + 2)
                        (manualImmediate wl src' t2) (dateNow w)];
       active := active (manualSyncQueue w) |}
  ∧ recurringSyncQueue w2 = recurringSyncQueue w.
Proof.
  intros Hb H1 H2 Hne w2. subst w2.
  rewrite (enqueueSync_fresh c (manualImmediate wl src t1) w H1 (Hb _ _)). simpl.
  rewrite enqueueSync_fresh; [| |apply Hb].
  - simpl. split; [|done].
    replace (counter (manualSyncQueue w) + 1 + 1) with (counter (manualSyncQueue w) + 2)
      by lia.
    by rewrite <- app_assoc.
  - simpl. rewrite lookup_insert_ne; [done|]. intros [= ?]. done.
Qed.

(** ** Reconfiguration with one healthy replica *)

Lemma liftW_run {L A} (m : Async World A) (w : World) (l : L) :
  liftW m (w, l) = ((m w).1, ((m w).2, l)).
Proof. unfold liftW. simpl. by destruct (m w). Qed.

Lemma issueUpdateReplicaSetOp_one_healthy c userId wl p s1 s2 unhealthy h r w :
  filter (λ replica, replica ∉ unhealthy) [p; s1; s2] = [h] →
  autoSelectCreatorNodes c [p; s1; s2] = Returns r →
  (∀ t props, brokerAccepts c t props = true) →
  let r0 := rrs_primary r in
  let r1 := mjoin (rrs_secondaries r !! 0%nat) in
  let w0 := set_logs (logs w ++ [LogIssueUpdateReplicaSetOp userId wl unhealthy]) w in
  let w1 := (enqueueSync c (manualImmediate wl p r0) w0).2 in
  let w2 := (enqueueSync c (manualImmediate wl p r1) w1).2 in
  let w3 := set_logs (logs w2 ++ [LogNewReplicaSet userId wl [p; s1; s2] [p; r0; r1]]) w2 in
  issueUpdateReplicaSetOp c userId wl p s1 s2 unhealthy w
  = (Returns tt,
     match updateReplicaSet c userId (spIdOf c p) [spIdOf c r0; spIdOf c r1] with
     | Returns _ => set_ursm (ursm w3 ++ [replicaSetUpdate c userId p r0 r1]) w3
     | Throws _ => w3
     end).
Proof.
  intros Hf Hs Hb. cbv zeta.
  unfold issueUpdateReplicaSetOp, issueUpdateReplicaSetOp_try. rewrite Hf, Hs.
  unfold mbind, Async_bind, log, modify, withLocal, tryCatch, assign, await, throw. simpl.
  set (w0 := set_logs _ w). rewrite liftW_run.
  destruct (enqueueSync_returns c (manualImmediate wl p (rrs_primary r)) w0 Hb) as [j0 E0].
  rewrite E0. set (w1 := (enqueueSync _ _ w0).2). rewrite liftW_run.
  destruct (enqueueSync_returns c
              (manualImmediate wl p (mjoin (rrs_secondaries r !! 0%nat))) w1 Hb) as [j1 E1].
  rewrite E1. simpl.
  by destruct (updateReplicaSet c userId _ _) as [[]|].
Qed.

Lemma syncState_after_two_seeds c a1 a2 w w0 :
  syncState w0 = syncState w →
  syncState (enqueueSync c a2 (enqueueSync c a1 w0).2).2
  = syncState (enqueueSync c a2 (enqueueSync c a1 w).2).2.
Proof.
  intros H. apply enqueueSync_syncState. by apply enqueueSync_syncState.
Qed.



(** ** Reconfiguration with two healthy replicas *)

Lemma issueUpdateReplicaSetOp_two_healthy c userId wl p s1 s2 unhealthy h0 h1 r responses w :
  filter (λ replica, replica ∉ unhealthy) [p; s1; s2] = [h0; h1] →
  autoSelectCreatorNodes c [p; s1; s2] = Returns r →
  getClockValuesFromReplicaSet c = Returns responses →
  (∀ t props, brokerAccepts c t props = true) →
  let r0 := rrs_primary r in
  let endpointToClockMap := buildEndpointToClockMap responses in
  let first := js_ge (endpointToClockMap !! prop_key h0) (endpointToClockMap !! prop_key h1) in
  let newPrimary := if first then h0 else h1 in
  let newSecondary := if first then h1 else h0 in
  let w0 := set_logs (logs w ++ [LogIssueUpdateReplicaSetOp userId wl unhealthy]) w in
  let w1 := (enqueueSync c (manualImmediate wl newPrimary newSecondary) w0).2 in
  let w2 := (enqueueSync c (manualImmediate wl newPrimary r0) w1).2 in
  let w3 := set_logs (logs w2 ++ [LogNewReplicaSet userId wl [p; s1; s2]
                                    [newPrimary; newSecondary; r0]]) w2 in
  issueUpdateReplicaSetOp c userId wl p s1 s2 unhealthy w
  = (Returns tt,
     match updateReplicaSet c userId (spIdOf c newPrimary)
             [spIdOf c newSecondary; spIdOf c r0] with
     | Returns _ =>
         set_ursm (ursm w3 ++ [replicaSetUpdate c userId newPrimary newSecondary r0]) w3
     | Throws _ => w3
     end).
Proof.
  intros Hf Hs Hc Hb. cbv zeta.
  unfold issueUpdateReplicaSetOp, issueUpdateReplicaSetOp_try. rewrite Hf, Hs, Hc.
  unfold mbind, Async_bind, log, modify, withLocal, tryCatch, assign, await, throw. simpl.
  set (w0 := set_logs _ w).
  destruct (js_ge _ _); simpl; rewrite liftW_run.
  - destruct (enqueueSync_returns c (manualImmediate wl h0 h1) w0 Hb) as [j0 E0].
    rewrite E0. set (w1 := (enqueueSync _ _ w0).2). rewrite liftW_run.
    destruct (enqueueSync_returns c (manualImmediate wl h0 (rrs_primary r)) w1 Hb)
      as [j1 E1].
    rewrite E1. simpl. by destruct (updateReplicaSet c userId _ _) as [[]|].
  - destruct (enqueueSync_returns c (manualImmediate wl h1 h0) w0 Hb) as [j0 E0].
    rewrite E0. set (w1 := (enqueueSync _ _ w0).2). rewrite liftW_run.
    destruct (enqueueSync_returns c (manualImmediate wl h1 (rrs_primary r)) w1 Hb)
      as [j1 E1].
    rewrite E1. simpl. by destruct (updateReplicaSet c userId _ _) as [[]|].
Qed.

(** With exactly two healthy replicas [h0], [h1] (in the order of the
    current set), clocks fetched for both, and the collaborators answering:
    the survivor with the larger clock is the new primary, [h0] on a tie,
    the other survivor is the first secondary and the selected [r0] the
    second; the new primary's clock is at least the first secondary's; and
    exactly two syncs are requested through [enqueueSync], both Manual and
    immediate with the new primary as source, towards the other survivor and
    then [r0].  When neither fingerprint is pending, these are two new jobs
    at the end of the manual queue. *)
Theorem two_healthy_replicas_higher_clock_leads (c : Collaborators) (userId : Z)
    (wl : string) (p s1 s2 : option string) (unhealthy : list (option string))
    (h0 h1 : option string) (r : RandomReplicaSet) (responses : list ClockResponse)
    (k0 k1 : Z) (w : World) :
  filter (λ replica, replica ∉ unhealthy) [p; s1; s2] = [h0; h1] →
  autoSelectCreatorNodes c [p; s1; s2] = Returns r →
  getClockValuesFromReplicaSet c = Returns responses →
  buildEndpointToClockMap responses !! prop_key h0 = Some k0 →
  buildEndpointToClockMap responses !! prop_key h1 = Some k1 →
  (∀ t props, brokerAccepts c t props = true) →
  (∀ id new1 new2, updateReplicaSet c id new1 new2 = Returns tt) →
  let r0 := rrs_primary r in
  let newPrimary := if bool_decide (k1 ≤ k0)%Z then h0 else h1 in
  let newSecondary := if bool_decide (k1 ≤ k0)%Z then h1 else h0 in
  let result := issueUpdateReplicaSetOp c userId wl p s1 s2 unhealthy w in
  let seeded := (enqueueSync c (manualImmediate wl newPrimary r0)
                   (enqueueSync c (manualImmediate wl newPrimary newSecondary) w).2).2 in
  (∃ kp ks, buildEndpointToClockMap responses !! prop_key newPrimary = Some kp
            ∧ buildEndpointToClockMap responses !! prop_key newSecondary = Some ks
            ∧ (ks ≤ kp)%Z)
  ∧ result.1 = Returns tt
  ∧ ursm result.2 = ursm w ++ [replicaSetUpdate c userId newPrimary newSecondary r0]
  ∧ last (logs result.2)
    = Some (LogNewReplicaSet userId wl [p; s1; s2] [newPrimary; newSecondary; r0])
  ∧ syncState result.2 = syncState seeded
  ∧ (syncDeDuplicator w !! (Manual, wl, newSecondary) = None →
     syncDeDuplicator w !! (Manual, wl, r0) = None →
     newSecondary ≠ r0 →
     manualSyncQueue result.2
     = {| counter := counter (manualSyncQueue w) + 2;
          waiting := waiting (manualSyncQueue w)
                     ++ [syncJob (counter (manualSyncQueue w) + 1)
                           (manualImmediate wl newPrimary newSecondary) (dateNow w);
                         syncJob (counter (manualSyncQueue w) + 2)
                           (manualImmediate wl newPrimary r0) (dateNow w)];
          active := active (manualSyncQueue w) |}
     ∧ recurringSyncQueue result.2 = recurringSyncQueue w).
Proof.
  intros Hf Hs Hc Hk0 Hk1 Hb Hr r0 newPrimary newSecondary result seeded. subst result.
  rewrite (issueUpdateReplicaSetOp_two_healthy _ _ _ _ _ _ _ _ _ _ _ _ Hf Hs Hc Hb).
  rewrite Hk0, Hk1, Hr. simpl.
  assert (Hd : (k1 <=? k0)%Z = bool_decide (k1 ≤ k0)%Z).
  { case_bool_decide; lia. }
  rewrite Hd. fold r0 newPrimary newSecondary.
  set (w0 := set_logs _ w).
  assert (Hst : syncState (enqueueSync c (manualImmediate wl newPrimary r0)
                             (enqueueSync c (manualImmediate wl newPrimary newSecondary) w0).2).2
                = syncState seeded) by by apply syncState_after_two_seeds.
  split; [|split; [done|split; [|split; [|split]]]].
  - subst newPrimary newSecondary. case_bool_decide.
    + exists k0, k1. done.
    + exists k1, k0. split; [done|]. split; [done|]. lia.
  - by rewrite !ursm_enqueueSync.
  - by rewrite last_snoc.
  - exact Hst.
  - intros H0 H1 Hne.
    destruct (enqueueSync_twice_fresh c wl newPrimary newPrimary newSecondary r0 w
                Hb H0 H1 Hne) as [Hm Hq].
    fold seeded in Hm, Hq. unfold syncState in Hst.
    injection Hst as Hm' Hq' _ _. simpl in *. split; congruence.
Qed.

Lemma two_healthy_replicas_higher_clock_leads_witness :
  ursm (issueUpdateReplicaSetOp Scenario.orphaned 5 "0xdef" (Some Scenario.cn2)
          (Some Scenario.self) (Some Scenario.cn3) [Some Scenario.cn2] Scenario.idle).2
  = [{| upd_userId := 5; upd_primary := Some 3; upd_secondaries := [Some 1; Some 4] |}].
Proof.
  exact (proj1 (proj2 (proj2
    (two_healthy_replicas_higher_clock_leads Scenario.orphaned 5 "0xdef"
       (Some Scenario.cn2) (Some Scenario.self) (Some Scenario.cn3) [Some Scenario.cn2]
       (Some Scenario.self) (Some Scenario.cn3) Scenario.freshNodes Scenario.guestClocks
       7 9 Scenario.idle
       ltac:(vm_compute; reflexivity) eq_refl eq_refl
       ltac:(vm_compute; reflexivity) ltac:(vm_compute; reflexivity)
       (λ _ _, eq_refl) (λ _ _ _, eq_refl))))).
Defined.

(** C4, at the failing input.  The user's replica set is incomplete: this
    node is the primary with clock 12, the only secondary [cn2] is down,
    and the second secondary slot is not set.  The unset slot is not in
    the list of unhealthy replicas, so it counts as the second of two
    healthy replicas; no clock was fetched for it, the comparison of the
    clocks is false, and the unset slot is made the new primary: the
    registry is written with no primary, this node is demoted to first
    secondary, and the two seed syncs have no source.  A whole iteration
    does the same.  With two real survivors of which only the first has
    a fetched clock, the second one is made primary as well. *)
Theorem absent_slot_is_promoted_to_primary :
  let call := issueUpdateReplicaSetOp incomplete 5 "0xabc" (Some Scenario.self)
                (Some Scenario.cn2) None [Some Scenario.cn2] Scenario.idle in
  let write := {| upd_userId := 5; upd_primary := None;
                  upd_secondaries := [Some 1; Some 4] |} in
  filter (λ replica, replica ∉ [Some Scenario.cn2])
    [Some Scenario.self; Some Scenario.cn2; None] = [Some Scenario.self; None]
  ∧ buildEndpointToClockMap halfSetClocks !! prop_key (Some Scenario.self) = Some 12
  ∧ buildEndpointToClockMap halfSetClocks !! prop_key None = None
  ∧ call.1 = Returns tt
  ∧ ursm call.2 = [write]
  ∧ last (logs call.2)
    = Some (LogNewReplicaSet 5 "0xabc" [Some Scenario.self; Some Scenario.cn2; None]
              [None; Some Scenario.self; Some Scenario.cn4])
  ∧ waiting (manualSyncQueue call.2)
    = [syncJob 1 (manualImmediate "0xabc" None (Some Scenario.self)) 1600000000000;
       syncJob 2 (manualImmediate "0xabc" None (Some Scenario.cn4)) 1600000000000]
  ∧ ursm (processStateMachineOperation incomplete Scenario.idle).2 = [write]
  ∧ ursm (issueUpdateReplicaSetOp halfReported 5 "0xdef" (Some Scenario.cn2)
            (Some Scenario.self) (Some Scenario.cn3) [Some Scenario.cn2] Scenario.idle).2
    = [{| upd_userId := 5; upd_primary := Some 3; upd_secondaries := [Some 1; Some 4] |}].
Proof. vm_compute. repeat split; reflexivity. Qed.

(** ** The completion monitor *)

Lemma monitorRound_cases c wl P sec startTimeMs now n :
  let round := monitorRound c wl (Some P) sec startTimeMs now n in
  match clockStatus c sec wl n with
  | Throws e => round = (None, [LogMonitorError wl sec e])
  | Returns k =>
      if bool_decide (k + maxExportClockValueRange c < P)%Z then
        round = (Some true, [LogSecondaryClock wl sec k; LogMaxExportExceeded wl sec k])
      else if bool_decide (P ≤ k)%Z then
        round = (Some false, [LogSecondaryClock wl sec k;
                              LogSyncCompleted wl sec k (now - startTimeMs)])
      else round = (None, [LogSecondaryClock wl sec k])
  end.
Proof.
  unfold monitorRound. destruct (clockStatus c sec wl n) as [k|e]; [|done].
  unfold js_lt, js_ge.
  repeat case_bool_decide;
    repeat match goal with
           | |- context [(?a <? ?b)%Z] => destruct (Z.ltb_spec a b)
           | |- context [(?a <=? ?b)%Z] => destruct (Z.leb_spec a b)
           end; try done; lia.
Qed.

(** No round starts once the deadline has passed. *)
Lemma monitorLoop_deadline c wl P sec startTimeMs endTimeMs now n logged :
  (endTimeMs ≤ now)%Z →
  monitorLoop c wl P sec startTimeMs endTimeMs now n logged = (true, logged, now).
Proof.
  intros Hnow. simp monitorLoop.
  destruct (decide (now < endTimeMs)%Z) as [Hlt|Hge]; [lia|]. done.
Qed.

(** One turn of the loop. *)
Lemma monitorLoop_round c wl P sec startTimeMs endTimeMs now n logged :
  monitorLoop c wl P sec startTimeMs endTimeMs now n logged
  = if decide (now < endTimeMs)%Z then
      match monitorRound c wl P sec startTimeMs (now + Z.of_N (latency c n)) n with
      | (Some b, lines) => (b, logged ++ lines, (now + Z.of_N (latency c n))%Z)
      | (None, lines) =>
          monitorLoop c wl P sec startTimeMs endTimeMs
            (now + Z.of_N (latency c n) + SyncMonitoringRetryDelayMs + Z.of_N (timerLag c n))
            (S n) (logged ++ lines)
      end
    else (true, logged, now).
Proof.
  simp monitorLoop. destruct (decide (now < endTimeMs)%Z); simpl; [|done].
  destruct (monitorRound _ _ _ _ _ _ _) as [[b|] lines]; simpl; [done|].
  by rewrite monitorLoop_equation_1.
Qed.

Lemma roundStart_step c startTimeMs n :
  (roundStart c startTimeMs n + 15000 ≤ roundStart c startTimeMs (S n))%Z.
Proof. simpl. unfold SyncMonitoringRetryDelayMs. lia. Qed.

Lemma roundStart_mono c startTimeMs n j :
  (n ≤ j)%nat → (roundStart c startTimeMs n ≤ roundStart c startTimeMs j)%Z.
Proof.
  induction 1 as [|j _ IH]; [lia|]. pose proof (roundStart_step c startTimeMs j). lia.
Qed.

Section Polls.
Context (c : Collaborators) (wl : string) (P : Z) (sec : option string) (startTimeMs : Z).
Hypothesis range_nonneg : (0 ≤ maxExportClockValueRange c)%Z.

Lemma polled_earlier n j k :
  polled c wl P sec startTimeMs j → (n < j)%nat → clockStatus c sec wl n = Returns k →
  (P - maxExportClockValueRange c ≤ k < P)%Z.
Proof. intros [_ H] Hlt Hk. by apply (H n). Qed.

Lemma polled_before_deadline n j :
  polled c wl P sec startTimeMs j → (n ≤ j)%nat →
  (roundStart c startTimeMs n < startTimeMs + MaxSyncMonitoringDurationInMs)%Z.
Proof. intros [H _] Hle. pose proof (roundStart_mono c startTimeMs n j Hle). lia. Qed.

(** The loop entered on schedule at round [n], with at most [rounds]
    rounds left before the deadline. *)
Lemma monitorLoop_fromRound (rounds n : nat) logged :
  (startTimeMs + MaxSyncMonitoringDurationInMs - roundStart c startTimeMs n
   ≤ 15000 * Z.of_nat rounds)%Z →
  (∀ m k, (m < n)%nat → clockStatus c sec wl m = Returns k →
          (P - maxExportClockValueRange c ≤ k < P)%Z) →
  let result := monitorLoop c wl (Some P) sec startTimeMs
                  (startTimeMs + MaxSyncMonitoringDurationInMs)
                  (roundStart c startTimeMs n) n logged in
  fromRound c wl P sec startTimeMs n result ∧ ∃ new, result.1.2 = logged ++ new.
Proof.
  revert n logged. induction rounds as [|rounds IH]; intros n logged Hrounds Hearlier; cbv zeta.
  - rewrite monitorLoop_deadline by lia. cbn [fst snd].
    split; [|exists []; by rewrite app_nil_r]. unfold fromRound. cbn [fst snd].
    split; [|split; [|split]].
    + split; [done|]. intros (j & k & Hj & Hm & _).
      pose proof (polled_before_deadline n j Hm Hj). lia.
    + intros j k Hj Hm. pose proof (polled_before_deadline n j Hm Hj). lia.
    + intros _. split; [done|lia].
    + intros j Hj Hm. pose proof (polled_before_deadline n j Hm Hj). lia.
  - rewrite monitorLoop_round.
    destruct (decide (roundStart c startTimeMs n
                      < startTimeMs + MaxSyncMonitoringDurationInMs)%Z) as [Hnow|Hnow].
    2:{ split; [|exists []; by rewrite app_nil_r]. unfold fromRound. cbn [fst snd].
        split; [|split; [|split]].
        + split; [done|]. intros (j & k & Hj & Hm & _).
          pose proof (polled_before_deadline n j Hm Hj). lia.
        + intros j k Hj Hm. pose proof (polled_before_deadline n j Hm Hj). lia.
        + intros _. split; [done|lia].
        + intros j Hj Hm. pose proof (polled_before_deadline n j Hm Hj). lia. }
    assert (Hn : polled c wl P sec startTimeMs n) by (by split).
    pose proof (monitorRound_cases c wl P sec startTimeMs
                  (roundStart c startTimeMs n + Z.of_N (latency c n)) n) as Hc.
    cbv zeta in Hc.
    pose proof (roundStart_step c startTimeMs n) as Hstep.
    destruct (clockStatus c sec wl n) as [k|e] eqn:Hk.
    + case_bool_decide as Hex; [|case_bool_decide as Hup]; rewrite Hc; clear Hc.
      * cbn [fst snd]. split; [|by eexists]. unfold fromRound. cbn [fst snd].
        assert (Hlast : ∀ j, (n ≤ j)%nat → polled c wl P sec startTimeMs j → j = n).
        { intros j Hj Hm. destruct (decide (j = n)) as [|Hne]; [done|].
          pose proof (polled_earlier n j k Hm ltac:(lia) Hk). lia. }
        split; [|split; [|split]].
        -- split; [done|]. intros (j & k' & Hj & Hm & Hk' & Hle).
           rewrite (Hlast j Hj Hm), Hk in Hk'. injection Hk' as <-. lia.
        -- intros j k' Hj Hm Hk' _. rewrite (Hlast j Hj Hm) in Hk' |- *.
           rewrite Hk in Hk'. injection Hk' as <-.
           split; [done|]. split; [done|]. by exists logged.
        -- intros Hall. specialize (Hall n k ltac:(lia) Hn Hk). lia.
        -- intros j Hj Hm. rewrite (Hlast j Hj Hm), Hk.
           apply elem_of_app. right. apply elem_of_cons. by left.
      * cbn [fst snd]. split; [|by eexists]. unfold fromRound. cbn [fst snd].
        assert (Hlast : ∀ j, (n ≤ j)%nat → polled c wl P sec startTimeMs j → j = n).
        { intros j Hj Hm. destruct (decide (j = n)) as [|Hne]; [done|].
          pose proof (polled_earlier n j k Hm ltac:(lia) Hk). lia. }
        split; [|split; [|split]].
        -- split; [|done]. intros _. exists n, k. done.
        -- intros j k' Hj Hm Hk' Hlt. rewrite (Hlast j Hj Hm), Hk in Hk'.
           injection Hk' as <-. lia.
        -- intros Hall. specialize (Hall n k ltac:(lia) Hn Hk). lia.
        -- intros j Hj Hm. rewrite (Hlast j Hj Hm), Hk.
           apply elem_of_app. right. apply elem_of_cons. by left.
      * destruct (IH (S n) (logged ++ [LogSecondaryClock wl sec k])) as [Hrec [new Hnew]].
        { lia. }
        { intros m k' Hm Hk'. destruct (decide (m = n)) as [->|Hne].
          - rewrite Hk in Hk'. injection Hk' as <-. lia.
          - apply (Hearlier m); [lia|done]. }
        cbv zeta in Hrec, Hnew. cbn [roundStart] in Hrec, Hnew.
        split; [|exists ([LogSecondaryClock wl sec k] ++ new); by rewrite Hnew, app_assoc].
        destruct Hrec as (HA & HB & HC & HD). unfold fromRound.
        split; [|split; [|split]].
        -- rewrite HA. split; intros (j & k' & Hj & Hm & Hk' & Hle).
           ++ exists j, k'. split; [lia|done].
           ++ exists j, k'. split; [|done].
              destruct (decide (j = n)) as [->|]; [|lia].
              rewrite Hk in Hk'. injection Hk' as <-. lia.
        -- intros j k' Hj Hm Hk' Hlt. apply HB; [|done..].
           destruct (decide (j = n)) as [->|]; [|lia].
           rewrite Hk in Hk'. injection Hk' as <-. lia.
        -- intros Hall. apply HC. intros j k' Hj. apply Hall. lia.
        -- intros j Hj Hm. destruct (decide (j = n)) as [->|].
           ++ rewrite Hk, Hnew. apply elem_of_app. left.
              apply elem_of_app. right. apply elem_of_cons. by left.
           ++ apply HD; [lia|done].
    + rewrite Hc. clear Hc.
      destruct (IH (S n) (logged ++ [LogMonitorError wl sec e])) as [Hrec [new Hnew]].
      { lia. }
      { intros m k' Hm Hk'. destruct (decide (m = n)) as [->|Hne]; [congruence|].
        apply (Hearlier m); [lia|done]. }
      cbv zeta in Hrec, Hnew. cbn [roundStart] in Hrec, Hnew.
      split; [|exists ([LogMonitorError wl sec e] ++ new); by rewrite Hnew, app_assoc].
      destruct Hrec as (HA & HB & HC & HD). unfold fromRound.
      split; [|split; [|split]].
      * rewrite HA. split; intros (j & k' & Hj & Hm & Hk' & Hle).
        -- exists j, k'. split; [lia|done].
        -- exists j, k'. split; [|done].
           destruct (decide (j = n)) as [->|]; [congruence|lia].
      * intros j k' Hj Hm Hk' Hlt. apply HB; [|done..].
        destruct (decide (j = n)) as [->|]; [congruence|lia].
      * intros Hall. apply HC. intros j k' Hj. apply Hall. lia.
      * intros j Hj Hm. destruct (decide (j = n)) as [->|].
        -- rewrite Hk, Hnew. apply elem_of_app. left.
              apply elem_of_app. right. apply elem_of_cons. by left.
        -- apply HD; [lia|done].
Qed.
End Polls.

(** C5.  For a numeric primary clock [P] and a non-negative export range,
    in terms of the answers of the secondary to the polls of the run (poll
    [n] is made when its round starts before the deadline of 6 minutes and
    no earlier poll has ended the monitoring): the monitor answers "no
    additional sync required" exactly when a poll that is made reports a
    clock [k] with [P ≤ k], [k = P] included; a poll that reports
    [k + range < P] ends the monitoring with that sample, and the answer is
    "additional sync required"; when every poll made reports a clock below
    [P] within the range, or fails, the answer is "additional sync
    required" and the monitor has run until the deadline; the sample or
    the transport error of every poll made is logged, and after a
    transport error the next poll is made as long as its round starts
    before the deadline. *)
Theorem additionalSyncIsRequired_decision (c : Collaborators) (wl : string) (P : Z)
    (sec : option string) (t : SyncType) (startTimeMs : Z) :
  (0 ≤ maxExportClockValueRange c)%Z →
  let result := additionalSyncIsRequired c wl (Some P) sec t startTimeMs in
  let required := result.1.1 in
  let lines := result.1.2 in
  let finished := result.2 in
  let made := polled c wl P sec startTimeMs in
  let sample := clockStatus c sec wl in
  (required = false ↔ ∃ n k, made n ∧ sample n = Returns k ∧ (P ≤ k)%Z)
  ∧ (∀ n k, made n → sample n = Returns k →
            (k + maxExportClockValueRange c < P)%Z →
            required = true
            ∧ finished = (roundStart c startTimeMs n + Z.of_N (latency c n))%Z
            ∧ ∃ before, lines = before ++ [LogSecondaryClock wl sec k;
                                           LogMaxExportExceeded wl sec k])
  ∧ ((∀ n k, made n → sample n = Returns k →
             (P - maxExportClockValueRange c ≤ k < P)%Z) →
     required = true ∧ (startTimeMs + 360000 ≤ finished)%Z)
  ∧ (∀ n, made n →
          match sample n with
          | Returns k => LogSecondaryClock wl sec k ∈ lines
          | Throws e => LogMonitorError wl sec e ∈ lines
          end)
  ∧ (∀ n e, made n → sample n = Throws e →
            LogMonitorError wl sec e ∈ lines
            ∧ ((roundStart c startTimeMs (S n) < startTimeMs + 360000)%Z →
               made (S n)
               ∧ match sample (S n) with
                 | Returns k => LogSecondaryClock wl sec k ∈ lines
                 | Throws e' => LogMonitorError wl sec e' ∈ lines
                 end)).
Proof.
  intros Hrange. cbv zeta. unfold additionalSyncIsRequired.
  destruct (monitorLoop_fromRound c wl P sec startTimeMs Hrange 24 0 [])
    as [(HA & HB & HC & HD) _].
  { unfold MaxSyncMonitoringDurationInMs. simpl. lia. }
  { intros m k Hm. lia. }
  cbn [roundStart] in HA, HB, HC, HD.
  split; [|split; [|split; [|split]]].
  - rewrite HA. split; intros (n & k & H); [exists n, k; tauto|].
    exists n, k. split; [lia|done].
  - intros n k. apply HB. lia.
  - intros Hall. apply HC. intros n k _. apply Hall.
  - intros n. apply HD. lia.
  - intros n e Hn He. split.
    + specialize (HD n ltac:(lia) Hn). by rewrite He in HD.
    + intros Hnext.
      assert (Hn' : polled c wl P sec startTimeMs (S n)).
      { split; [done|]. intros m k Hm Hk. destruct (decide (m = n)) as [->|]; [congruence|].
        apply (proj2 Hn m); [lia|done]. }
      split; [done|]. apply HD; [lia|done].
Qed.

Lemma additionalSyncIsRequired_decision_witness :
  (additionalSyncIsRequired Scenario.catchingUp "0xabc" (Some 10) (Some Scenario.cn2)
     Recurring 0).1.1 = false
  ↔ ∃ n k, polled Scenario.catchingUp "0xabc" 10 (Some Scenario.cn2) 0 n
           ∧ clockStatus Scenario.catchingUp (Some Scenario.cn2) "0xabc" n = Returns k
           ∧ (10 ≤ k)%Z.
Proof.
  exact (proj1 (additionalSyncIsRequired_decision Scenario.catchingUp "0xabc" 10
                  (Some Scenario.cn2) Recurring 0 ltac:(vm_compute; discriminate))).
Defined.

(** ** Idempotence of enqueueSync *)

(** C6.  For two calls with the same fingerprint (syncType, userWallet,
    secondaryEndpoint): when the de-duplicator holds a handle for the
    fingerprint, [enqueueSync] returns that handle and leaves both queues
    and the de-duplicator as they are; and when a first call has returned a
    handle, a second call right after it returns the same handle and pushes
    no job. *)
Theorem enqueueSync_returns_pending_handle (c : Collaborators)
    (a a' : EnqueueSyncArgs) (w : World) :
  (syncType a', userWallet a', secondaryEndpoint a')
  = (syncType a, userWallet a, secondaryEndpoint a) →
  (∀ info,
     syncDeDuplicator w !! (syncType a, userWallet a, secondaryEndpoint a) = Some info →
     (enqueueSync c a w).1 = Returns info
     ∧ manualSyncQueue (enqueueSync c a w).2 = manualSyncQueue w
     ∧ recurringSyncQueue (enqueueSync c a w).2 = recurringSyncQueue w
     ∧ syncDeDuplicator (enqueueSync c a w).2 = syncDeDuplicator w)
  ∧ (∀ handle,
       (enqueueSync c a w).1 = Returns handle →
       let w1 := (enqueueSync c a w).2 in
       (enqueueSync c a' w1).1 = Returns handle
       ∧ manualSyncQueue (enqueueSync c a' w1).2 = manualSyncQueue w1
       ∧ recurringSyncQueue (enqueueSync c a' w1).2 = recurringSyncQueue w1
       ∧ syncDeDuplicator (enqueueSync c a' w1).2 = syncDeDuplicator w1).
Proof.
  intros Hfp.
  assert (Hdup : ∀ (b : EnqueueSyncArgs) (v : World) info,
             syncDeDuplicator v !! (syncType b, userWallet b, secondaryEndpoint b)
             = Some info →
             (enqueueSync c b v).1 = Returns info
             ∧ manualSyncQueue (enqueueSync c b v).2 = manualSyncQueue v
             ∧ recurringSyncQueue (enqueueSync c b v).2 = recurringSyncQueue v
             ∧ syncDeDuplicator (enqueueSync c b v).2 = syncDeDuplicator v).
  { intros b v info H. by rewrite (enqueueSync_duplicate _ _ _ _ H). }
  split; [apply Hdup|].
  intros handle Hret w1. apply Hdup. rewrite Hfp. subst w1.
  destruct (syncDeDuplicator w !! (syncType a, userWallet a, secondaryEndpoint a))
    as [info|] eqn:E.
  - rewrite (enqueueSync_duplicate _ _ _ _ E) in Hret |- *. simpl in *. congruence.
  - destruct (brokerAccepts c (syncType a) (job_data (syncJob 0 a (dateNow w)))) eqn:Hb.
    + rewrite (enqueueSync_fresh _ _ _ E Hb) in Hret |- *. simpl in *.
      injection Hret as <-. apply lookup_insert_eq.
    + by rewrite (enqueueSync_rejected _ _ _ E Hb) in Hret.
Qed.

Lemma enqueueSync_returns_pending_handle_witness :
  let a := recurringSync (Scenario.steady 10 5) "0xabc" (Some Scenario.cn2) in
  let w1 := (enqueueSync (Scenario.steady 10 5) a Scenario.idle).2 in
  (enqueueSync (Scenario.steady 10 5) a w1).1 = Returns (syncJob 1 a 1600000000000)
  ∧ manualSyncQueue (enqueueSync (Scenario.steady 10 5) a w1).2 = manualSyncQueue w1
  ∧ recurringSyncQueue (enqueueSync (Scenario.steady 10 5) a w1).2 = recurringSyncQueue w1
  ∧ syncDeDuplicator (enqueueSync (Scenario.steady 10 5) a w1).2 = syncDeDuplicator w1.
Proof.
  exact (proj2 (enqueueSync_returns_pending_handle (Scenario.steady 10 5)
                  (recurringSync (Scenario.steady 10 5) "0xabc" (Some Scenario.cn2))
                  (recurringSync (Scenario.steady 10 5) "0xabc" (Some Scenario.cn2))
                  Scenario.idle eq_refl)
           (syncJob 1 (recurringSync (Scenario.steady 10 5) "0xabc" (Some Scenario.cn2))
              1600000000000)
           eq_refl).
Defined.

(** ** The clock test of issueSyncRequests *)

(** The test of line 613 holds when the secondary's clock is missing or
    zero, or when both clocks are there and the primary's is larger. *)
Lemma syncRequired_true (p s : option Z) :
  syncRequired p s = true
  ↔ s = None ∨ s = Some 0%Z ∨ ∃ x y, p = Some x ∧ s = Some y ∧ (y < x)%Z.
Proof.
  unfold syncRequired, js_not, js_gt. split.
  - destruct s as [y|]; [|by left]. destruct (Z.eqb_spec y 0) as [->|Hy]; [by right; left|].
    destruct p as [x|]; [|done]. simpl. intros H%Z.ltb_lt. right. right. by exists x, y.
  - intros [->|[->|(x & y & -> & -> & H)]]; [done|done|].
    apply orb_true_iff. right. by apply Z.ltb_lt.
Qed.

(** For a single request the two phases of [issueSyncRequests] are one
    uninterrupted [enqueueSync], made exactly when the clock test holds. *)
Lemma issueSyncRequests_single c user clocksMap nodeClocks rows w :
  findCNodeUsers c [wallet (psr_user user)] = Returns rows →
  clocksMap !! prop_key (psr_endpoint user) = Some nodeClocks →
  let primaryClock :=
    foldl (λ o k, <[k.1 := k.2]> o) (∅ : gmap string Z) rows !! wallet (psr_user user) in
  (issueSyncRequests c [user] clocksMap w).2
  = if syncRequired primaryClock (nodeClocks !! wallet (psr_user user))
    then (enqueueSync c (recurringSync c (wallet (psr_user user)) (psr_endpoint user)) w).2
    else w.
Proof.
  intros Hrows Hnode. cbv zeta.
  unfold issueSyncRequests, getUserPrimaryClockValues. simpl. rewrite Hrows.
  unfold mbind, Async_bind, await, issueSyncRequests_all. simpl.
  rewrite Hnode. destruct (syncRequired _ _); [|done].
  unfold enqueueSync.
  destruct (enqueueSync_start c _ w) as [s w1]. simpl.
  unfold issueSyncRequest_resume. simpl.
  by destruct (enqueueSync_resume s w1) as [[j|e] w2].
Qed.

(** C1, at the failing input.  The user's clock is 0 on this node and the
    healthy secondary reports clock 0 as well: the clocks are equal, yet
    [issueSyncRequests] counts a sync as required and puts a Recurring job
    on the queue, in a call of its own and in a whole iteration alike.
    With both clocks at 10 nothing is enqueued. *)
Theorem sync_enqueued_when_both_clocks_are_zero :
  let c := Scenario.steady 0 0 in
  let job := syncJob 1 (recurringSync c "0xabc" (Some Scenario.cn2)) 1600000000000 in
  let result := issueSyncRequests c [Scenario.toCn2] (Scenario.cn2Reports 0) Scenario.idle in
  result.1 = Returns {| numSyncRequestsRequired := 1; numSyncRequestsIssued := 1;
                        syncRequestErrors := [] |}
  ∧ waiting (recurringSyncQueue result.2) = [job]
  ∧ length (waiting (recurringSyncQueue
                       (processStateMachineOperation c Scenario.idle).2)) = 2%nat
  ∧ waiting (recurringSyncQueue
               (issueSyncRequests (Scenario.steady 10 10) [Scenario.toCn2]
                  (Scenario.cn2Reports 10) Scenario.idle).2) = [].
Proof. vm_compute. repeat split; reflexivity. Qed.

(** ** Overlapping calls of enqueueSync *)

(** C3, at the failing input.  [enqueueSync] looks the fingerprint up
    before [await queue.add] and records it after.  When two calls for the
    same fingerprint overlap, both lookups come first and both jobs are
    added: two pending jobs share the fingerprint.  The callbacks of
    [issueSyncRequests] overlap in this way, so two requests for the same
    user and secondary, or a user whose two secondaries are the same node,
    are enough. *)
Theorem overlapping_enqueues_leave_two_pending_jobs :
  let c := Scenario.steady 10 5 in
  let fp := (Recurring, "0xabc", Some Scenario.cn2) in
  let a := recurringSync c "0xabc" (Some Scenario.cn2) in
  let first := enqueueSync_start c a Scenario.idle in
  let second := enqueueSync_start c a first.2 in
  pendingCount fp (enqueueSync_resume second.1 (enqueueSync_resume first.1 second.2).2).2
  = 2%nat
  ∧ pendingCount fp
      (issueSyncRequests c [Scenario.toCn2; Scenario.toCn2] (Scenario.cn2Reports 5)
         Scenario.idle).2 = 2%nat
  ∧ pendingCount fp (processStateMachineOperation Scenario.doubled Scenario.idle).2 = 2%nat.
Proof. vm_compute. repeat split; reflexivity. Qed.

(** ** Without overlap, one pending job per fingerprint *)

Section Maintains.
Context {St : Type} (I : St → Prop).

Lemma maintains_ret {A} (a : A) : maintains I (mret a).
Proof. by intros s. Qed.

Lemma maintains_throw {A} e : maintains I (throw (A := A) e).
Proof. by intros s. Qed.

Lemma maintains_await {A} (o : Outcome A) : maintains I (await o).
Proof. by intros s. Qed.

Lemma maintains_gets {A} (g : St → A) : maintains I (gets g).
Proof. by intros s. Qed.

Lemma maintains_modify (g : St → St) : (∀ s, I s → I (g s)) → maintains I (modify g).
Proof. intros H s. apply H. Qed.

Lemma maintains_bind {A C} (m : Async St A) (k : A → Async St C) :
  maintains I m → (∀ a, maintains I (k a)) → maintains I (m ≫= k).
Proof.
  intros Hm Hk s Hs. unfold mbind, Async_bind.
  specialize (Hm s Hs). destruct (m s) as [[a|e] s']; simpl in *; [|done].
  by apply Hk.
Qed.

Lemma maintains_tryCatch {A} (m : Async St A) (h : string → Async St A) :
  maintains I m → (∀ e, maintains I (h e)) → maintains I (tryCatch m h).
Proof.
  intros Hm Hh s Hs. unfold tryCatch.
  specialize (Hm s Hs). destruct (m s) as [[a|e] s']; simpl in *; [done|].
  by apply Hh.
Qed.

Lemma maintains_if {A} (b : bool) (m1 m2 : Async St A) :
  maintains I m1 → maintains I m2 → maintains I (if b then m1 else m2).
Proof. by destruct b. Qed.
End Maintains.

Lemma maintains_liftW (I : World → Prop) {L A} (m : Async World A) :
  maintains I m → maintains (λ st : World * L, I st.1) (liftW m).
Proof.
  intros Hm [w l] Hw. unfold liftW. simpl in *. specialize (Hm w Hw).
  by destruct (m w) as [r w'].
Qed.

Lemma maintains_withLocal (I : World → Prop) {L A} (l0 : L) (m : Async (World * L) A) :
  maintains (λ st : World * L, I st.1) m → maintains I (withLocal l0 m).
Proof.
  intros Hm w Hw. unfold withLocal. specialize (Hm (w, l0) Hw).
  by destruct (m (w, l0)) as [r [w' l']].
Qed.

Lemma maintains_assign (I : World → Prop) {L} (l : L) :
  maintains (λ st : World * L, I st.1) (assign l).
Proof. by intros [w l']. Qed.

Create HintDb maintains.

#[global] Hint Resolve maintains_ret maintains_throw maintains_await maintains_gets
  maintains_bind maintains_tryCatch maintains_if maintains_liftW maintains_withLocal
  maintains_assign : maintains.

Lemma queueOf_set_queueOf t t' q w :
  queueOf t (set_queueOf t' q w) = if decide (t = t') then q else queueOf t w.
Proof. by destruct t, t'. Qed.

Lemma queueOf_set_dedup t d w : queueOf t (set_dedup d w) = queueOf t w.
Proof. by destruct t. Qed.

(** [indexed] only looks at the waiting lists and the de-duplicator. *)
Lemma indexed_ext w w' :
  waiting (manualSyncQueue w') = waiting (manualSyncQueue w) →
  waiting (recurringSyncQueue w') = waiting (recurringSyncQueue w) →
  syncDeDuplicator w' = syncDeDuplicator w →
  indexed w → indexed w'.
Proof.
  intros Hm Hr Hd H t. specialize (H t). rewrite Hd.
  destruct t; simpl in *; by rewrite ?Hm, ?Hr.
Qed.

Lemma indexed_log e : maintains indexed (log e).
Proof. intros w. by apply indexed_ext. Qed.

Lemma indexed_no_pending w t fp :
  indexed w → syncDeDuplicator w !! fp = None →
  fp ∉ jobFingerprint t <$> waiting (queueOf t w).
Proof.
  intros H Hnone Hin. apply list_elem_of_fmap in Hin as (job & -> & Hjob).
  apply (H t) in Hjob. congruence.
Qed.

Lemma indexed_enqueueSync c a : maintains indexed (enqueueSync c a).
Proof.
  intros w H.
  destruct (syncDeDuplicator w !! (syncType a, userWallet a, secondaryEndpoint a))
    as [info|] eqn:E.
  - rewrite (enqueueSync_duplicate _ _ _ _ E). by apply (indexed_ext w).
  - destruct (brokerAccepts c (syncType a) (job_data (syncJob 0 a (dateNow w)))) eqn:Hb.
    + rewrite (enqueueSync_fresh _ _ _ E Hb). simpl.
      set (fp := (syncType a, userWallet a, secondaryEndpoint a)) in *.
      set (job := syncJob _ a (dateNow w)).
      intros t. destruct (H t) as [Hnd Hidx].
      rewrite queueOf_set_dedup, queueOf_set_queueOf. simpl.
      destruct (decide (t = syncType a)) as [->|Hne]; simpl.
      * split.
        -- rewrite fmap_app. simpl. apply NoDup_app. split; [done|]. split.
           ++ intros x Hx Hx'. apply list_elem_of_singleton in Hx'. subst x.
              by apply (indexed_no_pending w (syncType a) fp H E).
           ++ apply NoDup_singleton.
        -- intros j Hj. apply elem_of_app in Hj as [Hj|Hj].
           ++ rewrite lookup_insert_ne; [by apply Hidx|].
              intros Heq. apply (indexed_no_pending w (syncType a) fp H E).
              rewrite Heq. by apply list_elem_of_fmap_2.
           ++ apply list_elem_of_singleton in Hj. subst j. apply lookup_insert_eq.
      * split; [done|]. intros j Hj. rewrite lookup_insert_ne; [by apply Hidx|].
        unfold fp, jobFingerprint. intros [= ? _ _]. done.
    + by rewrite (enqueueSync_rejected _ _ _ E Hb).
Qed.

Lemma indexed_issueUpdateReplicaSetOp c userId wl p s1 s2 unhealthy :
  maintains indexed (issueUpdateReplicaSetOp c userId wl p s1 s2 unhealthy).
Proof.
  pose proof indexed_log. pose proof indexed_enqueueSync.
  unfold issueUpdateReplicaSetOp.
  apply maintains_bind; [auto|intros _].
  apply maintains_withLocal, maintains_tryCatch; [|auto with maintains].
  unfold issueUpdateReplicaSetOp_try.
  apply maintains_bind; [apply (maintains_assign indexed)|intros _].
  apply maintains_bind; [apply maintains_await|intros r].
  apply maintains_bind.
  - destruct (filter _ _) as [|h0 [|h1 [|h2 l]]].
    + repeat (apply maintains_bind; [auto with maintains|intros ?]). auto with maintains.
    + repeat (apply maintains_bind; [auto with maintains|intros ?]). auto with maintains.
    + apply maintains_bind; [auto with maintains|intros _].
      apply maintains_bind; [auto with maintains|intros clocks].
      destruct (js_ge _ _);
        repeat (apply maintains_bind; [auto with maintains|intros ?]); auto with maintains.
    + auto with maintains.
  - intros [ids|]; (apply maintains_bind; [auto with maintains|intros _]);
      [|auto with maintains].
    apply maintains_bind; [auto with maintains|intros _].
    apply (maintains_liftW indexed), maintains_modify. intros w. by apply indexed_ext.
Qed.

(** Taking the oldest job off the waiting list and erasing its fingerprint
    keeps the other pending jobs indexed. *)
Lemma indexed_activate t job rest w :
  indexed w →
  waiting (queueOf t w) = job :: rest →
  let w1 := set_queueOf t {| counter := counter (queueOf t w);
                             waiting := rest;
                             active := active (queueOf t w) ++ [job] |} w in
  let params := syncRequestParameters (job_data job) in
  indexed (set_dedup (SyncDeDuplicator.removeSync t
                        (default "undefined" (head (srd_wallet (data params))))
                        (baseURL params) (syncDeDuplicator w1)) w1).
Proof.
  intros H E w1 params t'. destruct (H t') as [Hnd Hidx]. subst w1.
  rewrite queueOf_set_dedup, queueOf_set_queueOf, dedup_set_queueOf.
  unfold SyncDeDuplicator.removeSync.
  change (t, default "undefined" (head (srd_wallet (data params))), baseURL params)
    with (jobFingerprint t job).
  cbn [syncDeDuplicator set_dedup].
  destruct (decide (t' = t)) as [->|Hne]; cbn [waiting].
  - rewrite E in Hnd, Hidx. rewrite fmap_cons in Hnd.
    apply NoDup_cons in Hnd as [Hnotin Hnd].
    split; [done|]. intros j Hj. rewrite lookup_delete_ne.
    + apply Hidx. by right.
    + intros Heq. apply Hnotin. rewrite Heq. by apply list_elem_of_fmap_2.
  - split; [done|]. intros j Hj. rewrite lookup_delete_ne; [by apply Hidx|].
    unfold jobFingerprint. intros [= ? _ _]. done.
Qed.

Lemma indexed_processNextJob c t : maintains indexed (processNextJob c t).
Proof.
  intros w Hw. unfold processNextJob.
  change ((gets (queueOf t) ≫= ?k) w) with (k (queueOf t w) w). cbv beta.
  destruct (waiting (queueOf t w)) as [|job rest] eqn:E; [exact Hw|].
  match goal with |- indexed ((modify ?f ≫= ?k) w).2 =>
    change ((modify f ≫= k) w) with (k tt (f w)) end.
  cbv beta. unfold processSyncOperation.
  match goal with |- indexed ((tryCatch (modify ?f ≫= ?k) ?h ≫= ?k') ?w1).2 =>
    change ((tryCatch (modify f ≫= k) h ≫= k') w1)
      with ((tryCatch (k tt) h ≫= k') (f w1))
  end.
  cbv beta.
  pose proof (indexed_activate t job rest w Hw E) as Hact. cbv zeta in Hact.
  revert Hact.
  match goal with |- indexed ?w2 → indexed (?m ?w2).2 =>
    generalize w2; change (maintains indexed m) end.
  pose proof indexed_log. pose proof indexed_enqueueSync.
  apply maintains_bind.
  - apply maintains_tryCatch; [|auto].
    apply maintains_bind; [auto with maintains|intros clocks].
    apply maintains_bind; [auto|intros _].
    apply maintains_bind; [auto with maintains|intros _].
    apply maintains_bind; [auto with maintains|intros startTimeMs].
    destruct (additionalSyncIsRequired _ _ _ _ _ _) as [[required lines] finished].
    apply maintains_bind.
    { apply maintains_modify. intros w'. by apply indexed_ext. }
    intros _. apply maintains_bind; [|auto].
    destruct required; auto with maintains.
  - intros _. apply maintains_modify. intros w' Hw' t'. specialize (Hw' t').
    rewrite queueOf_set_queueOf, dedup_set_queueOf.
    destruct (decide (t' = t)) as [->|]; done.
Qed.

Lemma filter_none {A} (P : A → Prop) `{∀ x, Decision (P x)} (l : list A) :
  (∀ x, x ∈ l → ¬ P x) → filter P l = [].
Proof.
  induction l as [|x l IH]; intros Hl; [done|].
  rewrite filter_cons_False; [|apply Hl; by left].
  apply IH. intros y Hy. apply Hl. by right.
Qed.

Lemma filter_fingerprint_le_1 t fp (l : list Job) :
  NoDup (jobFingerprint t <$> l) →
  (length (filter (λ job, jobFingerprint t job = fp) l) ≤ 1)%nat.
Proof.
  induction l as [|j l IH]; simpl; [lia|].
  intros [Hnotin Hnd]%NoDup_cons. specialize (IH Hnd).
  rewrite filter_cons. case_decide as Hj; [|done]. simpl.
  rewrite filter_none; [simpl; lia|].
  intros x Hx Hfx. apply Hnotin. rewrite Hj, <- Hfx. by apply list_elem_of_fmap_2.
Qed.

Lemma filter_fingerprint_other t fp (l : list Job) :
  fp.1.1 ≠ t → filter (λ job, jobFingerprint t job = fp) l = [].
Proof.
  intros Hne. apply filter_none. intros j _ Hj. apply Hne. by rewrite <- Hj.
Qed.

Lemma indexed_pendingCount w fp : indexed w → (pendingCount fp w ≤ 1)%nat.
Proof.
  intros H. unfold pendingCount.
  pose proof (filter_fingerprint_le_1 Manual fp _ (proj1 (H Manual))) as Hm.
  pose proof (filter_fingerprint_le_1 Recurring fp _ (proj1 (H Recurring))) as Hr.
  simpl in Hm, Hr.
  destruct fp as [[[] wl] sec].
  - rewrite (filter_fingerprint_other Manual); [|done]. cbn [length]. lia.
  - rewrite (filter_fingerprint_other Recurring); [|done]. cbn [length]. lia.
Qed.

Lemma sequentially_indexed c w : sequentially c w → indexed w.
Proof.
  induction 1 as [w Hm Hr|a w _ IH|t w _ IH|userId wl p s1 s2 unhealthy w _ IH].
  - intros []; simpl; rewrite ?Hm, ?Hr; (split; [constructor|]);
      intros job Hj; by apply elem_of_nil in Hj.
  - by apply indexed_enqueueSync.
  - by apply indexed_processNextJob.
  - by apply indexed_issueUpdateReplicaSetOp.
Qed.

(** As long as calls do not overlap, every fingerprint has at most one
    pending job, and a pending job is the handle that [enqueueSync] returns
    for its fingerprint. *)
Lemma sequentially_one_pending_job c w fp :
  sequentially c w → (pendingCount fp w ≤ 1)%nat.
Proof. intros H. by apply indexed_pendingCount, (sequentially_indexed c). Qed.

Lemma sequentially_pending_handle c w a job :
  sequentially c w →
  job ∈ waiting (queueOf (syncType a) w) →
  jobFingerprint (syncType a) job = (syncType a, userWallet a, secondaryEndpoint a) →
  (enqueueSync c a w).1 = Returns job.
Proof.
  intros Hseq Hjob Hfp. apply sequentially_indexed in Hseq.
  apply (Hseq (syncType a)) in Hjob. rewrite Hfp in Hjob.
  by rewrite (enqueueSync_duplicate _ _ _ _ Hjob).
Qed.

(** * Further properties of the code *)

(** ** The shard selector *)

Lemma sliceUsers_elem slice nodeUsers u :
  u ∈ sliceUsers slice nodeUsers ↔ u ∈ nodeUsers ∧ Z.rem (user_id u) ModuloBase = slice.
Proof. unfold sliceUsers. rewrite list_elem_of_filter. tauto. Qed.

(** X1.  A listed user is picked up by one of the 24 slices exactly when
    its id is non-negative or a multiple of 24, and then by one slice only:
    a full cycle of the selector visits such a user once, and a user with a
    negative id that is no multiple of 24 is never processed. *)
Theorem sliceUsers_visits_each_user_in_one_slice (nodeUsers : list NodeUser) (u : NodeUser) :
  u ∈ nodeUsers →
  ((∃ slice, (0 ≤ slice < 24)%Z ∧ u ∈ sliceUsers slice nodeUsers)
   ↔ (0 ≤ user_id u)%Z ∨ Z.rem (user_id u) 24 = 0%Z)
  ∧ (∀ slice slice', u ∈ sliceUsers slice nodeUsers →
                     u ∈ sliceUsers slice' nodeUsers → slice = slice').
Proof.
  intros Hu. split; [split|].
  - intros (slice & Hs & [_ Hrem]%sliceUsers_elem). unfold ModuloBase in Hrem.
    destruct (decide (0 ≤ user_id u)%Z) as [|Hneg]; [by left|right].
    pose proof (Z.rem_nonpos (user_id u) 24 ltac:(lia) ltac:(lia)). lia.
  - intros H. exists (Z.rem (user_id u) 24). split.
    + destruct H as [H|H]; [|lia].
      pose proof (Z.rem_bound_pos (user_id u) 24 H ltac:(lia)). lia.
    + by apply sliceUsers_elem.
  - intros slice slice' [_ H]%sliceUsers_elem [_ H']%sliceUsers_elem. congruence.
Qed.

Lemma sliceUsers_visits_each_user_in_one_slice_witness :
  (∃ slice, (0 ≤ slice < 24)%Z
            ∧ Scenario.user 53 "0xabc" ∈ sliceUsers slice [Scenario.user 53 "0xabc"])
  ↔ (0 ≤ 53)%Z ∨ Z.rem 53 24 = 0%Z.
Proof.
  exact (proj1 (sliceUsers_visits_each_user_in_one_slice [Scenario.user 53 "0xabc"]
                  (Scenario.user 53 "0xabc") ltac:(apply list_elem_of_singleton; reflexivity))).
Defined.

(** X2.  The selector never leaves its range: from a slice in [0, 24) an
    iteration, completed or aborted, ends with a slice in [0, 24). *)
Theorem slice_stays_in_range (c : Collaborators) (w : World) :
  (0 ≤ currentModuloSlice w < 24)%Z →
  (0 ≤ currentModuloSlice (processStateMachineOperation c w).2 < 24)%Z.
Proof.
  intros H. rewrite slice_processStateMachineOperation.
  destruct (processStateMachineOperation_try c (w, entryLocals w)).1; [|done].
  unfold ModuloBase.
  pose proof (Z.rem_bound_pos (currentModuloSlice w + 1) 24 ltac:(lia) ltac:(lia)). lia.
Qed.

Lemma slice_stays_in_range_witness :
  (0 ≤ currentModuloSlice
         (processStateMachineOperation (Scenario.steady 10 10) Scenario.idle).2 < 24)%Z.
Proof.
  exact (slice_stays_in_range (Scenario.steady 10 10) Scenario.idle
           ltac:(vm_compute; split; [discriminate|reflexivity])).
Defined.

(** ** Bounds on a monitoring run *)

Lemma clockRequests_app l1 l2 :
  clockRequests (l1 ++ l2) = (clockRequests l1 + clockRequests l2)%nat.
Proof. unfold clockRequests. by rewrite filter_app, length_app. Qed.

Lemma monitorRound_one_request c wl P sec startTimeMs now n :
  clockRequests (monitorRound c wl P sec startTimeMs now n).2 = 1%nat.
Proof.
  unfold monitorRound. destruct (clockStatus c sec wl n); [|done].
  destruct (js_lt _ _); [done|]. by destruct (js_ge _ _).
Qed.

Lemma monitorLoop_requests_bound c wl P sec startTimeMs endTimeMs now n logged :
  let result := monitorLoop c wl P sec startTimeMs endTimeMs now n logged in
  (Z.of_nat (clockRequests result.1.2)
   ≤ Z.of_nat (clockRequests logged) + Z.max 0 ((endTimeMs - now + 14999) / 15000))%Z.
Proof.
  funelim (monitorLoop c wl P sec startTimeMs endTimeMs now n logged); simpl.
  - lia.
  - rewrite clockRequests_app.
    match type of Heq with monitorRound ?c ?wl ?P ?sec ?s ?t ?n = _ =>
      pose proof (monitorRound_one_request c wl P sec s t n) as H1 end.
    rewrite Heq in H1. simpl in H1. rewrite H1.
    assert (1 ≤ (endTimeMs - now + 14999) / 15000)%Z by (apply Z.div_le_lower_bound; lia).
    lia.
  - simpl in H. rewrite clockRequests_app in H.
    match type of Heq with monitorRound ?c ?wl ?P ?sec ?s ?t ?n = _ =>
      pose proof (monitorRound_one_request c wl P sec s t n) as H1 end.
    rewrite Heq in H1. simpl in H1. rewrite H1 in H.
    unfold SyncMonitoringRetryDelayMs in *.
    assert (1 ≤ (endTimeMs - now + 14999) / 15000)%Z by (apply Z.div_le_lower_bound; lia).
    assert ((endTimeMs - (now + Z.of_N (latency c n) + 15000 + Z.of_N (timerLag c n)) + 14999)
              / 15000 ≤ (endTimeMs - now + 14999) / 15000 - 1)%Z.
    { replace ((endTimeMs - now + 14999) / 15000 - 1)%Z
        with ((endTimeMs - now + 14999 + (-1) * 15000) / 15000)%Z
        by (rewrite Z.div_add; lia).
      apply Z.div_le_mono; lia. }
    lia.
Qed.

(** X3.  A monitoring run sends at most 24 clock requests, whatever the
    secondary answers and however long the answers take: each round lasts
    at least the retry delay of 15 s and none starts after 6 min. *)
Theorem additionalSyncIsRequired_sends_at_most_24_requests (c : Collaborators)
    (wl : string) (P : option Z) (sec : option string) (t : SyncType) (startTimeMs : Z) :
  (clockRequests (additionalSyncIsRequired c wl P sec t startTimeMs).1.2 ≤ 24)%nat.
Proof.
  unfold additionalSyncIsRequired, MaxSyncMonitoringDurationInMs.
  pose proof (monitorLoop_requests_bound c wl P sec startTimeMs (startTimeMs + 360000)
                startTimeMs 0 []) as H.
  simpl in H.
  replace (startTimeMs + 360000 - startTimeMs + 14999)%Z with 374999%Z in H by lia.
  change (374999 / 15000)%Z with 24%Z in H. unfold clockRequests at 2 in H. simpl in H. lia.
Qed.

Lemma monitorLoop_without_primary_clock c wl sec startTimeMs endTimeMs now n logged :
  Forall (λ line, ∀ k e, line ≠ LogSyncCompleted wl sec k e
                          ∧ line ≠ LogMaxExportExceeded wl sec k) logged →
  let result := monitorLoop c wl None sec startTimeMs endTimeMs now n logged in
  result.1.1 = true
  ∧ Forall (λ line, ∀ k e, line ≠ LogSyncCompleted wl sec k e
                            ∧ line ≠ LogMaxExportExceeded wl sec k) result.1.2.
Proof.
  funelim (monitorLoop c wl None sec startTimeMs endTimeMs now n logged); simpl;
    intros Hlogged.
  - done.
  - unfold monitorRound in Heq. destruct (clockStatus c _ _ n); simpl in Heq; done.
  - apply H. apply Forall_app. split; [done|].
    unfold monitorRound in Heq. destruct (clockStatus c _ _ n); simpl in Heq;
      inversion Heq; subst; by repeat constructor.
Qed.

(** X4.  When the primary clock is undefined (the user has no row in the
    local database) no sample can settle the comparison: the monitor polls
    until the deadline and always answers "additional sync required",
    without ever logging a completed sync or an exceeded range. *)
Theorem additionalSyncIsRequired_without_primary_clock (c : Collaborators)
    (wl : string) (sec : option string) (t : SyncType) (startTimeMs : Z) :
  let result := additionalSyncIsRequired c wl None sec t startTimeMs in
  result.1.1 = true
  ∧ ∀ line, line ∈ result.1.2 →
            ∀ k e, line ≠ LogSyncCompleted wl sec k e ∧ line ≠ LogMaxExportExceeded wl sec k.
Proof.
  unfold additionalSyncIsRequired. simpl.
  pose proof (monitorLoop_without_primary_clock c wl sec startTimeMs
                (startTimeMs + MaxSyncMonitoringDurationInMs) startTimeMs 0 []) as H.
  destruct H as [H1 H2]; [constructor|].
  split; [done|]. exact (proj1 (Forall_forall _ _) H2).
Qed.

(** ** The planning loop *)

Lemma plan_secondaries sick u (secondaries : list (option string)) unhealthy0 potential0 :
  foldl (λ '(unhealthyReplicas, potential) secondary,
           if unhealthyPeersHas sick secondary
           then (unhealthyReplicas ++ [secondary], potential)
           else (unhealthyReplicas,
                 potential ++ [{| psr_user := u; psr_endpoint := secondary |}]))
        (unhealthy0, potential0) secondaries
  = (unhealthy0 ++ filter (λ s, unhealthyPeersHas sick s) secondaries,
     potential0 ++ ((λ s, {| psr_user := u; psr_endpoint := s |})
                      <$> filter (λ s, ¬ unhealthyPeersHas sick s) secondaries)).
Proof.
  revert unhealthy0 potential0.
  induction secondaries as [|s l IH]; intros unhealthy0 potential0; simpl.
  - by rewrite !app_nil_r.
  - rewrite !filter_cons. destruct (unhealthyPeersHas sick s) eqn:E; rewrite IH.
    + rewrite decide_True, decide_False by (rewrite ?E; simpl; tauto).
      by rewrite <- app_assoc.
    + rewrite decide_False, decide_True by (rewrite ?E; simpl; tauto).
      rewrite fmap_cons. by rewrite <- app_assoc.
Qed.

Lemma planNodeUser_step c sick acc u :
  planNodeUser c sick acc u
  = if decide (primary u = Some (endpoint c)) then
      (acc.1 ++ [{| op_user := u;
                    op_unhealthyReplicas :=
                      filter (λ s, unhealthyPeersHas sick s)
                        (filter truthy [secondary1 u; secondary2 u]) |}],
       acc.2 ++ ((λ s, {| psr_user := u; psr_endpoint := s |})
                   <$> filter (λ s, ¬ unhealthyPeersHas sick s)
                         (filter truthy [secondary1 u; secondary2 u])))
    else
      (acc.1 ++ [{| op_user := u;
                    op_unhealthyReplicas :=
                      filter (unhealthyPeersHas sick)
                        (filter (λ replica, replica ≠ Some (endpoint c))
                           (filter truthy [primary u; secondary1 u; secondary2 u])) |}],
       acc.2).
Proof.
  destruct acc as [ops potential]. unfold planNodeUser.
  destruct (decide (primary u = Some (endpoint c))); [|done].
  by rewrite plan_secondaries.
Qed.

Lemma planNodeUser_appends c sick acc u :
  planNodeUser c sick acc u
  = (acc.1 ++ (planNodeUser c sick ([], []) u).1,
     acc.2 ++ (planNodeUser c sick ([], []) u).2).
Proof.
  rewrite !planNodeUser_step. destruct (decide _); simpl; [done|].
  by rewrite app_nil_r.
Qed.

Lemma planNodeUsers_fold c sick users acc :
  foldl (planNodeUser c sick) acc users
  = (acc.1 ++ (users ≫= λ u, (planNodeUser c sick ([], []) u).1),
     acc.2 ++ (users ≫= λ u, (planNodeUser c sick ([], []) u).2)).
Proof.
  revert acc. induction users as [|u users IH]; intros acc; simpl.
  - rewrite !app_nil_r. by destruct acc.
  - rewrite IH, planNodeUser_appends. simpl. by rewrite <- !app_assoc.
Qed.

Lemma planNodeUsers_eq c sick users :
  planNodeUsers c sick users
  = (users ≫= λ u, (planNodeUser c sick ([], []) u).1,
     users ≫= λ u, (planNodeUser c sick ([], []) u).2).
Proof. unfold planNodeUsers. by rewrite planNodeUsers_fold. Qed.

(** X5.  The planning loop records one reconfiguration check per user of
    the slice, in order, healthy or not.  The replicas a check reports as
    unhealthy are exactly the set slots (not undefined, not empty) that
    failed the health probe: among the two secondaries when this node is
    the user's primary, and among all three replicas other than this node
    otherwise.  An absent slot is never reported. *)
Theorem plan_checks_every_user (c : Collaborators) (sick : gset string)
    (nodeUsers : list NodeUser) :
  let ops := (planNodeUsers c sick nodeUsers).1 in
  op_user <$> ops = nodeUsers
  ∧ ∀ op x, op ∈ ops →
      (x ∈ op_unhealthyReplicas op
       ↔ truthy x ∧ unhealthyPeersHas sick x
         ∧ if decide (primary (op_user op) = Some (endpoint c))
           then x ∈ [secondary1 (op_user op); secondary2 (op_user op)]
           else x ≠ Some (endpoint c)
                ∧ x ∈ [primary (op_user op); secondary1 (op_user op);
                       secondary2 (op_user op)]).
Proof.
  rewrite planNodeUsers_eq. cbn [fst]. split.
  - induction nodeUsers as [|u l IH]; [done|]. rewrite bind_cons, fmap_app, IH.
    rewrite planNodeUser_step. by destruct (decide _).
  - intros op x (u & Hop & Hu)%list_elem_of_bind.
    rewrite planNodeUser_step in Hop.
    destruct (decide (primary u = Some (endpoint c))) as [Hp|Hp]; cbn [fst app] in Hop;
      apply list_elem_of_singleton in Hop; subst op; cbn [op_user op_unhealthyReplicas].
    + rewrite decide_True by done. rewrite !list_elem_of_filter. tauto.
    + rewrite decide_False by done. rewrite !list_elem_of_filter. tauto.
Qed.

(** X6.  A potential sync request is built for exactly the pairs (user,
    secondary) in which this node is the user's primary and the secondary
    is a set slot that passed the health probe.  A secondary is thus never
    both reported unhealthy and offered a sync, and a node that is only a
    secondary of a user never offers one. *)
Theorem plan_offers_syncs_to_healthy_secondaries (c : Collaborators) (sick : gset string)
    (nodeUsers : list NodeUser) (r : PotentialSyncRequest) :
  r ∈ (planNodeUsers c sick nodeUsers).2
  ↔ psr_user r ∈ nodeUsers
    ∧ primary (psr_user r) = Some (endpoint c)
    ∧ psr_endpoint r ∈ [secondary1 (psr_user r); secondary2 (psr_user r)]
    ∧ truthy (psr_endpoint r)
    ∧ ¬ unhealthyPeersHas sick (psr_endpoint r).
Proof.
  rewrite planNodeUsers_eq. cbn [snd].
  rewrite list_elem_of_bind. split.
  - intros (u & Hr & Hu). rewrite planNodeUser_step in Hr.
    destruct (decide (primary u = Some (endpoint c))) as [Hp|Hp]; cbn [snd app] in Hr;
      [|by apply elem_of_nil in Hr].
    apply list_elem_of_fmap in Hr as (s & -> & Hs). cbn [psr_user psr_endpoint].
    rewrite !list_elem_of_filter in Hs. tauto.
  - intros (Hu & Hp & Hs & Ht & Hh). exists (psr_user r). split; [|done].
    rewrite planNodeUser_step, decide_True by done. cbn [snd app].
    apply list_elem_of_fmap. exists (psr_endpoint r). split; [by destruct r|].
    rewrite !list_elem_of_filter. tauto.
Qed.

(** ** The clock maps *)

Lemma buildSecondaryNodesToUserWalletsMap_fold reqs (m : gmap string (list string)) k :
  foldl (λ (m : gmap string (list string)) userInfo,
           let secondary := prop_key (psr_endpoint userInfo) in
           <[secondary := default [] (m !! secondary) ++ [wallet (psr_user userInfo)]]> m)
        m reqs !! k
  = match (λ r, wallet (psr_user r))
            <$> filter (λ r, prop_key (psr_endpoint r) = k) reqs with
    | [] => m !! k
    | ws => Some (default [] (m !! k) ++ ws)
    end.
Proof.
  revert m. induction reqs as [|r reqs IH]; intros m; [done|].
  cbn [foldl]. rewrite IH. cbv zeta. rewrite filter_cons.
  destruct (decide (prop_key (psr_endpoint r) = k)) as [->|Hne].
  - rewrite lookup_insert_eq, fmap_cons. cbn [default].
    destruct (_ <$> filter _ reqs); [done|]. cbv [id]. by rewrite <- app_assoc.
  - by rewrite lookup_insert_ne.
Qed.

(** X7.  The map handed to the batched clock requests has one entry per
    secondary that occurs as the target of a potential sync request, and
    nothing else; the entry lists the wallets of the requests for that
    secondary, in the order of the requests, with repetitions kept. *)
Theorem buildSecondaryNodesToUserWalletsMap_groups_by_secondary
    (potentialSyncRequests : list PotentialSyncRequest) (secondary : string) :
  buildSecondaryNodesToUserWalletsMap potentialSyncRequests !! secondary
  = match (λ r, wallet (psr_user r))
            <$> filter (λ r, prop_key (psr_endpoint r) = secondary) potentialSyncRequests with
    | [] => None
    | wallets => Some wallets
    end.
Proof.
  unfold buildSecondaryNodesToUserWalletsMap.
  rewrite buildSecondaryNodesToUserWalletsMap_fold, lookup_empty. done.
Qed.

Lemma retrieveClockStatuses_spec c nodes acc :
  NoDup nodes.*1 →
  match retrieveClockStatuses c nodes acc with
  | Returns m' =>
      (∀ k ws, (k, ws) ∈ nodes →
               ∃ resp, batchClockStatus c k ws = Returns resp
                       ∧ m' !! k = Some (foldl (λ m r, <[r.1 := r.2]> m) ∅ resp))
      ∧ (∀ k, k ∉ nodes.*1 → m' !! k = acc !! k)
  | Throws e => ∃ k ws, (k, ws) ∈ nodes ∧ batchClockStatus c k ws = Throws e
  end.
Proof.
  revert acc. induction nodes as [|[k ws] nodes IH]; intros acc Hnd.
  - simpl. split; [|done]. intros k ws H. by apply elem_of_nil in H.
  - cbn [retrieveClockStatuses]. rewrite fmap_cons in Hnd.
    apply NoDup_cons in Hnd as [Hk Hnd].
    destruct (batchClockStatus c k ws) as [resp|e] eqn:E.
    + specialize (IH (<[k := foldl (λ m r, <[r.1 := r.2]> m) ∅ resp]> acc) Hnd).
      destruct (retrieveClockStatuses c nodes _) as [m'|e'].
      * destruct IH as [IH1 IH2]. split.
        -- intros k' ws' [H|H]%elem_of_cons.
           ++ injection H as -> ->. exists resp. split; [done|].
              rewrite IH2 by done. apply lookup_insert_eq.
           ++ by apply IH1.
        -- intros k' Hk'. rewrite fmap_cons in Hk'.
           apply not_elem_of_cons in Hk' as [Hne Hk'].
           rewrite IH2 by done. by rewrite lookup_insert_ne.
      * destruct IH as (k' & ws' & H & He). exists k', ws'. split; [by right|done].
    + exists k, ws. split; [by left|done].
Qed.

(** X8.  The batched clock fetch is all or nothing.  When it returns, the
    result has an entry for every secondary of its argument and for no
    other key, each built from that secondary's response; when it throws,
    the request to one of the secondaries failed with that error.  (So in
    an iteration the lookup of a secondary in [issueSyncRequests] cannot
    miss.) *)
Theorem retrieveClockStatuses_all_or_nothing (c : Collaborators)
    (secondaryNodesToUserWalletsMap : gmap string (list string)) :
  match retrieveClockStatusesForSecondaryUsersFromNodes c secondaryNodesToUserWalletsMap with
  | Returns m' =>
      dom m' = dom secondaryNodesToUserWalletsMap
      ∧ ∀ secondary wallets,
          secondaryNodesToUserWalletsMap !! secondary = Some wallets →
          ∃ resp, batchClockStatus c secondary wallets = Returns resp
                  ∧ m' !! secondary = Some (foldl (λ m r, <[r.1 := r.2]> m) ∅ resp)
  | Throws e =>
      ∃ secondary wallets,
        secondaryNodesToUserWalletsMap !! secondary = Some wallets
        ∧ batchClockStatus c secondary wallets = Throws e
  end.
Proof.
  unfold retrieveClockStatusesForSecondaryUsersFromNodes.
  pose proof (retrieveClockStatuses_spec c (map_to_list secondaryNodesToUserWalletsMap) ∅
                (NoDup_fst_map_to_list _)) as H.
  destruct (retrieveClockStatuses c _ ∅) as [m'|e].
  - destruct H as [H1 H2].
    assert (Hall : ∀ k ws, secondaryNodesToUserWalletsMap !! k = Some ws →
              ∃ resp, batchClockStatus c k ws = Returns resp
                      ∧ m' !! k = Some (foldl (λ m r, <[r.1 := r.2]> m) ∅ resp)).
    { intros k ws Hk. apply H1. by apply elem_of_map_to_list. }
    split; [|done]. apply set_eq. intros k. rewrite !elem_of_dom. split.
    + intros Hm'. destruct (secondaryNodesToUserWalletsMap !! k) eqn:Ek; [done|].
      rewrite H2, lookup_empty in Hm'; [by destruct Hm'|].
      intros ((k' & ws) & -> & Hin)%list_elem_of_fmap.
      apply elem_of_map_to_list in Hin. simpl in Ek. congruence.
    + intros [ws Hk]. destruct (Hall k ws Hk) as (resp & _ & ->). done.
  - destruct H as (k & ws & Hin & He). exists k, ws.
    split; [by apply elem_of_map_to_list|done].
Qed.

Lemma foldl_insert_lookup (rows : list (string * Z)) (m : gmap string Z) w :
  foldl (λ o k, <[k.1 := k.2]> o) m rows !! w
  = match last (filter (λ r, r.1 = w) rows) with
    | Some r => Some r.2
    | None => m !! w
    end.
Proof.
  revert m. induction rows as [|r rows IH]; intros m; [done|].
  cbn [foldl]. rewrite IH, filter_cons.
  destruct (decide (r.1 = w)) as [<-|Hne].
  - rewrite lookup_insert_eq. clear IH. destruct (filter _ rows) as [|x l]; [done|].
    cbn [last]. destruct (last (x :: l)) eqn:E; [done|]. by apply last_None in E.
  - by rewrite lookup_insert_ne.
Qed.

(** X9.  The clocks of this node's users: a database error is passed on;
    otherwise a wallet without a row has no clock (undefined), and for a
    wallet with several rows the clock of the last row stands. *)
Theorem getUserPrimaryClockValues_reads_last_row (c : Collaborators)
    (wallets : list string) :
  match findCNodeUsers c wallets with
  | Throws e => getUserPrimaryClockValues c wallets = Throws e
  | Returns rows =>
      ∃ clocks, getUserPrimaryClockValues c wallets = Returns clocks
                ∧ ∀ w, clocks !! w = snd <$> last (filter (λ r, r.1 = w) rows)
  end.
Proof.
  unfold getUserPrimaryClockValues. destruct (findCNodeUsers c wallets) as [rows|e]; [|done].
  eexists. split; [done|]. intros w. rewrite foldl_insert_lookup, lookup_empty.
  by destruct (last _).
Qed.

(** ** The accounting of issueSyncRequests *)

Lemma enqueueSync_start_recurring c wl sec w :
  let result := enqueueSync_start c (recurringSync c wl sec) w in
  manualSyncQueue result.2 = manualSyncQueue w
  ∧ ursm result.2 = ursm w
  ∧ waiting (recurringSyncQueue w) `prefix_of` waiting (recurringSyncQueue result.2)
  ∧ ((∀ t props, brokerAccepts c t props = true) → settles result.1).
Proof.
  unfold enqueueSync_start, queueAdd. simpl.
  destruct (SyncDeDuplicator.getDuplicateSyncJobInfo _ _ _ _); simpl; [done|].
  destruct (brokerAccepts c Recurring _) eqn:E; simpl.
  - repeat split; [by apply prefix_app_r|]. intros _. eauto.
  - repeat split; [done|]. intros H. rewrite H in E. done.
Qed.

Lemma enqueueSync_resume_frame s w :
  let result := enqueueSync_resume s w in
  manualSyncQueue result.2 = manualSyncQueue w
  ∧ recurringSyncQueue result.2 = recurringSyncQueue w
  ∧ ursm result.2 = ursm w
  ∧ (settles s → ∃ job, result.1 = Returns job).
Proof.
  destruct s as [info|a [job|e]]; simpl; repeat split; eauto.
Qed.

Lemma issueSyncRequest_start_step c clocks m w resp suspended u :
  issueSyncRequest_start c clocks m (w, resp, suspended) u
  = match m !! prop_key (psr_endpoint u) with
    | None =>
        (w,
         {| numSyncRequestsRequired := numSyncRequestsRequired resp;
            numSyncRequestsIssued := numSyncRequestsIssued resp;
            syncRequestErrors := syncRequestErrors resp
              ++ [(u, "Cannot read property of undefined")] |},
         suspended)
    | Some nodeClocks =>
        if syncRequired (clocks !! wallet (psr_user u)) (nodeClocks !! wallet (psr_user u))
        then
          let started :=
            enqueueSync_start c (recurringSync c (wallet (psr_user u)) (psr_endpoint u)) w in
          (started.2,
           {| numSyncRequestsRequired := numSyncRequestsRequired resp + 1;
              numSyncRequestsIssued := numSyncRequestsIssued resp;
              syncRequestErrors := syncRequestErrors resp |},
           suspended ++ [(u, started.1)])
        else (w, resp, suspended)
    end.
Proof.
  unfold issueSyncRequest_start. destruct (m !! _); [|done].
  destruct (syncRequired _ _); [|done]. by destruct (enqueueSync_start _ _ _).
Qed.

Lemma issueSyncRequest_start_fold c clocks m users w resp suspended :
  let st := foldl (issueSyncRequest_start c clocks m) (w, resp, suspended) users in
  manualSyncQueue st.1.1 = manualSyncQueue w
  ∧ ursm st.1.1 = ursm w
  ∧ waiting (recurringSyncQueue w) `prefix_of` waiting (recurringSyncQueue st.1.1)
  ∧ numSyncRequestsIssued st.1.2 = numSyncRequestsIssued resp
  ∧ (numSyncRequestsRequired st.1.2 - numSyncRequestsRequired resp
     = len st.2 - len suspended)%Z
  ∧ syncRequestErrors st.1.2
    = syncRequestErrors resp
      ++ ((λ u, (u, "Cannot read property of undefined")) <$> missingClocks m users)
  ∧ (len st.2 - len suspended + len (missingClocks m users) ≤ len users)%Z
  ∧ ((∀ t props, brokerAccepts c t props = true) →
     Forall (λ s, settles s.2) suspended → Forall (λ s, settles s.2) st.2).
Proof.
  revert w resp suspended. induction users as [|u users IH]; intros w resp suspended.
  - simpl. rewrite app_nil_r. repeat split; try done; unfold len; simpl; lia.
  - cbn [foldl]. rewrite issueSyncRequest_start_step, filter_cons.
    destruct (m !! prop_key (psr_endpoint u)) as [nodeClocks|] eqn:E.
    + rewrite decide_False by done.
      destruct (syncRequired _ _).
      * pose proof (enqueueSync_start_recurring c (wallet (psr_user u)) (psr_endpoint u) w)
          as (Hm & Hu & Hp & Hs).
        cbv zeta. destruct (enqueueSync_start c _ w) as [s w1]. simpl in Hm, Hu, Hp, Hs.
        cbn [fst snd].
        specialize (IH w1
          {| numSyncRequestsRequired := numSyncRequestsRequired resp + 1;
             numSyncRequestsIssued := numSyncRequestsIssued resp;
             syncRequestErrors := syncRequestErrors resp |} (suspended ++ [(u, s)])).
        cbv zeta in IH. destruct IH as (I1 & I2 & I3 & I4 & I5 & I6 & I7 & I8).
        simpl in I4, I5, I6. unfold len in *. rewrite length_app in I5, I7.
        cbn [length] in *.
        repeat split; try congruence; try lia.
        -- by etrans.
        -- intros Hb Hsusp. apply I8; [done|]. apply Forall_app. split; [done|].
           constructor; [by apply Hs|constructor].
      * specialize (IH w resp suspended). cbv zeta in IH.
        destruct IH as (I1 & I2 & I3 & I4 & I5 & I6 & I7 & I8).
        unfold len in *. cbn [length]. repeat split; try done; lia.
    + rewrite decide_True by done.
      specialize (IH w
        {| numSyncRequestsRequired := numSyncRequestsRequired resp;
           numSyncRequestsIssued := numSyncRequestsIssued resp;
           syncRequestErrors := syncRequestErrors resp
             ++ [(u, "Cannot read property of undefined")] |} suspended).
      cbv zeta in IH. destruct IH as (I1 & I2 & I3 & I4 & I5 & I6 & I7 & I8).
      simpl in I4, I5, I6. unfold len in *. cbn [length].
      repeat split; try done; try lia.
      rewrite I6, <- app_assoc. done.
Qed.

Lemma issueSyncRequest_resume_step w resp s :
  issueSyncRequest_resume (w, resp) s
  = ((enqueueSync_resume s.2 w).2,
     match (enqueueSync_resume s.2 w).1 with
     | Returns _ =>
         {| numSyncRequestsRequired := numSyncRequestsRequired resp;
            numSyncRequestsIssued := numSyncRequestsIssued resp + 1;
            syncRequestErrors := syncRequestErrors resp |}
     | Throws e =>
         {| numSyncRequestsRequired := numSyncRequestsRequired resp;
            numSyncRequestsIssued := numSyncRequestsIssued resp;
            syncRequestErrors := syncRequestErrors resp ++ [(s.1, e)] |}
     end).
Proof.
  unfold issueSyncRequest_resume. by destruct (enqueueSync_resume s.2 w) as [[job|e] w1].
Qed.

Lemma issueSyncRequest_resume_fold suspended w resp :
  let st := foldl issueSyncRequest_resume (w, resp) suspended in
  manualSyncQueue st.1 = manualSyncQueue w
  ∧ recurringSyncQueue st.1 = recurringSyncQueue w
  ∧ ursm st.1 = ursm w
  ∧ numSyncRequestsRequired st.2 = numSyncRequestsRequired resp
  ∧ (numSyncRequestsIssued resp ≤ numSyncRequestsIssued st.2
     ∧ len (syncRequestErrors resp) ≤ len (syncRequestErrors st.2))%Z
  ∧ (numSyncRequestsIssued st.2 + len (syncRequestErrors st.2)
     = numSyncRequestsIssued resp + len (syncRequestErrors resp) + len suspended)%Z
  ∧ (Forall (λ s, settles s.2) suspended →
     syncRequestErrors st.2 = syncRequestErrors resp).
Proof.
  revert w resp. induction suspended as [|s suspended IH]; intros w resp.
  - simpl. unfold len. simpl. repeat split; try done; lia.
  - cbn [foldl]. rewrite issueSyncRequest_resume_step.
    pose proof (enqueueSync_resume_frame s.2 w) as (Hm & Hr & Hu & Hs).
    destruct (enqueueSync_resume s.2 w) as [[job|e] w1]; simpl in Hm, Hr, Hu, Hs.
    all: cbn [fst snd].
    + specialize (IH w1 {| numSyncRequestsRequired := numSyncRequestsRequired resp;
                           numSyncRequestsIssued := numSyncRequestsIssued resp + 1;
                           syncRequestErrors := syncRequestErrors resp |}).
      cbv zeta in IH. destruct IH as (I1 & I2 & I3 & I4 & I5 & I6 & I7).
      simpl in I4, I5, I6, I7. unfold len in *. simpl.
      repeat split; try congruence; try lia.
      intros [_ H]%Forall_cons. by apply I7.
    + specialize (IH w1 {| numSyncRequestsRequired := numSyncRequestsRequired resp;
                           numSyncRequestsIssued := numSyncRequestsIssued resp;
                           syncRequestErrors := syncRequestErrors resp ++ [(s.1, e)] |}).
      cbv zeta in IH. destruct IH as (I1 & I2 & I3 & I4 & I5 & I6 & I7).
      simpl in I4, I5, I6, I7. unfold len in *. rewrite length_app in I5, I6. simpl in *.
      repeat split; try congruence; try lia.
      intros [H _]%Forall_cons. destruct (Hs H) as [job [=]].
Qed.

Lemma issueSyncRequests_run c users m w rows :
  findCNodeUsers c ((λ user, wallet (psr_user user)) <$> users) = Returns rows →
  let clocks := foldl (λ o k, <[k.1 := k.2]> o) (∅ : gmap string Z) rows in
  let resp0 := {| numSyncRequestsRequired := 0; numSyncRequestsIssued := 0;
                  syncRequestErrors := [] |} in
  let st1 := foldl (issueSyncRequest_start c clocks m) (w, resp0, []) users in
  let st2 := foldl issueSyncRequest_resume (st1.1.1, st1.1.2) st1.2 in
  issueSyncRequests c users m w = (Returns st2.2, st2.1).
Proof.
  intros H. cbv zeta. unfold issueSyncRequests, getUserPrimaryClockValues. rewrite H.
  unfold mbind, Async_bind, await, issueSyncRequests_all.
  destruct (foldl (issueSyncRequest_start c _ m) _ users) as [[w1 resp1] suspended].
  cbn [fst snd]. by destruct (foldl issueSyncRequest_resume _ suspended).
Qed.

Lemma issueSyncRequests_database_error c users m w e :
  findCNodeUsers c ((λ user, wallet (psr_user user)) <$> users) = Throws e →
  issueSyncRequests c users m w = (Throws e, w).
Proof.
  intros E. unfold issueSyncRequests, getUserPrimaryClockValues. by rewrite E.
Qed.

(** X10.  [issueSyncRequests] throws on a database error only, and then
    before it has touched anything; every failure of a single request is
    collected in [syncRequestErrors] instead. *)
Theorem issueSyncRequests_throws_only_on_database_error (c : Collaborators)
    (userReplicaSets : list PotentialSyncRequest)
    (clocksMap : gmap string (gmap string Z)) (w : World) :
  match findCNodeUsers c ((λ user, wallet (psr_user user)) <$> userReplicaSets) with
  | Throws e => issueSyncRequests c userReplicaSets clocksMap w = (Throws e, w)
  | Returns _ => ∃ resp, (issueSyncRequests c userReplicaSets clocksMap w).1 = Returns resp
  end.
Proof.
  destruct (findCNodeUsers c _) as [rows|e] eqn:E.
  - rewrite (issueSyncRequests_run _ _ _ _ _ E). eauto.
  - apply (issueSyncRequests_database_error _ _ _ _ _ E).
Qed.

(** X11.  The three results of [issueSyncRequests] add up.  With
    [missing] the requests whose secondary has no entry in the clock map:
    required + missing = issued + errors, issued ≤ required, and required
    + missing is at most the number of requests.  When the broker accepts
    every job, each required sync is issued and the errors are exactly
    the missing lookups. *)
Theorem issueSyncRequests_counts_add_up (c : Collaborators)
    (userReplicaSets : list PotentialSyncRequest)
    (clocksMap : gmap string (gmap string Z)) (w : World) (resp : SyncRequestsResp) :
  (issueSyncRequests c userReplicaSets clocksMap w).1 = Returns resp →
  let missing := filter (λ u, clocksMap !! prop_key (psr_endpoint u) = None)
                   userReplicaSets in
  (numSyncRequestsRequired resp + len missing
   = numSyncRequestsIssued resp + len (syncRequestErrors resp))%Z
  ∧ (0 ≤ numSyncRequestsIssued resp ≤ numSyncRequestsRequired resp)%Z
  ∧ (numSyncRequestsRequired resp + len missing ≤ len userReplicaSets)%Z
  ∧ ((∀ t props, brokerAccepts c t props = true) →
     numSyncRequestsIssued resp = numSyncRequestsRequired resp
     ∧ syncRequestErrors resp
       = (λ u, (u, "Cannot read property of undefined")) <$> missing).
Proof.
  intros Hret missing.
  destruct (findCNodeUsers c ((λ user, wallet (psr_user user)) <$> userReplicaSets))
    as [rows|e] eqn:E;
    [|by rewrite (issueSyncRequests_database_error _ _ _ _ _ E) in Hret].
  rewrite (issueSyncRequests_run _ _ _ _ _ E) in Hret. cbn [fst] in Hret.
  injection Hret as <-.
  match goal with |- context [foldl (issueSyncRequest_start c ?clocks clocksMap) ?st _] =>
    pose proof (issueSyncRequest_start_fold c clocks clocksMap userReplicaSets w
                  {| numSyncRequestsRequired := 0; numSyncRequestsIssued := 0;
                     syncRequestErrors := [] |} []) as H1;
    destruct (foldl (issueSyncRequest_start c clocks clocksMap) st userReplicaSets)
      as [[w1 resp1] suspended]
  end.
  cbv zeta in H1. cbn [fst snd] in H1 |- *.
  destruct H1 as (_ & _ & _ & S4 & S5 & S6 & S7 & S8).
  pose proof (issueSyncRequest_resume_fold suspended w1 resp1) as H2. cbv zeta in H2.
  destruct (foldl issueSyncRequest_resume (w1, resp1) suspended) as [w2 resp2].
  cbn [fst snd] in H2 |- *. destruct H2 as (_ & _ & _ & R4 & [R5 R5'] & R6 & R7).
  fold missing in S6, S7. simpl in S4, S5, S6.
  assert (Hlen : len (syncRequestErrors resp1) = len missing).
  { rewrite S6. unfold len. by rewrite length_fmap. }
  unfold len in *. simpl in *.
  split; [lia|]. split; [lia|]. split; [lia|].
  intros Hb. specialize (R7 (S8 Hb ltac:(constructor))). split; [|congruence].
  rewrite R7 in R6. lia.
Qed.

Lemma issueSyncRequests_counts_add_up_witness :
  (1 + len (filter (λ u, Scenario.cn2Silent !! prop_key (psr_endpoint u) = None)
              [Scenario.toCn2])
   = 0 + len [(Scenario.toCn2, "queue.add rejected")])%Z.
Proof.
  exact (proj1
    (issueSyncRequests_counts_add_up Scenario.brokerDown [Scenario.toCn2]
       Scenario.cn2Silent Scenario.idle
       {| numSyncRequestsRequired := 1; numSyncRequestsIssued := 0;
          syncRequestErrors := [(Scenario.toCn2, "queue.add rejected")] |}
       ltac:(vm_compute; reflexivity))).
Defined.

Lemma issueSyncRequests_frame c users m w :
  let w' := (issueSyncRequests c users m w).2 in
  manualSyncQueue w' = manualSyncQueue w
  ∧ ursm w' = ursm w
  ∧ waiting (recurringSyncQueue w) `prefix_of` waiting (recurringSyncQueue w').
Proof.
  cbv zeta.
  destruct (findCNodeUsers c ((λ user, wallet (psr_user user)) <$> users))
    as [rows|e] eqn:E;
    [|by rewrite (issueSyncRequests_database_error _ _ _ _ _ E)].
  rewrite (issueSyncRequests_run _ _ _ _ _ E). cbn [snd].
  match goal with |- context [foldl (issueSyncRequest_start c ?clocks m) ?st _] =>
    pose proof (issueSyncRequest_start_fold c clocks m users w
                  {| numSyncRequestsRequired := 0; numSyncRequestsIssued := 0;
                     syncRequestErrors := [] |} []) as H1;
    destruct (foldl (issueSyncRequest_start c clocks m) st users)
      as [[w1 resp1] suspended]
  end.
  cbv zeta in H1. cbn [fst snd] in H1 |- *.
  destruct H1 as (S1 & S2 & S3 & _).
  pose proof (issueSyncRequest_resume_fold suspended w1 resp1) as H2. cbv zeta in H2.
  destruct (foldl issueSyncRequest_resume (w1, resp1) suspended) as [w2 resp2].
  cbn [fst snd] in H2 |- *. destruct H2 as (R1 & R2 & R3 & _).
  repeat split; congruence.
Qed.

(** X12.  [issueSyncRequests] writes nothing but the recurring queue, the
    de-duplicator and the log: the manual queue and the registry are as
    before, and the jobs that were pending on the recurring queue are
    still there, in the same order, ahead of whatever was added. *)
Theorem issueSyncRequests_only_appends_to_recurring_queue (c : Collaborators)
    (userReplicaSets : list PotentialSyncRequest)
    (clocksMap : gmap string (gmap string Z)) (w : World) :
  let w' := (issueSyncRequests c userReplicaSets clocksMap w).2 in
  manualSyncQueue w' = manualSyncQueue w
  ∧ ursm w' = ursm w
  ∧ currentModuloSlice w' = currentModuloSlice w
  ∧ waiting (recurringSyncQueue w) `prefix_of` waiting (recurringSyncQueue w').
Proof.
  cbv zeta.
  destruct (issueSyncRequests_frame c userReplicaSets clocksMap w) as (H1 & H2 & H3).
  repeat split; [done|done|apply slice_issueSyncRequests|done].
Qed.

(** ** The sync worker *)

Lemma queueOf_other_set_queueOf t t' q w :
  t' ≠ t → queueOf t' (set_queueOf t q w) = queueOf t' w.
Proof. by destruct t, t'. Qed.

(** What one call of [enqueueSync] can change: at most one job joins the
    waiting list of the queue of its type. *)
Lemma enqueueSync_effect c a w :
  let w' := (enqueueSync c a w).2 in
  ursm w' = ursm w
  ∧ currentModuloSlice w' = currentModuloSlice w
  ∧ (∀ t', t' ≠ syncType a → queueOf t' w' = queueOf t' w)
  ∧ active (queueOf (syncType a) w') = active (queueOf (syncType a) w)
  ∧ ∃ added, waiting (queueOf (syncType a) w') = waiting (queueOf (syncType a) w) ++ added
             ∧ (length added ≤ 1)%nat.
Proof.
  cbv zeta.
  destruct (syncDeDuplicator w !! (syncType a, userWallet a, secondaryEndpoint a))
    as [info|] eqn:E.
  - rewrite (enqueueSync_duplicate _ _ _ _ E). cbn [snd].
    split; [done|]. split; [done|]. split; [by intros []|].
    split; [by destruct (syncType a)|].
    exists []. rewrite app_nil_r. split; [by destruct (syncType a)|simpl; lia].
  - destruct (brokerAccepts c (syncType a) (job_data (syncJob 0 a (dateNow w)))) eqn:B.
    + pose proof (enqueueSync_fresh c a w E B) as ->. cbn [snd].
      split; [by destruct (syncType a)|]. split; [by destruct (syncType a)|].
      split; [intros t' Ht'; by destruct (syncType a), t'|].
      rewrite queueOf_set_dedup, queueOf_set_queueOf, decide_True by done. cbn.
      split; [done|]. eexists [_]. split; [done|simpl; lia].
    + rewrite (enqueueSync_rejected _ _ _ E B). cbn [snd].
      split; [done|]. split; [done|]. split; [done|]. split; [done|].
      exists []. rewrite app_nil_r. split; [done|simpl; lia].
Qed.

(** [processSyncOperation], step by step. *)
Lemma processSyncOperation_run c job t w :
  let params := syncRequestParameters (job_data job) in
  let wl := default "undefined" (head (srd_wallet (data params))) in
  let sec := baseURL params in
  let w1 := set_dedup (delete (t, wl, sec) (syncDeDuplicator w)) w in
  processSyncOperation c job t w
  = match getUserPrimaryClockValues c [wl] with
    | Throws e => (Throws e, w1)
    | Returns clocks =>
        let w2 := set_logs (logs w1 ++ [LogProcessSync wl sec (clocks !! wl) t (job_id job)])
                    w1 in
        match postSync c params with
        | Throws e => (Throws e, w2)
        | Returns _ =>
            let m := additionalSyncIsRequired c wl (clocks !! wl) sec t (dateNow w2) in
            let w3 := set_dateNow m.2 (set_logs (logs w2 ++ m.1.2) w2) in
            if m.1.1 then
              let r := enqueueSync c {| userWallet := wl;
                                        primaryEndpoint := Some (endpoint c);
                                        secondaryEndpoint := sec;
                                        syncType := t;
                                        immediate := false |} w3 in
              match r.1 with
              | Returns _ =>
                  (Returns tt, set_logs (logs r.2 ++ [LogEndProcessSync (job_id job)]) r.2)
              | Throws e => (Throws e, r.2)
              end
            else (Returns tt, set_logs (logs w3 ++ [LogEndProcessSync (job_id job)]) w3)
        end
    end.
Proof.
  cbv zeta. unfold processSyncOperation, SyncDeDuplicator.removeSync.
  unfold mbind, Async_bind, log, modify, await, gets, mret, Async_ret. cbn beta iota.
  destruct (getUserPrimaryClockValues c _) as [clocks|e]; [|done]. cbn beta iota.
  destruct (postSync c _) as [[]|e]; [|done]. cbn beta iota.
  destruct (additionalSyncIsRequired c _ _ _ t _) as [[required lines] finished].
  cbn [fst snd]. destruct required; [|done].
  by destruct (enqueueSync c _ _) as [[jobInfo|e] w'].
Qed.

Lemma processSyncOperation_effect c job t w :
  let w' := (processSyncOperation c job t w).2 in
  ursm w' = ursm w
  ∧ currentModuloSlice w' = currentModuloSlice w
  ∧ (∀ t', t' ≠ t → queueOf t' w' = queueOf t' w)
  ∧ active (queueOf t w') = active (queueOf t w)
  ∧ ∃ added, waiting (queueOf t w') = waiting (queueOf t w) ++ added
             ∧ (length added ≤ 1)%nat.
Proof.
  cbv zeta. rewrite processSyncOperation_run.
  assert (Hnone : ∀ w' : World,
            ursm w' = ursm w → currentModuloSlice w' = currentModuloSlice w →
            (∀ t', queueOf t' w' = queueOf t' w) →
            ursm w' = ursm w
            ∧ currentModuloSlice w' = currentModuloSlice w
            ∧ (∀ t', t' ≠ t → queueOf t' w' = queueOf t' w)
            ∧ active (queueOf t w') = active (queueOf t w)
            ∧ ∃ added, waiting (queueOf t w') = waiting (queueOf t w) ++ added
                       ∧ (length added ≤ 1)%nat).
  { intros w' H1 H2 H3. repeat (split; [by auto using f_equal|]).
    exists []. rewrite app_nil_r, H3. split; [done|simpl; lia]. }
  destruct (getUserPrimaryClockValues c _) as [clocks|e];
    [|apply Hnone; [done|done|by intros []]].
  destruct (postSync c _) as [[]|e]; [|apply Hnone; [done|done|by intros []]].
  cbv zeta.
  destruct (additionalSyncIsRequired c _ _ _ t _) as [[required lines] finished].
  cbn [fst snd]. destruct required; [|apply Hnone; [done|done|by intros []]].
  match goal with |- context [enqueueSync c ?a ?w0] =>
    pose proof (enqueueSync_effect c a w0) as (E1 & E2 & E3 & E4 & added & E5 & E6);
    cbn [syncType] in E3, E4, E5;
    destruct (enqueueSync c a w0) as [[jobInfo|e] w'] end;
    cbn [fst snd] in *.
  all: split; [simpl in *; congruence|]; split; [simpl in *; congruence|];
    (split; [intros t' Ht'; specialize (E3 t' Ht'); destruct t'; simpl in *; congruence|]);
    (split; [destruct t; simpl in *; congruence|]);
    exists added; (split; [destruct t; simpl in *; congruence|done]).
Qed.

(** [processNextJob], step by step. *)
Lemma processNextJob_run c t w :
  processNextJob c t w
  = match waiting (queueOf t w) with
    | [] => (Returns tt, w)
    | job :: rest =>
        let w0 := set_queueOf t {| counter := counter (queueOf t w); waiting := rest;
                                   active := active (queueOf t w) ++ [job] |} w in
        let r := processSyncOperation c job t w0 in
        let w1 := match r.1 with
                  | Returns _ => r.2
                  | Throws e => set_logs (logs r.2 ++ [LogQueueError t e]) r.2
                  end in
        (Returns tt,
         set_queueOf t {| counter := counter (queueOf t w1); waiting := waiting (queueOf t w1);
                          active := filter (λ j, job_id j ≠ job_id job)
                                      (active (queueOf t w1)) |} w1)
    end.
Proof.
  unfold processNextJob. unfold mbind at 1, Async_bind at 1, gets at 1. cbn beta iota.
  destruct (waiting (queueOf t w)) as [|job rest]; [done|].
  unfold mbind, Async_bind, tryCatch, log, modify. cbn beta iota zeta.
  by destruct (processSyncOperation c job t _) as [[[]|e] w'].
Qed.

(** X13.  A worker of a sync queue never fails, whatever the database,
    the secondary or the broker do.  On an empty queue it does nothing.
    Otherwise it takes the oldest waiting job, which is neither waiting
    nor active once the worker is done; at most one job joins the end of
    the waiting list of the same queue; the other queue, the registry and
    the slice are left alone. *)
Theorem processNextJob_retires_the_oldest_job (c : Collaborators) (t : SyncType)
    (w : World) :
  let result := processNextJob c t w in
  result.1 = Returns tt
  ∧ ursm result.2 = ursm w
  ∧ currentModuloSlice result.2 = currentModuloSlice w
  ∧ (∀ t', t' ≠ t → queueOf t' result.2 = queueOf t' w)
  ∧ match waiting (queueOf t w) with
    | [] => result.2 = w
    | job :: rest =>
        (∃ added, waiting (queueOf t result.2) = rest ++ added ∧ (length added ≤ 1)%nat)
        ∧ active (queueOf t result.2)
          = filter (λ j, job_id j ≠ job_id job) (active (queueOf t w))
    end.
Proof.
  cbv zeta. rewrite processNextJob_run.
  destruct (waiting (queueOf t w)) as [|job rest] eqn:Hq; [done|].
  cbv zeta.
  match goal with |- context [processSyncOperation c job t ?w0] =>
    pose proof (processSyncOperation_effect c job t w0) as (E1 & E2 & E3 & E4 & added & E5 & E6);
    destruct (processSyncOperation c job t w0) as [[[]|e] w'] end;
    cbn [fst snd] in *.
  all: rewrite queueOf_set_queueOf, decide_True in E4, E5 by done; cbn [waiting active] in E4, E5.
  all: assert (Hact : filter (λ j, job_id j ≠ job_id job) (active (queueOf t w) ++ [job])
                      = filter (λ j, job_id j ≠ job_id job) (active (queueOf t w)))
    by (rewrite filter_app, filter_cons_False, filter_nil, app_nil_r; [done|by intros []]).
  all: split; [done|]; split; [destruct t; simpl in *; congruence|];
    split; [destruct t; simpl in *; congruence|];
    (split; [intros t' Ht'; specialize (E3 t' Ht'); destruct t, t'; simpl in *; congruence|]);
    (split; [exists added; split; [destruct t; simpl in *; congruence|done]|]).
  all: destruct t; simpl in *; congruence.
Qed.

Lemma dateNow_set_queueOf t q w : dateNow (set_queueOf t q w) = dateNow w.
Proof. by destruct t. Qed.

(** X14.  When the database and the secondary answer and the broker is
    up, the worker puts a sync for the same user and secondary back on its
    queue exactly when the monitor asks for one.  The new job is built
    afresh: its source is this node and it is not immediate, whatever the
    source and the flag of the job that was processed.  The fingerprint is
    erased from the de-duplicator first, and recorded again for the new
    job only. *)
Theorem processNextJob_reenqueues_from_this_node (c : Collaborators) (t : SyncType)
    (w : World) (job : Job) (rest : list Job) (wl : string) (sec : option string)
    (rows : list (string * Z)) :
  waiting (queueOf t w) = job :: rest →
  jobFingerprint t job = (t, wl, sec) →
  findCNodeUsers c [wl] = Returns rows →
  postSync c (syncRequestParameters (job_data job)) = Returns tt →
  (∀ t' props, brokerAccepts c t' props = true) →
  let P := foldl (λ o k, <[k.1 := k.2]> o) (∅ : gmap string Z) rows !! wl in
  let monitor := additionalSyncIsRequired c wl P sec t (dateNow w) in
  let again := syncJob (counter (queueOf t w) + 1)
                 {| userWallet := wl; primaryEndpoint := Some (endpoint c);
                    secondaryEndpoint := sec; syncType := t; immediate := false |}
                 monitor.2 in
  let result := processNextJob c t w in
  waiting (queueOf t result.2) = rest ++ (if monitor.1.1 then [again] else [])
  ∧ syncDeDuplicator result.2
    = if monitor.1.1
      then <[(t, wl, sec) := again]> (delete (t, wl, sec) (syncDeDuplicator w))
      else delete (t, wl, sec) (syncDeDuplicator w).
Proof.
  intros Hq Hfp Hdb Hpost Hbroker. cbv zeta.
  rewrite processNextJob_run, Hq. cbv zeta. rewrite processSyncOperation_run. cbv zeta.
  unfold jobFingerprint in Hfp. cbv zeta in Hfp. injection Hfp as -> ->.
  unfold getUserPrimaryClockValues. rewrite Hdb, Hpost.
  cbn [dateNow set_logs set_dedup]. rewrite dateNow_set_queueOf.
  destruct (additionalSyncIsRequired c _ _ _ t (dateNow w)) as [[required lines] finished].
  cbn [fst snd]. destruct required.
  - match goal with |- context [enqueueSync c ?a ?w0] =>
      pose proof (enqueueSync_fresh c a w0) as Hfresh end.
    cbn [syncType userWallet secondaryEndpoint syncDeDuplicator set_dateNow set_logs set_dedup]
      in Hfresh.
    rewrite lookup_delete_eq in Hfresh. specialize (Hfresh eq_refl (Hbroker _ _)).
    cbv zeta in Hfresh. rewrite Hfresh. cbn [fst snd].
    destruct t; simpl; rewrite ?Hq; done.
  - destruct t; simpl; rewrite ?Hq, ?app_nil_r; done.
Qed.

Lemma processNextJob_reenqueues_from_this_node_witness :
  let c := Scenario.steady 10 5 in
  let seed := manualImmediate "0xabc" (Some Scenario.cn2) (Some Scenario.cn4) in
  let w := (enqueueSync c seed Scenario.idle).2 in
  let monitor := additionalSyncIsRequired c "0xabc"
                   (foldl (λ o k, <[k.1 := k.2]> o) (∅ : gmap string Z) [("0xabc", 10)]
                      !! "0xabc")
                   (Some Scenario.cn4) Manual (dateNow w) in
  let again := syncJob (counter (queueOf Manual w) + 1)
                 {| userWallet := "0xabc"; primaryEndpoint := Some (endpoint c);
                    secondaryEndpoint := Some Scenario.cn4; syncType := Manual;
                    immediate := false |}
                 monitor.2 in
  waiting (queueOf Manual (processNextJob c Manual w).2)
  = [] ++ (if monitor.1.1 then [again] else []).
Proof.
  exact (proj1
    (processNextJob_reenqueues_from_this_node (Scenario.steady 10 5) Manual
       (enqueueSync (Scenario.steady 10 5)
          (manualImmediate "0xabc" (Some Scenario.cn2) (Some Scenario.cn4)) Scenario.idle).2
       (syncJob 1 (manualImmediate "0xabc" (Some Scenario.cn2) (Some Scenario.cn4))
          1600000000000)
       [] "0xabc" (Some Scenario.cn4) [("0xabc", 10)]
       ltac:(vm_compute; reflexivity) ltac:(reflexivity) ltac:(vm_compute; reflexivity)
       ltac:(reflexivity) ltac:(intros; reflexivity))).
Defined.

(** ** What a reconfiguration can touch *)

Lemma grows_log l u rq e :
  maintains (grows l u rq) (log e).
Proof. by intros w. Qed.

Lemma grows_enqueueSync_manual c l u rq wl src tgt :
  maintains (grows l u rq) (enqueueSync c (manualImmediate wl src tgt)).
Proof.
  intros w (H1 & H2 & H3).
  pose proof (enqueueSync_effect c (manualImmediate wl src tgt) w)
    as (E1 & _ & E3 & _ & added & E5 & _).
  cbn [syncType manualImmediate] in E3, E5. specialize (E3 Recurring ltac:(done)).
  simpl in E3, E5. split; [|split].
  - rewrite E5. by apply prefix_app_r.
  - by rewrite E1.
  - by rewrite E3.
Qed.

Lemma grows_issueUpdateReplicaSetOp c userId wl p s1 s2 unhealthy l u rq :
  maintains (grows l u rq) (issueUpdateReplicaSetOp c userId wl p s1 s2 unhealthy).
Proof.
  pose proof (grows_log l u rq). pose proof (grows_enqueueSync_manual c l u rq).
  unfold issueUpdateReplicaSetOp.
  apply maintains_bind; [auto|intros _].
  apply maintains_withLocal, maintains_tryCatch; [|auto with maintains].
  unfold issueUpdateReplicaSetOp_try.
  apply maintains_bind; [apply (maintains_assign (grows l u rq))|intros _].
  apply maintains_bind; [apply maintains_await|intros r].
  apply maintains_bind.
  - destruct (filter _ _) as [|h0 [|h1 [|h2 l']]].
    + repeat (apply maintains_bind; [auto with maintains|intros ?]). auto with maintains.
    + repeat (apply maintains_bind; [auto with maintains|intros ?]). auto with maintains.
    + apply maintains_bind; [auto with maintains|intros _].
      apply maintains_bind; [auto with maintains|intros clocks].
      destruct (js_ge _ _);
        repeat (apply maintains_bind; [auto with maintains|intros ?]); auto with maintains.
    + auto with maintains.
  - intros [ids|]; (apply maintains_bind; [auto with maintains|intros _]);
      [|auto with maintains].
    apply maintains_bind; [auto with maintains|intros _].
    apply (maintains_liftW (grows l u rq)), maintains_modify.
    intros w (H1 & H2 & H3). split; [done|]. split; [|done].
    simpl. by apply prefix_app_r.
Qed.

(** X15.  A reconfiguration returns normally whatever fails inside it,
    and can only add: the jobs pending on the manual queue and the writes
    made to the registry are still there, in order, ahead of what the call
    added; the recurring queue and the slice are as before. *)
Theorem issueUpdateReplicaSetOp_only_adds (c : Collaborators) (userId : Z)
    (wl : string) (p s1 s2 : option string) (unhealthy : list (option string))
    (w : World) :
  let result := issueUpdateReplicaSetOp c userId wl p s1 s2 unhealthy w in
  result.1 = Returns tt
  ∧ waiting (manualSyncQueue w) `prefix_of` waiting (manualSyncQueue result.2)
  ∧ ursm w `prefix_of` ursm result.2
  ∧ recurringSyncQueue result.2 = recurringSyncQueue w
  ∧ currentModuloSlice result.2 = currentModuloSlice w.
Proof.
  cbv zeta. split; [apply issueUpdateReplicaSetOp_returns|].
  pose proof (grows_issueUpdateReplicaSetOp c userId wl p s1 s2 unhealthy
                (waiting (manualSyncQueue w)) (ursm w) (recurringSyncQueue w) w)
    as (H1 & H2 & H3); [by repeat split|].
  repeat split; [done|done|done|apply slice_issueUpdateReplicaSetOp].
Qed.

(** ** The other branches of a reconfiguration *)

Lemma issueUpdateReplicaSetOp_none_healthy c userId wl p s1 s2 unhealthy r w :
  filter (λ replica, replica ∉ unhealthy) [p; s1; s2] = [] →
  autoSelectCreatorNodes c [p; s1; s2] = Returns r →
  (∀ t props, brokerAccepts c t props = true) →
  let r0 := rrs_primary r in
  let r1 := mjoin (rrs_secondaries r !! 0%nat) in
  let r2 := mjoin (rrs_secondaries r !! 1%nat) in
  let w0 := set_logs (logs w ++ [LogIssueUpdateReplicaSetOp userId wl unhealthy]) w in
  let w1 := (enqueueSync c (manualImmediate wl p r0) w0).2 in
  let w2 := (enqueueSync c (manualImmediate wl p r1) w1).2 in
  let w3 := (enqueueSync c (manualImmediate wl p r2) w2).2 in
  let w4 := set_logs (logs w3 ++ [LogNewReplicaSet userId wl [p; s1; s2] [r0; r1; r2]]) w3 in
  issueUpdateReplicaSetOp c userId wl p s1 s2 unhealthy w
  = (Returns tt,
     match updateReplicaSet c userId (spIdOf c r0) [spIdOf c r1; spIdOf c r2] with
     | Returns _ => set_ursm (ursm w4 ++ [replicaSetUpdate c userId r0 r1 r2]) w4
     | Throws _ => w4
     end).
Proof.
  intros Hf Hs Hb. cbv zeta.
  unfold issueUpdateReplicaSetOp, issueUpdateReplicaSetOp_try. rewrite Hf, Hs.
  unfold mbind, Async_bind, log, modify, withLocal, tryCatch, assign, await, throw. simpl.
  set (w0 := set_logs _ w). rewrite liftW_run.
  destruct (enqueueSync_returns c (manualImmediate wl p (rrs_primary r)) w0 Hb) as [j0 E0].
  rewrite E0. set (w1 := (enqueueSync _ _ w0).2). rewrite liftW_run.
  destruct (enqueueSync_returns c
              (manualImmediate wl p (mjoin (rrs_secondaries r !! 0%nat))) w1 Hb) as [j1 E1].
  rewrite E1. set (w2 := (enqueueSync _ _ w1).2). rewrite liftW_run.
  destruct (enqueueSync_returns c
              (manualImmediate wl p (mjoin (rrs_secondaries r !! 1%nat))) w2 Hb) as [j2 E2].
  rewrite E2. simpl.
  by destruct (updateReplicaSet c userId _ _) as [[]|].
Qed.

(** X16.  When all three slots of the current set are unhealthy and the
    collaborators answer, the whole set is replaced: the registry is asked
    for [r0, r1, r2], the nodes the selection returned, and three syncs are
    requested through [enqueueSync], all Manual and immediate, towards
    [r0], [r1] and [r2] in this order and all with the old primary [p],
    itself unhealthy, as their source. *)
Theorem no_healthy_replica_replaces_whole_set (c : Collaborators) (userId : Z)
    (wl : string) (p s1 s2 : option string) (unhealthy : list (option string))
    (r : RandomReplicaSet) (w : World) :
  Forall (λ replica, replica ∈ unhealthy) [p; s1; s2] →
  autoSelectCreatorNodes c [p; s1; s2] = Returns r →
  (∀ t props, brokerAccepts c t props = true) →
  (∀ id new1 new2, updateReplicaSet c id new1 new2 = Returns tt) →
  let r0 := rrs_primary r in
  let r1 := mjoin (rrs_secondaries r !! 0%nat) in
  let r2 := mjoin (rrs_secondaries r !! 1%nat) in
  let result := issueUpdateReplicaSetOp c userId wl p s1 s2 unhealthy w in
  let seeded := (enqueueSync c (manualImmediate wl p r2)
                   (enqueueSync c (manualImmediate wl p r1)
                      (enqueueSync c (manualImmediate wl p r0) w).2).2).2 in
  result.1 = Returns tt
  ∧ ursm result.2 = ursm w ++ [replicaSetUpdate c userId r0 r1 r2]
  ∧ last (logs result.2) = Some (LogNewReplicaSet userId wl [p; s1; s2] [r0; r1; r2])
  ∧ syncState result.2 = syncState seeded.
Proof.
  intros Hall Hs Hb Hr r0 r1 r2 result seeded. subst result.
  assert (Hf : filter (λ replica, replica ∉ unhealthy) [p; s1; s2] = []).
  { apply filter_none. intros x Hx Hnot. apply Hnot.
    exact (proj1 (Forall_forall _ _) Hall x Hx). }
  rewrite (issueUpdateReplicaSetOp_none_healthy _ _ _ _ _ _ _ _ _ Hf Hs Hb), Hr.
  fold r0 r1 r2. simpl.
  set (w0 := set_logs _ w).
  assert (Hst : syncState (enqueueSync c (manualImmediate wl p r2)
                  (enqueueSync c (manualImmediate wl p r1)
                     (enqueueSync c (manualImmediate wl p r0) w0).2).2).2
                = syncState seeded).
  { apply enqueueSync_syncState. by apply syncState_after_two_seeds. }
  split; [done|]. split; [|split].
  - by rewrite !ursm_enqueueSync.
  - by rewrite last_snoc.
  - exact Hst.
Qed.

Lemma no_healthy_replica_replaces_whole_set_witness :
  ursm (issueUpdateReplicaSetOp (Scenario.steady 10 5) 5 "0xabc" (Some Scenario.self)
          (Some Scenario.cn2) (Some Scenario.cn3)
          [Some Scenario.self; Some Scenario.cn2; Some Scenario.cn3] Scenario.idle).2
  = ursm Scenario.idle
    ++ [replicaSetUpdate (Scenario.steady 10 5) 5 (Some Scenario.cn4) (Some Scenario.cn5)
          (Some Scenario.cn6)].
Proof.
  exact (proj1 (proj2
    (no_healthy_replica_replaces_whole_set (Scenario.steady 10 5) 5 "0xabc"
       (Some Scenario.self) (Some Scenario.cn2) (Some Scenario.cn3)
       [Some Scenario.self; Some Scenario.cn2; Some Scenario.cn3]
       Scenario.freshNodes Scenario.idle
       ltac:(repeat constructor) eq_refl (λ _ _, eq_refl) (λ _ _ _, eq_refl)))).
Defined.

(** X17.  Nothing is undone when the registry write fails.  With one
    healthy replica and a write that is rejected, the call still returns
    normally; the two seed syncs stay enqueued; the last line logged still
    announces the new replica set; and the registry has not changed. *)
Theorem rejected_registry_write_leaves_seed_syncs (c : Collaborators) (userId : Z)
    (wl : string) (p s1 s2 : option string) (unhealthy : list (option string))
    (h : option string) (r : RandomReplicaSet) (e : string) (w : World) :
  filter (λ replica, replica ∉ unhealthy) [p; s1; s2] = [h] →
  autoSelectCreatorNodes c [p; s1; s2] = Returns r →
  (∀ t props, brokerAccepts c t props = true) →
  updateReplicaSet c userId (spIdOf c p)
    [spIdOf c (rrs_primary r); spIdOf c (mjoin (rrs_secondaries r !! 0%nat))] = Throws e →
  let r0 := rrs_primary r in
  let r1 := mjoin (rrs_secondaries r !! 0%nat) in
  let result := issueUpdateReplicaSetOp c userId wl p s1 s2 unhealthy w in
  let seeded := (enqueueSync c (manualImmediate wl p r1)
                   (enqueueSync c (manualImmediate wl p r0) w).2).2 in
  result.1 = Returns tt
  ∧ ursm result.2 = ursm w
  ∧ last (logs result.2) = Some (LogNewReplicaSet userId wl [p; s1; s2] [p; r0; r1])
  ∧ syncState result.2 = syncState seeded.
Proof.
  intros Hf Hs Hb Hr r0 r1 result seeded. subst result.
  rewrite (issueUpdateReplicaSetOp_one_healthy _ _ _ _ _ _ _ _ _ _ Hf Hs Hb), Hr.
  fold r0 r1. simpl.
  split; [done|]. split; [|split].
  - by rewrite !ursm_enqueueSync.
  - by rewrite last_snoc.
  - by apply syncState_after_two_seeds.
Qed.

Lemma rejected_registry_write_leaves_seed_syncs_witness :
  ursm (issueUpdateReplicaSetOp registryDown 5 "0xdef" (Some Scenario.cn2)
          (Some Scenario.self) (Some Scenario.cn3)
          [Some Scenario.cn2; Some Scenario.cn3] Scenario.idle).2
  = ursm Scenario.idle.
Proof.
  exact (proj1 (proj2
    (rejected_registry_write_leaves_seed_syncs registryDown 5 "0xdef" (Some Scenario.cn2)
       (Some Scenario.self) (Some Scenario.cn3) [Some Scenario.cn2; Some Scenario.cn3]
       (Some Scenario.self) Scenario.freshNodes "transaction reverted" Scenario.idle
       ltac:(vm_compute; reflexivity) eq_refl (λ _ _, eq_refl) eq_refl))).
Defined.

(** X18.  With two healthy replicas [h0], [h1], when the clock of either
    is missing from the responses the comparison is false and the second
    survivor [h1] becomes the primary, even when [h0] is the only one with
    a known clock. *)
Theorem missing_clock_promotes_second_survivor (c : Collaborators) (userId : Z)
    (wl : string) (p s1 s2 : option string) (unhealthy : list (option string))
    (h0 h1 : option string) (r : RandomReplicaSet) (responses : list ClockResponse)
    (w : World) :
  filter (λ replica, replica ∉ unhealthy) [p; s1; s2] = [h0; h1] →
  autoSelectCreatorNodes c [p; s1; s2] = Returns r →
  getClockValuesFromReplicaSet c = Returns responses →
  buildEndpointToClockMap responses !! prop_key h0 = None
  ∨ buildEndpointToClockMap responses !! prop_key h1 = None →
  (∀ t props, brokerAccepts c t props = true) →
  (∀ id new1 new2, updateReplicaSet c id new1 new2 = Returns tt) →
  let result := issueUpdateReplicaSetOp c userId wl p s1 s2 unhealthy w in
  result.1 = Returns tt
  ∧ ursm result.2 = ursm w ++ [replicaSetUpdate c userId h1 h0 (rrs_primary r)]
  ∧ last (logs result.2)
    = Some (LogNewReplicaSet userId wl [p; s1; s2] [h1; h0; rrs_primary r])
  ∧ syncState result.2
    = syncState (enqueueSync c (manualImmediate wl h1 (rrs_primary r))
                   (enqueueSync c (manualImmediate wl h1 h0) w).2).2.
Proof.
  intros Hf Hs Hc Hmiss Hb Hr result. subst result.
  rewrite (issueUpdateReplicaSetOp_two_healthy _ _ _ _ _ _ _ _ _ _ _ _ Hf Hs Hc Hb).
  assert (Hge : js_ge (buildEndpointToClockMap responses !! prop_key h0)
                  (buildEndpointToClockMap responses !! prop_key h1) = false).
  { destruct Hmiss as [-> | ->]; [done|]. by destruct (_ !! prop_key h0). }
  rewrite Hge, Hr. simpl.
  split; [done|]. split; [|split].
  - by rewrite !ursm_enqueueSync.
  - by rewrite last_snoc.
  - by apply syncState_after_two_seeds.
Qed.

Lemma missing_clock_promotes_second_survivor_witness :
  ursm (issueUpdateReplicaSetOp (Scenario.steady 10 5) 5 "0xabc" (Some Scenario.self)
          (Some Scenario.cn2) (Some Scenario.cn3) [Some Scenario.cn2] Scenario.idle).2
  = ursm Scenario.idle
    ++ [replicaSetUpdate (Scenario.steady 10 5) 5 (Some Scenario.cn3) (Some Scenario.self)
          (rrs_primary Scenario.freshNodes)].
Proof.
  exact (proj1 (proj2
    (missing_clock_promotes_second_survivor (Scenario.steady 10 5) 5 "0xabc"
       (Some Scenario.self) (Some Scenario.cn2) (Some Scenario.cn3) [Some Scenario.cn2]
       (Some Scenario.self) (Some Scenario.cn3) Scenario.freshNodes [] Scenario.idle
       ltac:(vm_compute; reflexivity) eq_refl eq_refl ltac:(left; reflexivity)
       (λ _ _, eq_refl) (λ _ _ _, eq_refl)))).
Defined.

(** ** Calls that do not overlap *)

(** X19.  In every world reached from an initialised instance by calls of
    [enqueueSync], worker steps and reconfigurations that run one after the
    other, each fingerprint has at most one pending job, and every pending
    job is the handle the de-duplicator holds for its fingerprint. *)
Theorem non_overlapping_calls_keep_fingerprints_unique (c : Collaborators) (w : World) :
  sequentially c w →
  (∀ fp, (pendingCount fp w ≤ 1)%nat)
  ∧ (∀ t job, job ∈ waiting (queueOf t w) →
              syncDeDuplicator w !! jobFingerprint t job = Some job).
Proof.
  intros Hseq. apply sequentially_indexed in Hseq. split.
  - intros fp. by apply indexed_pendingCount.
  - intros t job. apply (Hseq t).
Qed.

Lemma non_overlapping_calls_keep_fingerprints_unique_witness :
  let c := Scenario.steady 10 5 in
  let a := recurringSync c "0xabc" (Some Scenario.cn2) in
  let w := (processNextJob c Recurring
              (enqueueSync c a (enqueueSync c a Scenario.idle).2).2).2 in
  (pendingCount (Recurring, "0xabc", Some Scenario.cn2) w ≤ 1)%nat.
Proof.
  exact (proj1
    (non_overlapping_calls_keep_fingerprints_unique (Scenario.steady 10 5) _
       (after_processNextJob _ Recurring _
          (after_enqueueSync _ (recurringSync (Scenario.steady 10 5) "0xabc"
                                  (Some Scenario.cn2)) _
             (after_enqueueSync _ (recurringSync (Scenario.steady 10 5) "0xabc"
                                     (Some Scenario.cn2)) _
                (after_init _ Scenario.idle eq_refl eq_refl)))))
    (Recurring, "0xabc", Some Scenario.cn2)).
Defined.

(** X20.  One call of [enqueueSync], run without interruption.  When it
    returns a handle, that handle is what the de-duplicator now holds for
    the fingerprint: either it was there already, or it is a new job, the
    last of the waiting list of the queue of its type, with the next id of
    that queue.  When it throws, the fingerprint was free and the world is
    as before.  In every case the queue of the other type is untouched. *)
Theorem enqueueSync_records_what_it_returns (c : Collaborators) (a : EnqueueSyncArgs)
    (w : World) :
  let fp := (syncType a, userWallet a, secondaryEndpoint a) in
  let result := enqueueSync c a w in
  match result.1 with
  | Returns job =>
      syncDeDuplicator result.2 !! fp = Some job
      ∧ (syncDeDuplicator w !! fp = Some job
         ∨ syncDeDuplicator w !! fp = None
           ∧ job = syncJob (counter (queueOf (syncType a) w) + 1) a (dateNow w)
           ∧ waiting (queueOf (syncType a) result.2)
             = waiting (queueOf (syncType a) w) ++ [job])
  | Throws e => syncDeDuplicator w !! fp = None ∧ result.2 = w
  end
  ∧ ∀ t, t ≠ syncType a → queueOf t result.2 = queueOf t w.
Proof.
  cbv zeta. split; [|apply enqueueSync_effect].
  destruct (syncDeDuplicator w !! (syncType a, userWallet a, secondaryEndpoint a))
    as [info|] eqn:E.
  - rewrite (enqueueSync_duplicate _ _ _ _ E). cbn [fst snd]. split; [done|by left].
  - destruct (brokerAccepts c (syncType a) (job_data (syncJob 0 a (dateNow w)))) eqn:B.
    + pose proof (enqueueSync_fresh c a w E B) as ->. cbn [fst snd].
      split; [apply lookup_insert_eq|]. right. split; [done|]. split; [done|].
      by rewrite queueOf_set_dedup, queueOf_set_queueOf, decide_True.
    + by rewrite (enqueueSync_rejected _ _ _ E B).
Qed.

(** ** The order of the stages *)

Section BeforeReconfiguration.
Context {B : Type} (f : World → B) (c : Collaborators).
Hypothesis issueSyncRequests_keeps : ∀ users m, preserves f (issueSyncRequests c users m).

Lemma kept_getNodeUsersStage :
  preserves (λ st : World * Locals, f st.1) (getNodeUsersStage c).
Proof. unfold getNodeUsersStage. auto 10 with preserves. Qed.

Lemma kept_getUnhealthyPeersStage users :
  preserves (λ st : World * Locals, f st.1) (getUnhealthyPeersStage c users).
Proof. unfold getUnhealthyPeersStage. auto 10 with preserves. Qed.

Lemma kept_planStage users unhealthy :
  preserves (λ st : World * Locals, f st.1) (planStage c users unhealthy).
Proof. unfold planStage. destruct (foldl _ _ _). auto 10 with preserves. Qed.

Lemma kept_retrieveClockStatusesStage m :
  preserves (λ st : World * Locals, f st.1) (retrieveClockStatusesStage c m).
Proof. unfold retrieveClockStatusesStage. auto 10 with preserves. Qed.

Lemma kept_issueSyncRequestsStage users m :
  preserves (λ st : World * Locals, f st.1) (issueSyncRequestsStage c users m).
Proof.
  pose proof issueSyncRequests_keeps.
  unfold issueSyncRequestsStage. auto 12 with preserves.
Qed.

Lemma advanceSlice_returns issued ops st : (advanceSlice issued ops st).1 = Returns tt.
Proof. by destruct st. Qed.

(** An iteration that aborts has not come to the reconfiguration stage. *)
Lemma kept_when_aborted st e :
  (processStateMachineOperation_try c st).1 = Throws e →
  f (processStateMachineOperation_try c st).2.1 = f st.1.
Proof.
  unfold processStateMachineOperation_try, mbind, Async_bind.
  pose proof (kept_getNodeUsersStage st) as H1.
  destruct (getNodeUsersStage c st) as [[users|e1] st1]; simpl in H1; [|done].
  pose proof (kept_getUnhealthyPeersStage users st1) as H2.
  destruct (getUnhealthyPeersStage c users st1) as [[sick|e2] st2]; simpl in H2;
    [|intros _; simpl; congruence].
  pose proof (kept_planStage users sick st2) as H3.
  destruct (planStage c users sick st2) as [[[[ops potential] wallets]|e3] st3];
    simpl in H3; [|intros _; simpl; congruence].
  pose proof (kept_retrieveClockStatusesStage wallets st3) as H4.
  destruct (retrieveClockStatusesStage c wallets st3) as [[clocks|e4] st4];
    simpl in H4; [|intros _; simpl; congruence].
  pose proof (kept_issueSyncRequestsStage potential clocks st4) as H5.
  destruct (issueSyncRequestsStage c potential clocks st4) as [[resp|e5] st5];
    simpl in H5; [|intros _; simpl; congruence].
  pose proof (issueUpdateReplicaSetOpStage_returns c ops st5) as H6.
  destruct (issueUpdateReplicaSetOpStage c ops st5) as [[n|e6] st6];
    simpl in H6; [|done].
  intros Habs. by rewrite advanceSlice_returns in Habs.
Qed.
End BeforeReconfiguration.

Lemma processStateMachineOperation_run c w :
  let body := processStateMachineOperation_try c (w, entryLocals w) in
  let tree := match body.1 with
              | Returns _ => decisionTree body.2.2
              | Throws e => decisionTree body.2.2
                            ++ [StageError "processStateMachineOperation Error" e]
              end in
  processStateMachineOperation c w
  = (Returns tt, set_logs (logs body.2.1 ++ [LogDecisionTree tree]) body.2.1).
Proof.
  cbv zeta.
  unfold processStateMachineOperation, mbind, Async_bind, gets, withLocal, tryCatch.
  fold (entryLocals w).
  by destruct (processStateMachineOperation_try c (w, entryLocals w)) as [[[]|e] [w' l']].
Qed.

(** X21.  The reconfiguration stage comes after the sync stage and is not
    reached by an iteration that aborts: whatever the stage that failed,
    the call returns normally, and the manual queue, the registry and the
    slice are as before. *)
Theorem aborted_iteration_attempts_no_reconfiguration (c : Collaborators) (w : World)
    (e : string) :
  (processStateMachineOperation_try c (w, entryLocals w)).1 = Throws e →
  let result := processStateMachineOperation c w in
  result.1 = Returns tt
  ∧ manualSyncQueue result.2 = manualSyncQueue w
  ∧ ursm result.2 = ursm w
  ∧ currentModuloSlice result.2 = currentModuloSlice w.
Proof.
  intros Habs. cbv zeta. rewrite processStateMachineOperation_run. cbv zeta. cbn [fst snd].
  split; [done|]. cbn [manualSyncQueue ursm currentModuloSlice set_logs].
  split; [|split].
  - apply (kept_when_aborted manualSyncQueue c) with (e := e); [|done].
    intros users m w0. apply issueSyncRequests_frame.
  - apply (kept_when_aborted ursm c) with (e := e); [|done].
    intros users m w0. apply issueSyncRequests_frame.
  - apply (kept_when_aborted currentModuloSlice c) with (e := e); [|done].
    intros users m. apply slice_issueSyncRequests.
Qed.

Lemma aborted_iteration_attempts_no_reconfiguration_witness :
  manualSyncQueue (processStateMachineOperation Scenario.blind Scenario.idle).2
  = manualSyncQueue Scenario.idle.
Proof.
  exact (proj1 (proj2
    (aborted_iteration_attempts_no_reconfiguration Scenario.blind Scenario.idle
       "processStateMachineOperation():getNodeUsers()/sliceUsers() Error: Error: ECONNREFUSED"
       ltac:(vm_compute; reflexivity)))).
Defined.

(** ** The decision tree *)

Lemma extends_push tree s : maintains (extends tree) (push s).
Proof.
  intros [w l] H. unfold extends in *. simpl. by apply prefix_app_r.
Qed.

Lemma extends_setSyncResp tree r : maintains (extends tree) (setSyncResp r).
Proof. by intros [w l] H. Qed.

Lemma extends_liftW tree {A} (m : Async World A) :
  maintains (extends tree) (liftW (L := Locals) m).
Proof.
  intros [w l] H. unfold liftW. simpl. by destruct (m w).
Qed.

Lemma extends_forEach tree {A} (l : list A) (g : A → Async (World * Locals) unit) :
  (∀ a, maintains (extends tree) (g a)) → maintains (extends tree) (forEach l g).
Proof.
  intros Hg. induction l as [|x l IH]; simpl; [apply maintains_ret|].
  apply maintains_bind; [apply Hg|by intros _].
Qed.

Lemma extends_refl st : extends (decisionTree st.2) st.
Proof. unfold extends. reflexivity. Qed.

(** A stage whose handler records the failure and rethrows. *)
Lemma stage_records_failure {A} (m : Async (World * Locals) A)
    (h : string → Async (World * Locals) A) st :
  maintains (extends (decisionTree st.2)) m →
  (∀ e st', extends (decisionTree st.2) st' →
            ∃ e', (h e st').1 = Throws e' ∧ endsInError (decisionTree st.2) (h e st').2) →
  match tryCatch m h st with
  | (Returns _, st') => extends (decisionTree st.2) st'
  | (Throws _, st') => endsInError (decisionTree st.2) st'
  end.
Proof.
  intros Hm Hh. unfold tryCatch. specialize (Hm st (extends_refl st)).
  destruct (m st) as [[a|e] st']; simpl in Hm; [done|].
  destruct (Hh e st' Hm) as (e' & H1 & H2).
  destruct (h e st') as [r st'']. simpl in *. by subst r.
Qed.

Lemma push_then_throw_records_failure {A} tree (s : Stage) (msg : string) st :
  isErrorStage s = true →
  extends tree st →
  ∃ e', ((push s;; throw (A := A) msg) st).1 = Throws e'
        ∧ endsInError tree ((push s;; throw (A := A) msg) st).2.
Proof.
  intros Hs [stages Hst]. exists msg. split; [done|].
  exists stages, s. split; [|done]. destruct st as [w l]. simpl in *.
  by rewrite Hst, <- app_assoc.
Qed.

Lemma getNodeUsersStage_tree c st :
  match getNodeUsersStage c st with
  | (Returns _, st') => extends (decisionTree st.2) st'
  | (Throws _, st') => endsInError (decisionTree st.2) st'
  end.
Proof.
  pose proof extends_push.
  apply stage_records_failure; [auto 10 with maintains|].
  intros e st' Hst'. by apply push_then_throw_records_failure.
Qed.

Lemma getUnhealthyPeersStage_tree c users st :
  match getUnhealthyPeersStage c users st with
  | (Returns _, st') => extends (decisionTree st.2) st'
  | (Throws _, st') => endsInError (decisionTree st.2) st'
  end.
Proof.
  pose proof extends_push.
  apply stage_records_failure; [auto 10 with maintains|].
  intros e st' Hst'. by apply push_then_throw_records_failure.
Qed.

Lemma retrieveClockStatusesStage_tree c m st :
  match retrieveClockStatusesStage c m st with
  | (Returns _, st') => extends (decisionTree st.2) st'
  | (Throws _, st') => endsInError (decisionTree st.2) st'
  end.
Proof.
  pose proof extends_push.
  apply stage_records_failure; [auto 10 with maintains|].
  intros e st' Hst'. by apply push_then_throw_records_failure.
Qed.

Lemma issueSyncRequestsStage_tree c users m st :
  match issueSyncRequestsStage c users m st with
  | (Returns _, st') => extends (decisionTree st.2) st'
  | (Throws _, st') => endsInError (decisionTree st.2) st'
  end.
Proof.
  pose proof extends_push. pose proof extends_setSyncResp.
  pose proof (extends_liftW (decisionTree st.2) (A := SyncRequestsResp)).
  apply stage_records_failure.
  - apply maintains_bind; [auto|intros resp].
    apply maintains_bind; [auto|intros _].
    apply maintains_bind; [case_bool_decide; auto with maintains|intros _].
    auto with maintains.
  - intros e st' Hst'. unfold mbind at 1, Async_bind at 1, gets. cbn beta iota.
    by apply push_then_throw_records_failure.
Qed.

Lemma planStage_tree c users sick st :
  (planStage c users sick st).1
  = Returns (planNodeUsers c sick users,
             buildSecondaryNodesToUserWalletsMap (planNodeUsers c sick users).2)
  ∧ extends (decisionTree st.2) (planStage c users sick st).2.
Proof.
  unfold planStage, planNodeUsers. destruct (foldl _ _ users) as [ops potential].
  split; [done|]. destruct st as [w l]. unfold extends. simpl.
  rewrite <- app_assoc. by apply prefix_app_r.
Qed.

Lemma issueUpdateReplicaSetOpStage_tree c ops st :
  extends (decisionTree st.2) (issueUpdateReplicaSetOpStage c ops st).2.
Proof.
  pose proof extends_push.
  assert (maintains (extends (decisionTree st.2)) (issueUpdateReplicaSetOpStage c ops)) as Hm;
    [|apply Hm, extends_refl].
  unfold issueUpdateReplicaSetOpStage.
  apply maintains_tryCatch; [|auto with maintains].
  apply maintains_bind; [|auto with maintains].
  apply extends_forEach. intros a. apply extends_liftW.
Qed.

Lemma extends_trans tree st1 st2 :
  extends tree st1 → extends (decisionTree st1.2) st2 → extends tree st2.
Proof. unfold extends. intros H1 H2. by etrans. Qed.

Lemma endsInError_trans tree st1 st2 :
  extends tree st1 → endsInError (decisionTree st1.2) st2 → endsInError tree st2.
Proof.
  intros [k Hk] (stages & inner & H & Hinner). exists (k ++ stages), inner.
  split; [|done]. by rewrite H, Hk, <- !app_assoc.
Qed.

(** The tree at the end of the body of the iteration. *)
Lemma processStateMachineOperation_try_tree c st :
  match processStateMachineOperation_try c st with
  | (Returns _, st') =>
      ∃ stages issued ops,
        decisionTree st'.2
        = decisionTree st.2 ++ stages
          ++ [StageEnd (sliceOf st) (Z.rem (sliceOf st + 1) ModuloBase) issued ops]
  | (Throws _, st') => endsInError (decisionTree st.2) st'
  end.
Proof.
  unfold processStateMachineOperation_try, mbind, Async_bind.
  pose proof (slice_getNodeUsersStage c st) as H1.
  pose proof (getNodeUsersStage_tree c st) as T1.
  destruct (getNodeUsersStage c st) as [[users|e] st1]; simpl in H1; [|done].
  pose proof (slice_getUnhealthyPeersStage c users st1) as H2.
  pose proof (getUnhealthyPeersStage_tree c users st1) as T2.
  destruct (getUnhealthyPeersStage c users st1) as [[sick|e] st2]; simpl in H2;
    [|by apply (endsInError_trans _ st1)].
  apply (extends_trans _ _ _ T1) in T2. clear T1.
  pose proof (slice_planStage c users sick st2) as H3.
  pose proof (planStage_tree c users sick st2) as [R3 T3].
  destruct (planStage c users sick st2) as [[[[ops potential] wallets]|e] st3];
    simpl in H3, R3; [clear R3|done].
  apply (extends_trans _ _ _ T2) in T3. clear T2.
  pose proof (slice_retrieveClockStatusesStage c wallets st3) as H4.
  pose proof (retrieveClockStatusesStage_tree c wallets st3) as T4.
  destruct (retrieveClockStatusesStage c wallets st3) as [[clocks|e] st4];
    simpl in H4; [|by apply (endsInError_trans _ st3)].
  apply (extends_trans _ _ _ T3) in T4. clear T3.
  pose proof (slice_issueSyncRequestsStage c potential clocks st4) as H5.
  pose proof (issueSyncRequestsStage_tree c potential clocks st4) as T5.
  destruct (issueSyncRequestsStage c potential clocks st4) as [[resp|e] st5];
    simpl in H5; [|by apply (endsInError_trans _ st4)].
  apply (extends_trans _ _ _ T4) in T5. clear T4.
  pose proof (slice_issueUpdateReplicaSetOpStage c ops st5) as H6.
  pose proof (issueUpdateReplicaSetOpStage_returns c ops st5) as R6.
  pose proof (issueUpdateReplicaSetOpStage_tree c ops st5) as T6.
  destruct (issueUpdateReplicaSetOpStage c ops st5) as [[n|e] st6];
    simpl in H6, R6, T6; [|done].
  apply (extends_trans _ _ _ T5) in T6. clear T5.
  destruct T6 as [stages Hst]. destruct st6 as [w6 l6]. simpl in *.
  exists stages, (numSyncRequestsIssued resp), n.
  rewrite Hst, <- app_assoc. do 3 f_equal; congruence.
Qed.

(** X22.  Every iteration returns normally and logs its decision tree as
    its last line.  The tree opens with the BEGIN stage of the slice.  For
    an iteration that ran to its end it closes with the END stage, which
    names the slice and its successor modulo 24; for one that aborted it
    closes with the record of the stage that failed followed by the
    overall error stage carrying the rethrown message. *)
Theorem decision_tree_tells_how_the_iteration_ended (c : Collaborators) (w : World) :
  let body := processStateMachineOperation_try c (w, entryLocals w) in
  let result := processStateMachineOperation c w in
  let slice := currentModuloSlice w in
  result.1 = Returns tt
  ∧ ∃ stages,
      last (logs result.2) = Some (LogDecisionTree (StageBegin slice :: stages))
      ∧ match body.1 with
        | Returns _ =>
            ∃ issued ops,
              last stages = Some (StageEnd slice (Z.rem (slice + 1) 24) issued ops)
        | Throws e =>
            ∃ before inner,
              stages = before ++ [inner; StageError "processStateMachineOperation Error" e]
              ∧ isErrorStage inner = true
        end.
Proof.
  cbv zeta. rewrite processStateMachineOperation_run. cbv zeta. cbn [fst snd].
  split; [done|]. cbn [logs set_logs]. setoid_rewrite last_snoc.
  pose proof (processStateMachineOperation_try_tree c (w, entryLocals w)) as H.
  destruct (processStateMachineOperation_try c (w, entryLocals w)) as [[[]|e] st'].
  - destruct H as (stages & issued & ops & H). cbn [fst snd] in *.
    exists (stages ++ [StageEnd (currentModuloSlice w)
                         (Z.rem (currentModuloSlice w + 1) ModuloBase) issued ops]).
    split; [by rewrite H|]. exists issued, ops. by rewrite last_snoc.
  - destruct H as (stages & inner & H & Hinner). cbn [fst snd] in *.
    exists (stages ++ [inner; StageError "processStateMachineOperation Error" e]).
    split; [|by eauto]. rewrite H. simpl. by rewrite <- !app_assoc.
Qed.

(** ** An iteration with every collaborator up *)

Lemma getNodeUsersStage_returns c st users :
  getNodeUsers c = Returns users →
  (getNodeUsersStage c st).1 = Returns (sliceUsers (sliceOf st) users).
Proof.
  intros H. unfold getNodeUsersStage, tryCatch, mbind, Async_bind, await, gets. by rewrite H.
Qed.

Lemma getUnhealthyPeersStage_returns c st users sick :
  getUnhealthyPeers c users = Returns sick →
  (getUnhealthyPeersStage c users st).1 = Returns sick.
Proof.
  intros H. unfold getUnhealthyPeersStage, tryCatch, mbind, Async_bind, await. by rewrite H.
Qed.

(** The clock map fetched for the wallets map of some potential requests
    has an entry for the secondary of each of them. *)
Lemma retrieveClockStatusesStage_returns c st potential :
  (∀ node wallets, ∃ resp, batchClockStatus c node wallets = Returns resp) →
  ∃ clocks,
    (retrieveClockStatusesStage c (buildSecondaryNodesToUserWalletsMap potential) st).1
    = Returns clocks
    ∧ ∀ u, u ∈ potential → clocks !! prop_key (psr_endpoint u) ≠ None.
Proof.
  intros Hbatch.
  unfold retrieveClockStatusesStage, tryCatch, mbind, Async_bind, await,
    retrieveClockStatusesForSecondaryUsersFromNodes.
  pose proof (retrieveClockStatuses_spec c
                (map_to_list (buildSecondaryNodesToUserWalletsMap potential)) ∅
                (NoDup_fst_map_to_list _)) as H.
  destruct (retrieveClockStatuses c _ ∅) as [clocks|e].
  - exists clocks. split; [done|]. intros u Hu. destruct H as [H _].
    assert (∃ ws, buildSecondaryNodesToUserWalletsMap potential
                    !! prop_key (psr_endpoint u) = Some ws) as [ws Hws].
    { unfold buildSecondaryNodesToUserWalletsMap.
      rewrite buildSecondaryNodesToUserWalletsMap_fold, lookup_empty.
      destruct (filter _ potential) as [|x l] eqn:E; [|by eauto].
      assert (u ∈ filter (λ r, prop_key (psr_endpoint r) = prop_key (psr_endpoint u))
                    potential) as Hin by by apply list_elem_of_filter.
      rewrite E in Hin. by apply elem_of_nil in Hin. }
    apply elem_of_map_to_list in Hws. destruct (H _ _ Hws) as (resp & _ & ->). done.
  - destruct H as (k & ws & _ & He). destruct (Hbatch k ws) as [resp Hr]. congruence.
Qed.

Lemma issueSyncRequestsStage_returns c st potential clocks :
  (∀ wallets, ∃ rows, findCNodeUsers c wallets = Returns rows) →
  (∀ t props, brokerAccepts c t props = true) →
  (∀ u, u ∈ potential → clocks !! prop_key (psr_endpoint u) ≠ None) →
  ∃ resp, (issueSyncRequestsStage c potential clocks st).1 = Returns resp
          ∧ syncRequestErrors resp = []
          ∧ numSyncRequestsIssued resp = numSyncRequestsRequired resp.
Proof.
  intros Hdb Hbroker Hclocks. destruct st as [w l].
  destruct (Hdb ((λ user, wallet (psr_user user)) <$> potential)) as [rows Hrows].
  pose proof (issueSyncRequests_run _ _ clocks w _ Hrows) as E. cbv zeta in E.
  match type of E with context [foldl (issueSyncRequest_start c ?local clocks) ?st _] =>
    pose proof (issueSyncRequest_start_fold c local clocks potential w
                  {| numSyncRequestsRequired := 0; numSyncRequestsIssued := 0;
                     syncRequestErrors := [] |} []) as H1;
    destruct (foldl (issueSyncRequest_start c local clocks) st potential)
      as [[w1 resp1] suspended]
  end.
  cbv zeta in H1. cbn [fst snd] in H1, E.
  destruct H1 as (_ & _ & _ & S4 & S5 & S6 & _ & S8).
  pose proof (issueSyncRequest_resume_fold suspended w1 resp1) as H2. cbv zeta in H2.
  destruct (foldl issueSyncRequest_resume (w1, resp1) suspended) as [w2 resp2].
  cbn [fst snd] in H2, E. destruct H2 as (_ & _ & _ & R4 & _ & R6 & R7).
  specialize (R7 (S8 Hbroker ltac:(constructor))).
  rewrite (filter_none _ potential) in S6 by (intros u Hu; by apply Hclocks).
  simpl in S4, S5, S6. rewrite S6 in R7. rewrite R7, S6 in R6.
  unfold len in *. simpl in *.
  assert (Heq : numSyncRequestsIssued resp2 = numSyncRequestsRequired resp2) by lia.
  exists resp2. split; [|done].
  rewrite (issueSyncRequestsStage_outcome _ _ _ _ l _ _ E), R7.
  case_bool_decide as Hgt; [|done]. unfold len in Hgt. simpl in Hgt. lia.
Qed.

(** X23.  An iteration runs to its end, and the slice moves on, as soon
    as discovery lists the users and the unhealthy peers, every secondary
    answers the batched clock request, the database answers and the broker
    accepts every job.  Nothing is asked of the selection of new nodes or
    of the registry: their failures are swallowed by the reconfiguration
    and never abort the iteration. *)
Theorem iteration_completes_when_fetches_and_broker_answer (c : Collaborators) (w : World)
    (users : list NodeUser) (sick : gset string) :
  getNodeUsers c = Returns users →
  getUnhealthyPeers c (sliceUsers (currentModuloSlice w) users) = Returns sick →
  (∀ node wallets, ∃ resp, batchClockStatus c node wallets = Returns resp) →
  (∀ wallets, ∃ rows, findCNodeUsers c wallets = Returns rows) →
  (∀ t props, brokerAccepts c t props = true) →
  (processStateMachineOperation_try c (w, entryLocals w)).1 = Returns tt
  ∧ currentModuloSlice (processStateMachineOperation c w).2
    = Z.rem (currentModuloSlice w + 1) 24.
Proof.
  intros Husers Hsick Hbatch Hdb Hbroker.
  assert (Hret : (processStateMachineOperation_try c (w, entryLocals w)).1 = Returns tt).
  { unfold processStateMachineOperation_try, mbind, Async_bind.
    pose proof (getNodeUsersStage_returns c (w, entryLocals w) users Husers) as R1.
    destruct (getNodeUsersStage c (w, entryLocals w)) as [r1 st1]. simpl in R1. subst r1.
    pose proof (getUnhealthyPeersStage_returns c st1 _ sick Hsick) as R2.
    destruct (getUnhealthyPeersStage c _ st1) as [r2 st2]. simpl in R2. subst r2.
    pose proof (planStage_tree c (sliceUsers (currentModuloSlice w) users) sick st2)
      as [R3 _].
    destruct (planStage c _ sick st2) as [r3 st3]. simpl in R3. subst r3.
    destruct (planNodeUsers c sick _) as [ops potential]. cbn [fst snd].
    destruct (retrieveClockStatusesStage_returns c st3 potential Hbatch)
      as (clocks & R4 & Hclocks).
    destruct (retrieveClockStatusesStage c _ st3) as [r4 st4]. simpl in R4. subst r4.
    destruct (issueSyncRequestsStage_returns c st4 potential clocks Hdb Hbroker Hclocks)
      as (resp & R5 & _).
    destruct (issueSyncRequestsStage c potential clocks st4) as [r5 st5].
    simpl in R5. subst r5.
    pose proof (issueUpdateReplicaSetOpStage_returns c ops st5) as R6.
    destruct (issueUpdateReplicaSetOpStage c ops st5) as [r6 st6]. simpl in R6. subst r6.
    apply advanceSlice_returns. }
  split; [done|]. by rewrite slice_processStateMachineOperation, Hret.
Qed.

Lemma iteration_completes_when_fetches_and_broker_answer_witness :
  (processStateMachineOperation_try (Scenario.steady 10 5)
     (Scenario.idle, entryLocals Scenario.idle)).1 = Returns tt
  ∧ currentModuloSlice (processStateMachineOperation (Scenario.steady 10 5) Scenario.idle).2
    = Z.rem (currentModuloSlice Scenario.idle + 1) 24.
Proof.
  exact (iteration_completes_when_fetches_and_broker_answer (Scenario.steady 10 5)
           Scenario.idle [Scenario.user 5 "0xabc"] ∅
           eq_refl ltac:(vm_compute; reflexivity)
           (λ _ _, ex_intro _ _ eq_refl) (λ _, ex_intro _ _ eq_refl) (λ _ _, eq_refl)).
Defined.

(** ** A job that fails, and when the monitor gives up *)

(** X24.  A job whose processing fails before the monitoring starts, on
    the database lookup or on the sync request to the secondary, is
    dropped: the worker logs the error and returns, the job is off the
    waiting list, its fingerprint is free again, and nothing is put back
    on the queue. *)
Theorem processNextJob_drops_the_job_when_the_request_fails (c : Collaborators)
    (t : SyncType) (w : World) (job : Job) (rest : list Job) (wl : string)
    (sec : option string) (e : string) :
  waiting (queueOf t w) = job :: rest →
  jobFingerprint t job = (t, wl, sec) →
  findCNodeUsers c [wl] = Throws e
  ∨ (∃ rows, findCNodeUsers c [wl] = Returns rows)
    ∧ postSync c (syncRequestParameters (job_data job)) = Throws e →
  let result := processNextJob c t w in
  result.1 = Returns tt
  ∧ waiting (queueOf t result.2) = rest
  ∧ counter (queueOf t result.2) = counter (queueOf t w)
  ∧ syncDeDuplicator result.2 = delete (t, wl, sec) (syncDeDuplicator w)
  ∧ last (logs result.2) = Some (LogQueueError t e).
Proof.
  intros Hq Hfp Hfail. cbv zeta.
  rewrite processNextJob_run, Hq. cbv zeta. rewrite processSyncOperation_run. cbv zeta.
  unfold jobFingerprint in Hfp. cbv zeta in Hfp. injection Hfp as -> ->.
  unfold getUserPrimaryClockValues.
  destruct Hfail as [Hdb | [[rows Hdb] Hpost]]; rewrite Hdb; [|rewrite Hpost];
    cbn [fst snd]; (split; [done|]);
    rewrite !queueOf_set_queueOf, !decide_True, dedup_set_queueOf by done;
    cbn [waiting counter logs set_logs syncDeDuplicator set_dedup];
    rewrite ?last_snoc, ?dedup_set_queueOf;
    destruct t; simpl; rewrite ?last_snoc; done.
Qed.

Lemma processNextJob_drops_the_job_when_the_request_fails_witness :
  let seed := manualImmediate "0xabc" (Some Scenario.cn2) (Some Scenario.cn4) in
  let w := (enqueueSync secondaryDown seed Scenario.idle).2 in
  waiting (queueOf Manual (processNextJob secondaryDown Manual w).2) = [].
Proof.
  exact (proj1 (proj2
    (processNextJob_drops_the_job_when_the_request_fails secondaryDown Manual
       (enqueueSync secondaryDown
          (manualImmediate "0xabc" (Some Scenario.cn2) (Some Scenario.cn4)) Scenario.idle).2
       (syncJob 1 (manualImmediate "0xabc" (Some Scenario.cn2) (Some Scenario.cn4))
          1600000000000)
       [] "0xabc" (Some Scenario.cn4) "ECONNREFUSED"
       ltac:(vm_compute; reflexivity) ltac:(reflexivity)
       ltac:(right; split; [eexists; vm_compute; reflexivity|reflexivity])))).
Defined.

Lemma monitorRound_gives_up c wl P sec startTimeMs now n lines :
  monitorRound c wl P sec startTimeMs now n = (Some true, lines) →
  ∃ k, LogMaxExportExceeded wl sec k ∈ lines.
Proof.
  unfold monitorRound. destruct (clockStatus c sec wl n) as [k|e]; [|done].
  destruct (js_lt _ _).
  - intros H. injection H as <-. exists k. set_solver.
  - by destruct (js_ge _ _).
Qed.

Lemma monitorLoop_exit_time c wl P sec startTimeMs endTimeMs now n logged :
  let result := monitorLoop c wl P sec startTimeMs endTimeMs now n logged in
  (now ≤ result.2)%Z
  ∧ (result.1.1 = true →
     (∀ k, LogMaxExportExceeded wl sec k ∉ result.1.2) →
     (endTimeMs ≤ result.2)%Z).
Proof.
  funelim (monitorLoop c wl P sec startTimeMs endTimeMs now n logged); simpl.
  - split; [lia|]. intros _ _. lia.
  - split; [lia|]. intros -> Hnone.
    apply monitorRound_gives_up in Heq as [k Hk].
    destruct (Hnone k). apply elem_of_app. by right.
  - simpl in H. unfold SyncMonitoringRetryDelayMs in *. destruct H as [H1 H2].
    split; [lia|done].
Qed.

(** X25.  The monitor never returns before it was called, and it gives
    up, answering "additional sync required" without having seen the
    export range exceeded, only once the deadline of 6 minutes has
    passed. *)
Theorem additionalSyncIsRequired_gives_up_only_at_the_deadline (c : Collaborators)
    (wl : string) (P : option Z) (sec : option string) (t : SyncType) (startTimeMs : Z) :
  let result := additionalSyncIsRequired c wl P sec t startTimeMs in
  (startTimeMs ≤ result.2)%Z
  ∧ (result.1.1 = true →
     (∀ k, LogMaxExportExceeded wl sec k ∉ result.1.2) →
     (startTimeMs + 360000 ≤ result.2)%Z).
Proof. apply monitorLoop_exit_time. Qed.

(** ** Where recurring syncs come from *)

Lemma enqueueSync_start_recurring_jobs c wl sec w (P : Job → Prop) :
  (∀ id now, P (syncJob id (recurringSync c wl sec) now)) →
  Forall P (waiting (recurringSyncQueue w)) →
  Forall P (waiting (recurringSyncQueue (enqueueSync_start c (recurringSync c wl sec) w).2)).
Proof.
  intros HP Hw. unfold enqueueSync_start, queueAdd. simpl.
  destruct (SyncDeDuplicator.getDuplicateSyncJobInfo _ _ _ _); simpl; [done|].
  destruct (brokerAccepts c Recurring _); simpl; [|done].
  apply Forall_app. split; [done|]. constructor; [|constructor]. apply HP.
Qed.

Lemma issueSyncRequest_start_fold_jobs c clocks m users (P : Job → Prop) st :
  (∀ u id now, u ∈ users →
     P (syncJob id (recurringSync c (wallet (psr_user u)) (psr_endpoint u)) now)) →
  Forall P (waiting (recurringSyncQueue st.1.1)) →
  Forall P (waiting (recurringSyncQueue
                       (foldl (issueSyncRequest_start c clocks m) st users).1.1)).
Proof.
  revert st. induction users as [|u users IH]; intros [[w resp] suspended] HP Hw; [done|].
  cbn [foldl]. apply IH; [intros u' id now Hu'; apply HP; by right|].
  rewrite issueSyncRequest_start_step. destruct (m !! _); [|done].
  destruct (syncRequired _ _); [|done]. cbv zeta. cbn [fst snd] in *.
  apply enqueueSync_start_recurring_jobs; [|done]. intros id now. apply HP. by left.
Qed.

Lemma issueSyncRequests_jobs c users m w (P : Job → Prop) :
  (∀ u id now, u ∈ users →
     P (syncJob id (recurringSync c (wallet (psr_user u)) (psr_endpoint u)) now)) →
  Forall P (waiting (recurringSyncQueue w)) →
  Forall P (waiting (recurringSyncQueue (issueSyncRequests c users m w).2)).
Proof.
  intros HP Hw.
  destruct (findCNodeUsers c ((λ user, wallet (psr_user user)) <$> users))
    as [rows|e] eqn:E;
    [|by rewrite (issueSyncRequests_database_error _ _ _ _ _ E)].
  rewrite (issueSyncRequests_run _ _ _ _ _ E). cbn [snd].
  match goal with |- context [foldl (issueSyncRequest_start c ?clocks m) ?st _] =>
    pose proof (issueSyncRequest_start_fold_jobs c clocks m users P st HP Hw) as H1;
    destruct (foldl (issueSyncRequest_start c clocks m) st users)
      as [[w1 resp1] suspended]
  end.
  cbn [fst snd] in H1 |- *.
  pose proof (issueSyncRequest_resume_fold suspended w1 resp1) as H2. cbv zeta in H2.
  destruct (foldl issueSyncRequest_resume (w1, resp1) suspended) as [w2 resp2].
  cbn [fst snd] in H2 |- *. destruct H2 as (_ & R2 & _). by rewrite R2.
Qed.

Lemma getNodeUsersStage_inv c st users' :
  (getNodeUsersStage c st).1 = Returns users' →
  ∃ users, getNodeUsers c = Returns users ∧ users' = sliceUsers (sliceOf st) users.
Proof.
  unfold getNodeUsersStage, tryCatch, mbind, Async_bind, await, gets.
  destruct (getNodeUsers c) as [users|e]; simpl; [|done].
  intros H. injection H as <-. eauto.
Qed.

Lemma getUnhealthyPeersStage_inv c st users sick :
  (getUnhealthyPeersStage c users st).1 = Returns sick →
  getUnhealthyPeers c users = Returns sick.
Proof.
  unfold getUnhealthyPeersStage, tryCatch, mbind, Async_bind, await.
  destruct (getUnhealthyPeers c users) as [s|e]; simpl; [|done]. by intros [= ->].
Qed.

Lemma issueSyncRequestsStage_world c users m st :
  (issueSyncRequestsStage c users m st).2.1 = (issueSyncRequests c users m st.1).2.
Proof.
  destruct st as [w l].
  unfold issueSyncRequestsStage, tryCatch, mbind, Async_bind, liftW. simpl.
  destruct (issueSyncRequests c users m w) as [[resp|e] w']; simpl; [|done].
  by case_bool_decide.
Qed.

Lemma recurring_issueUpdateReplicaSetOp c userId wl p s1 s2 unhealthy :
  preserves recurringSyncQueue (issueUpdateReplicaSetOp c userId wl p s1 s2 unhealthy).
Proof.
  intros w.
  by destruct (grows_issueUpdateReplicaSetOp c userId wl p s1 s2 unhealthy
                 (waiting (manualSyncQueue w)) (ursm w) (recurringSyncQueue w) w)
    as (_ & _ & H).
Qed.

Lemma recurring_issueUpdateReplicaSetOpStage c ops :
  preserves (λ st : World * Locals, recurringSyncQueue st.1)
    (issueUpdateReplicaSetOpStage c ops).
Proof.
  pose proof (recurring_issueUpdateReplicaSetOp c).
  unfold issueUpdateReplicaSetOpStage. auto 10 with preserves.
Qed.

Lemma recurring_advanceSlice issued ops st :
  recurringSyncQueue (advanceSlice issued ops st).2.1 = recurringSyncQueue st.1.
Proof. by destruct st. Qed.

(** The recurring queue after the body of an iteration: as it was, or as
    the sync stage left it. *)
Lemma processStateMachineOperation_try_recurring c st :
  recurringSyncQueue (processStateMachineOperation_try c st).2.1 = recurringSyncQueue st.1
  ∨ ∃ users sick clocks w4,
      getNodeUsers c = Returns users
      ∧ getUnhealthyPeers c (sliceUsers (sliceOf st) users) = Returns sick
      ∧ recurringSyncQueue w4 = recurringSyncQueue st.1
      ∧ recurringSyncQueue (processStateMachineOperation_try c st).2.1
        = recurringSyncQueue
            (issueSyncRequests c (planNodeUsers c sick (sliceUsers (sliceOf st) users)).2
               clocks w4).2.
Proof.
  unfold processStateMachineOperation_try, mbind, Async_bind.
  pose proof (kept_getNodeUsersStage recurringSyncQueue c st) as H1.
  pose proof (getNodeUsersStage_inv c st) as I1.
  destruct (getNodeUsersStage c st) as [[users'|e] st1]; simpl in H1, I1; [|by left].
  destruct (I1 _ eq_refl) as (users & Husers & ->). clear I1.
  pose proof (kept_getUnhealthyPeersStage recurringSyncQueue c
                (sliceUsers (sliceOf st) users) st1) as H2.
  pose proof (getUnhealthyPeersStage_inv c st1 (sliceUsers (sliceOf st) users)) as I2.
  destruct (getUnhealthyPeersStage c _ st1) as [[sick|e] st2]; simpl in H2, I2;
    [|left; simpl; congruence].
  specialize (I2 _ eq_refl).
  pose proof (kept_planStage recurringSyncQueue c (sliceUsers (sliceOf st) users) sick st2)
    as H3.
  pose proof (planStage_tree c (sliceUsers (sliceOf st) users) sick st2) as [R3 _].
  destruct (planStage c _ sick st2) as [r3 st3]. simpl in H3, R3. subst r3.
  destruct (planNodeUsers c sick _) as [ops potential] eqn:Eplan. cbn [fst snd].
  pose proof (kept_retrieveClockStatusesStage recurringSyncQueue c
                (buildSecondaryNodesToUserWalletsMap potential) st3) as H4.
  destruct (retrieveClockStatusesStage c _ st3) as [[clocks|e] st4]; simpl in H4;
    [|left; simpl; congruence].
  right. exists users, sick, clocks, st4.1.
  split; [done|]. split; [done|]. split; [congruence|].
  pose proof (issueSyncRequestsStage_world c potential clocks st4) as H5.
  destruct (issueSyncRequestsStage c potential clocks st4) as [[resp|e] st5];
    simpl in H5; rewrite Eplan; [|simpl; by rewrite H5].
  pose proof (recurring_issueUpdateReplicaSetOpStage c ops st5) as H6.
  pose proof (issueUpdateReplicaSetOpStage_returns c ops st5) as R6.
  destruct (issueUpdateReplicaSetOpStage c ops st5) as [[n|e] st6]; simpl in H6, R6; [|done].
  rewrite recurring_advanceSlice. simpl. congruence.
Qed.

(** X26.  Whatever an iteration adds to the recurring queue is a sync
    from this node to a secondary of one of its own users: the user is in
    the current slice of the list discovery returned, this node is its
    primary, and the target is a set secondary slot that passed the health
    probe.  The job is Recurring, not immediate, and names this node as
    its source. *)
Theorem iteration_enqueues_recurring_syncs_for_own_users_only (c : Collaborators)
    (w : World) (job : Job) :
  job ∈ waiting (recurringSyncQueue (processStateMachineOperation c w).2) →
  job ∈ waiting (recurringSyncQueue w)
  ∨ ∃ users sick u sec id now,
      getNodeUsers c = Returns users
      ∧ getUnhealthyPeers c (sliceUsers (currentModuloSlice w) users) = Returns sick
      ∧ u ∈ sliceUsers (currentModuloSlice w) users
      ∧ primary u = Some (endpoint c)
      ∧ sec ∈ [secondary1 u; secondary2 u]
      ∧ truthy sec
      ∧ ¬ unhealthyPeersHas sick sec
      ∧ job = syncJob id (recurringSync c (wallet u) sec) now.
Proof.
  rewrite processStateMachineOperation_run. cbv zeta. cbn [snd recurringSyncQueue set_logs].
  destruct (processStateMachineOperation_try_recurring c (w, entryLocals w))
    as [-> | (users & sick & clocks & w4 & Husers & Hsick & Hw4 & ->)]; [by left|].
  cbn [fst] in *. intros Hjob.
  pose proof (issueSyncRequests_jobs c
                (planNodeUsers c sick (sliceUsers (currentModuloSlice w) users)).2 clocks w4
                (λ job, job ∈ waiting (recurringSyncQueue w)
                        ∨ ∃ r id now,
                            r ∈ (planNodeUsers c sick
                                   (sliceUsers (currentModuloSlice w) users)).2
                            ∧ job = syncJob id (recurringSync c (wallet (psr_user r))
                                                  (psr_endpoint r)) now)) as H.
  cbv beta in H.
  assert (Hall := proj1 (Forall_forall _ _)
            (H ltac:(intros r id now Hr; right; eauto)
               ltac:(rewrite Hw4; apply Forall_forall; intros; by left)) job Hjob).
  clear H. destruct Hall as [Hold | (r & id & now & Hr & ->)]; [by left|]. right.
  rewrite planNodeUsers_eq in Hr. cbn [snd] in Hr.
  apply list_elem_of_bind in Hr as (u & Hr & Hu). rewrite planNodeUser_step in Hr.
  destruct (decide (primary u = Some (endpoint c))) as [Hp|Hp]; cbn [snd app] in Hr;
    [|by apply elem_of_nil in Hr].
  apply list_elem_of_fmap in Hr as (s & -> & Hs). cbn [psr_user psr_endpoint].
  rewrite !list_elem_of_filter in Hs. destruct Hs as (Hh & Ht & Hs).
  exists users, sick, u, s, id, now. done.
Qed.

Lemma iteration_enqueues_recurring_syncs_for_own_users_only_witness :
  let c := Scenario.steady 10 5 in
  let job := syncJob 1 (recurringSync c "0xabc" (Some Scenario.cn2)) 1600000000000 in
  job ∈ waiting (recurringSyncQueue Scenario.idle)
  ∨ ∃ users sick u sec id now,
      getNodeUsers c = Returns users
      ∧ getUnhealthyPeers c (sliceUsers (currentModuloSlice Scenario.idle) users)
        = Returns sick
      ∧ u ∈ sliceUsers (currentModuloSlice Scenario.idle) users
      ∧ primary u = Some (endpoint c)
      ∧ sec ∈ [secondary1 u; secondary2 u]
      ∧ truthy sec
      ∧ ¬ unhealthyPeersHas sick sec
      ∧ job = syncJob id (recurringSync c (wallet u) sec) now.
Proof.
  exact (iteration_enqueues_recurring_syncs_for_own_users_only (Scenario.steady 10 5)
           Scenario.idle
           (syncJob 1 (recurringSync (Scenario.steady 10 5) "0xabc" (Some Scenario.cn2))
              1600000000000)
           ltac:(vm_compute; left)).
Defined.

(** ** An iteration in a healthy network *)

Lemma preserves_forEach_in {St A B} (f : St → B) (l : list A) (g : A → Async St unit) :
  (∀ a, a ∈ l → preserves f (g a)) → preserves f (forEach l g).
Proof.
  induction l as [|x l IH]; intros Hg; simpl; [apply preserves_ret|].
  apply preserves_bind; [apply Hg; by left|intros _].
  apply IH. intros a Ha. apply Hg. by right.
Qed.

Section ReconfigurationFree.
Context {B : Type} (f : World → B) (c : Collaborators).
Hypothesis issueSyncRequests_keeps : ∀ users m, preserves f (issueSyncRequests c users m).
Hypothesis set_slice_keeps : ∀ z w, f (set_slice z w) = f w.

Lemma kept_advanceSlice issued ops st : f (advanceSlice issued ops st).2.1 = f st.1.
Proof. destruct st as [w l]. simpl. by rewrite !set_slice_keeps. Qed.

(** The body of an iteration keeps what each of its reconfigurations
    keeps. *)
Lemma kept_when_reconfigurations_keep st :
  (∀ users sick op,
     getNodeUsers c = Returns users →
     getUnhealthyPeers c (sliceUsers (sliceOf st) users) = Returns sick →
     op ∈ (planNodeUsers c sick (sliceUsers (sliceOf st) users)).1 →
     preserves f (issueUpdateReplicaSetOp c (user_id (op_user op)) (wallet (op_user op))
                    (primary (op_user op)) (secondary1 (op_user op))
                    (secondary2 (op_user op)) (op_unhealthyReplicas op))) →
  f (processStateMachineOperation_try c st).2.1 = f st.1.
Proof.
  intros Hops.
  unfold processStateMachineOperation_try, mbind, Async_bind.
  pose proof (kept_getNodeUsersStage f c st) as H1.
  pose proof (getNodeUsersStage_inv c st) as I1.
  destruct (getNodeUsersStage c st) as [[users'|e] st1]; simpl in H1, I1; [|done].
  destruct (I1 _ eq_refl) as (users & Husers & ->). clear I1.
  pose proof (kept_getUnhealthyPeersStage f c (sliceUsers (sliceOf st) users) st1) as H2.
  pose proof (getUnhealthyPeersStage_inv c st1 (sliceUsers (sliceOf st) users)) as I2.
  destruct (getUnhealthyPeersStage c _ st1) as [[sick|e] st2]; simpl in H2, I2;
    [|simpl; congruence].
  specialize (I2 _ eq_refl). specialize (Hops users sick).
  pose proof (kept_planStage f c (sliceUsers (sliceOf st) users) sick st2) as H3.
  pose proof (planStage_tree c (sliceUsers (sliceOf st) users) sick st2) as [R3 _].
  destruct (planStage c _ sick st2) as [r3 st3]. simpl in H3, R3. subst r3.
  destruct (planNodeUsers c sick _) as [ops potential]. cbn [fst snd] in *.
  pose proof (kept_retrieveClockStatusesStage f c
                (buildSecondaryNodesToUserWalletsMap potential) st3) as H4.
  destruct (retrieveClockStatusesStage c _ st3) as [[clocks|e] st4]; simpl in H4;
    [|simpl; congruence].
  pose proof (kept_issueSyncRequestsStage f c issueSyncRequests_keeps potential clocks st4)
    as H5.
  destruct (issueSyncRequestsStage c potential clocks st4) as [[resp|e] st5]; simpl in H5;
    [|simpl; congruence].
  assert (H6 : f (issueUpdateReplicaSetOpStage c ops st5).2.1 = f st5.1).
  { assert (preserves (λ st : World * Locals, f st.1) (issueUpdateReplicaSetOpStage c ops))
      as Hp; [|apply Hp].
    unfold issueUpdateReplicaSetOpStage.
    apply preserves_tryCatch; [|auto with preserves].
    apply preserves_bind; [|auto with preserves].
    apply preserves_forEach_in. intros op Hop.
    apply (preserves_liftW f). by apply Hops. }
  pose proof (issueUpdateReplicaSetOpStage_returns c ops st5) as R6.
  destruct (issueUpdateReplicaSetOpStage c ops st5) as [[n|e] st6]; simpl in H6, R6; [|done].
  rewrite kept_advanceSlice. simpl. congruence.
Qed.
End ReconfigurationFree.

Lemma healthy_plan_reports_nothing c users op :
  op ∈ (planNodeUsers c ∅ users).1 → op_unhealthyReplicas op = [].
Proof.
  rewrite planNodeUsers_eq. cbn [fst].
  intros (u & Hop & Hu)%list_elem_of_bind. rewrite planNodeUser_step in Hop.
  assert (Hnone : ∀ l : list (option string), filter (unhealthyPeersHas ∅) l = []).
  { intros l. apply filter_none. intros [s|] _ H; simpl in H; [|done].
    apply bool_decide_unpack in H. set_solver. }
  destruct (decide (primary u = Some (endpoint c))); cbn [fst app] in Hop;
    apply list_elem_of_singleton in Hop; subst op; cbn [op_unhealthyReplicas];
    apply Hnone.
Qed.

Lemma issueUpdateReplicaSetOp_nothing_unhealthy c userId wl p s1 s2 w :
  issueUpdateReplicaSetOp c userId wl p s1 s2 [] w
  = (Returns tt, set_logs (logs w ++ [LogIssueUpdateReplicaSetOp userId wl []]) w).
Proof.
  apply issueUpdateReplicaSetOp_all_healthy.
  repeat constructor; by intros ?%elem_of_nil.
Qed.

(** X27.  When the health probe reports no unhealthy peer, an iteration
    reconfigures nothing: every user of the slice is still handed to
    [issueUpdateReplicaSetOp], but with an empty list of unhealthy
    replicas each call is a no-op, so the registry and the manual queue
    are as before. *)
Theorem healthy_network_iteration_reconfigures_nothing (c : Collaborators) (w : World) :
  (∀ users, getUnhealthyPeers c users = Returns ∅) →
  let result := processStateMachineOperation c w in
  ursm result.2 = ursm w ∧ manualSyncQueue result.2 = manualSyncQueue w.
Proof.
  intros Hsick. cbv zeta. rewrite processStateMachineOperation_run. cbv zeta.
  cbn [snd ursm manualSyncQueue set_logs]. split.
  - apply (kept_when_reconfigurations_keep ursm c); [|done|].
    + intros users m w0. apply issueSyncRequests_frame.
    + intros users sick op _ Hs Hop w0. rewrite Hsick in Hs. injection Hs as <-.
      rewrite (healthy_plan_reports_nothing _ _ _ Hop).
      by rewrite issueUpdateReplicaSetOp_nothing_unhealthy.
  - apply (kept_when_reconfigurations_keep manualSyncQueue c); [|done|].
    + intros users m w0. apply issueSyncRequests_frame.
    + intros users sick op _ Hs Hop w0. rewrite Hsick in Hs. injection Hs as <-.
      rewrite (healthy_plan_reports_nothing _ _ _ Hop).
      by rewrite issueUpdateReplicaSetOp_nothing_unhealthy.
Qed.

Lemma healthy_network_iteration_reconfigures_nothing_witness :
  ursm (processStateMachineOperation (Scenario.steady 10 5) Scenario.idle).2
  = ursm Scenario.idle
  ∧ manualSyncQueue (processStateMachineOperation (Scenario.steady 10 5) Scenario.idle).2
    = manualSyncQueue Scenario.idle.
Proof.
  exact (healthy_network_iteration_reconfigures_nothing (Scenario.steady 10 5) Scenario.idle
           (λ _, eq_refl)).
Defined.

(** ** A sync from enqueue to completion *)

(** X28.  Round trip of one sync.  A sync enqueued for a free fingerprint
    on an empty queue and then processed, with the secondary caught up
    when the monitor looks, leaves no trace in the sync state: the queue
    is empty again, the de-duplicator is as before the enqueue, and the
    other queue and the registry were never touched. *)
Theorem processed_sync_leaves_no_trace (c : Collaborators) (a : EnqueueSyncArgs)
    (w : World) (rows : list (string * Z)) :
  syncDeDuplicator w !! (syncType a, userWallet a, secondaryEndpoint a) = None →
  waiting (queueOf (syncType a) w) = [] →
  (∀ t props, brokerAccepts c t props = true) →
  findCNodeUsers c [userWallet a] = Returns rows →
  (∀ params, postSync c params = Returns tt) →
  (additionalSyncIsRequired c (userWallet a)
     (foldl (λ o k, <[k.1 := k.2]> o) (∅ : gmap string Z) rows !! userWallet a)
     (secondaryEndpoint a) (syncType a) (dateNow w)).1.1 = false →
  let w2 := (processNextJob c (syncType a) (enqueueSync c a w).2).2 in
  waiting (queueOf (syncType a) w2) = []
  ∧ syncDeDuplicator w2 = syncDeDuplicator w
  ∧ (∀ t, t ≠ syncType a → queueOf t w2 = queueOf t w)
  ∧ ursm w2 = ursm w.
Proof.
  intros Hfree Hempty Hbroker Hdb Hpost Hdone. cbv zeta.
  pose proof (enqueueSync_fresh c a w Hfree (Hbroker _ _)) as ->. cbv zeta. cbn [snd].
  rewrite Hempty. cbn [app].
  set (job := syncJob (counter (queueOf (syncType a) w) + 1) a (dateNow w)).
  rewrite processNextJob_run.
  rewrite queueOf_set_dedup, queueOf_set_queueOf, decide_True by done.
  cbn [waiting counter active]. cbv zeta.
  rewrite processSyncOperation_run. cbv zeta.
  cbn [job syncJob job_data syncRequestParameters data srd_wallet head default baseURL job_id].
  unfold getUserPrimaryClockValues, id. rewrite Hdb, Hpost.
  cbv beta iota zeta.
  do 2 (cbn [dateNow set_logs set_dedup]; rewrite !dateNow_set_queueOf).
  destruct (additionalSyncIsRequired c _ _ _ (syncType a) (dateNow w))
    as [[required lines] finished].
  cbn [fst snd] in Hdone |- *. subst required. cbn [fst snd].
  split; [by destruct (syncType a)|].
  split.
  - destruct (syncType a); simpl; by rewrite delete_insert_id.
  - split; [intros t Ht; by destruct (syncType a), t|by destruct (syncType a)].
Qed.

Lemma processed_sync_leaves_no_trace_witness :
  let c := Scenario.steady 10 10 in
  let a := manualImmediate "0xabc" (Some Scenario.self) (Some Scenario.cn4) in
  let w2 := (processNextJob c Manual (enqueueSync c a Scenario.idle).2).2 in
  waiting (queueOf Manual w2) = []
  ∧ syncDeDuplicator w2 = syncDeDuplicator Scenario.idle
  ∧ (∀ t, t ≠ Manual → queueOf t w2 = queueOf t Scenario.idle)
  ∧ ursm w2 = ursm Scenario.idle.
Proof.
  exact (processed_sync_leaves_no_trace (Scenario.steady 10 10)
           (manualImmediate "0xabc" (Some Scenario.self) (Some Scenario.cn4))
           Scenario.idle [("0xabc", 10)]
           eq_refl eq_refl (λ _ _, eq_refl) ltac:(vm_compute; reflexivity)
           (λ _, eq_refl) ltac:(vm_compute; reflexivity)).
Defined.

(** ** Which syncs are required *)

Lemma issueSyncRequest_start_fold_required c clocks m users st :
  numSyncRequestsRequired (foldl (issueSyncRequest_start c clocks m) st users).1.2
  = (numSyncRequestsRequired st.1.2 + len (filter (needsSync clocks m) users))%Z.
Proof.
  revert st. induction users as [|u users IH]; intros [[w resp] suspended].
  - unfold len. simpl. lia.
  - cbn [foldl]. rewrite IH, issueSyncRequest_start_step, filter_cons.
    assert (E : needsSync clocks m u
                = match m !! prop_key (psr_endpoint u) with
                  | Some nodeClocks =>
                      syncRequired (clocks !! wallet (psr_user u))
                        (nodeClocks !! wallet (psr_user u))
                  | None => false
                  end) by done.
    destruct (m !! prop_key (psr_endpoint u)) as [nodeClocks|].
    + destruct (syncRequired _ _); rewrite E.
      * cbv zeta. cbn [fst snd numSyncRequestsRequired]. rewrite decide_True by done.
        unfold len. cbn [length]. lia.
      * by rewrite decide_False by (by intros []).
    + rewrite E. by rewrite decide_False by (by intros []).
Qed.

(** X29.  [numSyncRequestsRequired] counts exactly the requests that
    pass the clock test: the secondary has an entry in the clock map, and
    the user's clock there is missing, is 0, or is smaller than the user's
    clock on this node.  A user without a clock on this node is counted
    only in the first two cases. *)
Theorem issueSyncRequests_requires_a_sync_iff_behind (c : Collaborators)
    (userReplicaSets : list PotentialSyncRequest)
    (clocksMap : gmap string (gmap string Z)) (w : World)
    (rows : list (string * Z)) :
  findCNodeUsers c ((λ user, wallet (psr_user user)) <$> userReplicaSets) = Returns rows →
  let clocks := foldl (λ o k, <[k.1 := k.2]> o) (∅ : gmap string Z) rows in
  (∃ resp, (issueSyncRequests c userReplicaSets clocksMap w).1 = Returns resp
           ∧ numSyncRequestsRequired resp
             = len (filter (needsSync clocks clocksMap) userReplicaSets))
  ∧ ∀ u, needsSync clocks clocksMap u
         ↔ ∃ nodeClocks,
             clocksMap !! prop_key (psr_endpoint u) = Some nodeClocks
             ∧ (nodeClocks !! wallet (psr_user u) = None
                ∨ nodeClocks !! wallet (psr_user u) = Some 0%Z
                ∨ ∃ x y, clocks !! wallet (psr_user u) = Some x
                         ∧ nodeClocks !! wallet (psr_user u) = Some y ∧ (y < x)%Z).
Proof.
  intros Hdb clocks. split.
  - rewrite (issueSyncRequests_run _ _ _ _ _ Hdb). cbn [fst]. eexists. split; [done|].
    fold clocks.
    match goal with |- context [foldl (issueSyncRequest_start c clocks clocksMap) ?st _] =>
      pose proof (issueSyncRequest_start_fold_required c clocks clocksMap userReplicaSets st)
        as H1;
      destruct (foldl (issueSyncRequest_start c clocks clocksMap) st userReplicaSets)
        as [[w1 resp1] suspended]
    end.
    cbn [fst snd numSyncRequestsRequired] in H1 |- *.
    pose proof (issueSyncRequest_resume_fold suspended w1 resp1) as H2. cbv zeta in H2.
    destruct (foldl issueSyncRequest_resume (w1, resp1) suspended) as [w2 resp2].
    cbn [fst snd] in H2 |- *. destruct H2 as (_ & _ & _ & R4 & _). lia.
  - intros u. unfold needsSync.
    destruct (clocksMap !! prop_key (psr_endpoint u)) as [nodeClocks|].
    + rewrite Is_true_true, syncRequired_true. split; [by eauto|].
      by intros (? & [= <-] & H).
    + split; [done|]. by intros (? & ? & _).
Qed.

Lemma issueSyncRequests_requires_a_sync_iff_behind_witness :
  ∃ resp, (issueSyncRequests (Scenario.steady 10 5) [Scenario.toCn2]
             (Scenario.cn2Reports 5) Scenario.idle).1 = Returns resp
          ∧ numSyncRequestsRequired resp
            = len (filter (needsSync
                             (foldl (λ o k, <[k.1 := k.2]> o) (∅ : gmap string Z)
                                [("0xabc", 10%Z)])
                             (Scenario.cn2Reports 5))
                     [Scenario.toCn2]).
Proof.
  exact (proj1
    (issueSyncRequests_requires_a_sync_iff_behind (Scenario.steady 10 5) [Scenario.toCn2]
       (Scenario.cn2Reports 5) Scenario.idle [("0xabc", 10%Z)]
       ltac:(vm_compute; reflexivity))).
Defined.
